(** * DevTodo: a shallow embedding of [devtodo.py]

    The development follows the source file top to bottom: the text
    primitives the parser is built from (Python's [re], [str.strip],
    [str.split], [str.join], [str.lower]), [parse_tags_and_priority], the
    task store with [load_tasks] / [save_tasks], the repository operations
    and the command dispatch of [main].

    Conventions.
    - Text is a Rocq [string]; its characters are the code points below 256
      and the character classes are Python's for that range.
    - A task is the dictionary the program stores: [desc] and [done] are read
      with [task[...]], the other three keys with [task.get(..., default)],
      hence they are optional fields.  Record [task] stands for an object
      that has [desc] and [done]; module [Loose] models the commands that
      index these two keys on objects that may lack them, where the index
      raises [KeyError].
    - Every [print] appends a structured [message] to the output of the run;
      the wording, icons and number formatting of a line are not interpreted.
    - The program state is threaded explicitly: the content of [.todo.json],
      the number of writes to it, the output so far and the number of clock
      readings taken.
    - The operations work on a file that is missing, is not JSON, or holds
      an array of task objects; module [Json] follows [load_tasks] on every
      other JSON value and [load_tasks_refines] ties the two together.

    The statements that settle the claims of the specification carry the
    claim number in their comment. *)

From Stdlib Require Import Bool Arith ZArith List String Ascii Lia.
From Stdlib Require Import Sorting.Permutation Sorting.Sorted.
Import ListNotations.
Open Scope string_scope.
Open Scope Z_scope.
Open Scope list_scope.

(** ** Characters *)

Definition code (c : ascii) : nat := nat_of_ascii c.

Definition between (lo hi : nat) (c : ascii) : bool :=
  (Nat.leb lo (code c) && Nat.leb (code c) hi)%bool.

(** [str.isspace], which is also the class [\s] of [re] and the separator
    set of [str.split()] and [str.strip()]. *)
Definition is_space (c : ascii) : bool :=
  (between 9 13 c || between 28 32 c || between 133 133 c
   || between 160 160 c)%bool.

(** The class [\w] of [re] on [str] patterns: alphanumeric or underscore. *)
Definition is_word (c : ascii) : bool :=
  (between 48 57 c || between 65 90 c || between 95 95 c || between 97 122 c
   || between 170 170 c || between 178 179 c || between 181 181 c
   || between 185 186 c || between 188 190 c || between 192 214 c
   || between 216 246 c || between 248 255 c)%bool.

(** [str.lower] on one character. *)
Definition lower_char (c : ascii) : ascii :=
  if (between 65 90 c || between 192 214 c || between 216 222 c)%bool
  then ascii_of_nat (code c + 32) else c.

Arguments is_space : simpl never.
Arguments is_word : simpl never.
Arguments lower_char : simpl never.

(** ** Strings *)

Fixpoint lower (s : string) : string :=
  match s with
  | EmptyString => EmptyString
  | String a r => String (lower_char a) (lower r)
  end.

Fixpoint take_while (p : ascii -> bool) (s : string) : string :=
  match s with
  | EmptyString => EmptyString
  | String a r => if p a then String a (take_while p r) else EmptyString
  end.

Fixpoint drop_while (p : ascii -> bool) (s : string) : string :=
  match s with
  | EmptyString => EmptyString
  | String a r => if p a then drop_while p r else s
  end.

Definition starts_word (s : string) : bool :=
  match s with
  | EmptyString => false
  | String a _ => is_word a
  end.

(** [str.strip()]: white space removed at both ends. *)
Definition lstrip (s : string) : string := drop_while is_space s.

Fixpoint rstrip (s : string) : string :=
  match s with
  | EmptyString => EmptyString
  | String a r =>
      match rstrip r with
      | EmptyString => if is_space a then EmptyString else String a EmptyString
      | r' => String a r'
      end
  end.

Definition strip (s : string) : string := rstrip (lstrip s).

(** [str.split()]: the maximal runs of characters that are not white space.
    [split_aux s] is the run that starts at the head of [s] (empty when [s]
    starts with white space) and the runs after it. *)
Definition push_word (w : string) (ws : list string) : list string :=
  match w with
  | EmptyString => ws
  | _ => w :: ws
  end.

Fixpoint split_aux (s : string) : string * list string :=
  match s with
  | EmptyString => (EmptyString, [])
  | String a r =>
      let (w, ws) := split_aux r in
      if is_space a then (EmptyString, push_word w ws) else (String a w, ws)
  end.

Definition split (s : string) : list string :=
  let (w, ws) := split_aux s in push_word w ws.

(** [sep.join(l)]. *)
Definition join (sep : string) (l : list string) : string :=
  String.concat sep l.

(** ** Regular expressions

    The three patterns of the parser are [c(\w+)] and [c\w+\s*] for a marker
    character [c].  Both are deterministic: the word and the white space
    after it are matched greedily and nothing can be given back.  A scan
    goes left to right; after a match it resumes behind the match, which the
    functions below do by counting down the characters still covered by it. *)

Section Marker.
Variable c : ascii.

Definition at_match (a : ascii) (r : string) : bool :=
  (Ascii.eqb a c && starts_word r)%bool.

(** [re.search(c(\w+), s)]: group 1 of the leftmost match. *)
Fixpoint re_search (s : string) : option string :=
  match s with
  | EmptyString => None
  | String a r =>
      if at_match a r then Some (take_while is_word r) else re_search r
  end.

(** [re.findall(c(\w+), s)]: group 1 of every match, left to right. *)
Fixpoint findall_from (skip : nat) (s : string) : list string :=
  match s with
  | EmptyString => []
  | String a r =>
      match skip with
      | S k => findall_from k r
      | O =>
          if at_match a r
          then let w := take_while is_word r in
               w :: findall_from (String.length w) r
          else findall_from O r
      end
  end.

Definition re_findall (s : string) : list string := findall_from O s.

(** Number of characters that [\w+\s*] matches at the head of [r]. *)
Definition token_length (r : string) : nat :=
  (String.length (take_while is_word r)
   + String.length (take_while is_space (drop_while is_word r)))%nat.

(** [re.sub(c\w+\s*, '', s)]: every match removed. *)
Fixpoint sub_from (skip : nat) (s : string) : string :=
  match s with
  | EmptyString => EmptyString
  | String a r =>
      match skip with
      | S k => sub_from k r
      | O =>
          if at_match a r then sub_from (token_length r) r
          else String a (sub_from O r)
      end
  end.

Definition re_sub (s : string) : string := sub_from O s.
End Marker.

(** ** The parser *)

(** [PRIORITIES], and dictionary lookup ([d.get(k)]). *)
Definition PRIORITIES : list (string * Z) :=
  [("low", 1); ("normal", 2); ("high", 3); ("urgent", 4)].

Fixpoint lookup {V : Type} (k : string) (d : list (string * V)) : option V :=
  match d with
  | [] => None
  | (k', v) :: d' => if String.eqb k k' then Some v else lookup k d'
  end.

Fixpoint lookupZ {V : Type} (k : Z) (d : list (Z * V)) : option V :=
  match d with
  | [] => None
  | (k', v) :: d' => if Z.eqb k k' then Some v else lookupZ k d'
  end.

Inductive icon := Green | Blue | Orange | Red.

Definition PRIORITY_ICONS : list (Z * icon) :=
  [(1, Green); (2, Blue); (3, Orange); (4, Red)].

Definition PRIORITY_NAMES : list (Z * string) :=
  map (fun kv => (snd kv, fst kv)) PRIORITIES.

(** A task: the dictionary stored in the file, for an object that has the
    keys [desc], a string, and [done], a boolean.  [load_tasks] does not
    require the two keys; what the commands do with an object that lacks
    one is the subject of module [Loose]. *)
Record task := mkTask {
  desc : string;
  done : bool;
  priority : option Z;
  tags : option (list string);
  created : option string
}.

(** [task.get('priority', 2)], [task.get('tags', [])],
    [task.get('created', '')]. *)
Definition get_priority (t : task) : Z :=
  match priority t with Some p => p | None => 2 end.
Definition get_tags (t : task) : list string :=
  match tags t with Some l => l | None => [] end.
Definition get_created (t : task) : string :=
  match created t with Some c => c | None => EmptyString end.

Definition set_desc (d : string) (t : task) : task :=
  mkTask d (done t) (priority t) (tags t) (created t).
Definition set_done (b : bool) (t : task) : task :=
  mkTask (desc t) b (priority t) (tags t) (created t).
Definition set_priority (p : Z) (t : task) : task :=
  mkTask (desc t) (done t) (Some p) (tags t) (created t).
Definition set_tags (l : list string) (t : task) : task :=
  mkTask (desc t) (done t) (priority t) (Some l) (created t).
Definition set_created (c : string) (t : task) : task :=
  mkTask (desc t) (done t) (priority t) (tags t) (Some c).

(** What the program prints, one constructor for each [print]. *)
Inductive filter_note :=
| TagsNote (filter_tags : list string)
| PriorityNote (filter_priority : string)
| PendingNote.

Inductive change :=
| DescChange (old_desc new_desc : string)
| PriorityChange (old_priority new_priority : string)
| TagsChange (old_tags new_tags : list string).

Inductive exn :=
  KeyError | IndexError | ValueError | TypeError | JSONDecodeError.

Inductive message :=
| ErrorReadingTodoFile
| UnknownPriority (priority_str : string)
| EmptyDescription (original_desc : string)
| Added (priority_name : string) (d : string) (final_tags : list string)
| NoPendingTasks
| NoTasksMatch (filter_desc : list filter_note)
| TryHint
| AllTasksHeader (total pending finished : nat)
| PendingTasksHeader (pending total : nat)
| BlankLine
| PriorityHeader (i : icon) (priority_name : string)
| TaskLine (indented : bool) (index : Z) (t : task) (show_created : bool)
| InvalidTaskNumber (n : nat)
| AlreadyCompleted (index : Z)
| Completed (index : Z) (d : string)
| AlreadyPending (index : Z)
| Reopened (index : Z) (d : string)
| Removed (was_done : bool) (d : string)
| NoChanges (index : Z)
| Updated (index : Z)
| Change (c : change)
| NoCompletedToClear
| Cleared (n : nat)
| RemovedHeader
| RemovedItem (d : string) (item_tags : list string)
| NoTasksToAnalyze
| StartHint
| DashboardTitle
| Rule
| TotalTasks (total : nat)
| CompletedCount (finished total : nat)
| PendingCount (pending : nat)
| Banner (finished total : nat)
| AllCompleted
| AttentionHeader
| PriorityCount (i : icon) (priority_name : string) (count : nat)
| CategoriesHeader
| TagCount (tag : string) (count : nat)
| WelcomeTitle
| YourTasks
| Tip
| ReadyHint
| GettingStarted
| HelpText
| UnexpectedError (e : exn).

(** [parse_tags_and_priority]: the triple returned and the lines printed. *)
Definition hash : ascii := "#"%char.
Definition at_sign : ascii := "@"%char.

Definition is_empty (s : string) : bool :=
  match s with EmptyString => true | _ => false end.

Definition parse_tags_and_priority (desc0 : string)
  : (option string * list string * Z) * list message :=
  let original_desc := desc0 in
  let tags := re_findall hash desc0 in
  let desc1 := strip (re_sub hash desc0) in
  let priority_match := re_search at_sign desc1 in
  let '(priority, warning, desc2) :=
    match priority_match with
    | Some g =>
        let priority_str := lower g in
        let '(priority, warning) :=
          match lookup priority_str PRIORITIES with
          | Some p => (p, [])
          | None => (2, [UnknownPriority priority_str])
          end in
        (priority, warning, strip (re_sub at_sign desc1))
    | None => (2, [], desc1)
    end in
  let desc3 := join " " (split desc2) in
  if is_empty desc3
  then ((None, [], priority), warning ++ [EmptyDescription original_desc])
  else ((Some desc3, tags, priority), warning).

(** ** Program state and effects *)

(** A reading of [datetime.now()], in the two renderings the program uses:
    [.isoformat()] and [.strftime("%Y-%m-%d %H:%M:%S")]. *)
Record datetime := mkDatetime { isoformat : string; strftime : string }.

(** The content of [.todo.json] as [load_tasks] sees it. *)
Inductive file_state :=
| NoFile                      (* [path.exists()] is false *)
| Unreadable                  (* [json.load] raises [JSONDecodeError] *)
| Stored (l : list task).     (* an array of task objects *)

Record world := mkWorld {
  file : file_state;
  saves : nat;                (* calls of [json.dump] so far *)
  out : list message;         (* lines printed so far *)
  ticks : nat                 (* clock readings taken so far *)
}.

Inductive result (A : Type) :=
| Ok (a : A)
| Raise (e : exn).
Arguments Ok {A} a.
Arguments Raise {A} e.

Definition M (A : Type) : Type := world -> result A * world.

Definition ret {A : Type} (a : A) : M A := fun w => (Ok a, w).

Definition raise {A : Type} (e : exn) : M A := fun w => (Raise e, w).

Definition bind {A B : Type} (m : M A) (k : A -> M B) : M B :=
  fun w =>
    match m w with
    | (Ok a, w') => k a w'
    | (Raise e, w') => (Raise e, w')
    end.

Notation "x <- m ;; k" := (bind m (fun x => k))
  (at level 61, m at next level, right associativity).
Notation "m ;; k" := (bind m (fun _ => k))
  (at level 61, right associativity).

Definition print (m : message) : M unit :=
  fun w => (Ok tt, mkWorld (file w) (saves w) (out w ++ [m]) (ticks w)).

Fixpoint print_all (ms : list message) : M unit :=
  match ms with
  | [] => ret tt
  | m :: ms' => print m ;; print_all ms'
  end.

Fixpoint for_each {A B : Type} (f : A -> M B) (l : list A) : M (list B) :=
  match l with
  | [] => ret []
  | a :: l' => b <- f a ;; bs <- for_each f l' ;; ret (b :: bs)
  end.

(** Python values as conditions. *)
Definition truthy (s : option string) : bool :=
  match s with
  | Some s => negb (is_empty s)
  | None => false
  end.

Definition nonempty {A : Type} (l : list A) : bool :=
  match l with [] => false | _ => true end.

Definition given (l : option (list string)) : bool :=
  match l with
  | Some l => nonempty l
  | None => false
  end.

(** Lists: [l[i]], [l[i] = ...] through an element, [l.pop(i)],
    [l.index(x)]. *)
Definition position {A : Type} (l : list A) (i : Z) : option nat :=
  let n := Z.of_nat (List.length l) in
  if (0 <=? i) && (i <? n) then Some (Z.to_nat i)
  else if (- n <=? i) && (i <? 0) then Some (Z.to_nat (n + i))
  else None.

Definition getitem {A : Type} (l : list A) (i : Z) : M A :=
  match position l i with
  | Some n =>
      match nth_error l n with
      | Some a => ret a
      | None => raise IndexError
      end
  | None => raise IndexError
  end.

Fixpoint update_at {A : Type} (n : nat) (f : A -> A) (l : list A) : list A :=
  match l, n with
  | [], _ => []
  | a :: l', O => f a :: l'
  | a :: l', S n' => a :: update_at n' f l'
  end.

Fixpoint remove_at {A : Type} (n : nat) (l : list A) : list A :=
  match l, n with
  | [], _ => []
  | _ :: l', O => l'
  | a :: l', S n' => a :: remove_at n' l'
  end.

Definition getitemZ {V : Type} (k : Z) (d : list (Z * V)) : M V :=
  match lookupZ k d with
  | Some v => ret v
  | None => raise KeyError
  end.

Definition getitemS {V : Type} (k : string) (d : list (string * V)) : M V :=
  match lookup k d with
  | Some v => ret v
  | None => raise KeyError
  end.

(** Equality of values ([==]). *)
Fixpoint list_eqb {A : Type} (eqb : A -> A -> bool) (l1 l2 : list A) : bool :=
  match l1, l2 with
  | [], [] => true
  | a1 :: l1', a2 :: l2' => eqb a1 a2 && list_eqb eqb l1' l2'
  | _, _ => false
  end.

Definition option_eqb {A : Type} (eqb : A -> A -> bool) (o1 o2 : option A)
  : bool :=
  match o1, o2 with
  | Some a1, Some a2 => eqb a1 a2
  | None, None => true
  | _, _ => false
  end.

Definition strings_eqb : list string -> list string -> bool :=
  list_eqb String.eqb.

Definition task_eqb (t1 t2 : task) : bool :=
  String.eqb (desc t1) (desc t2)
  && Bool.eqb (done t1) (done t2)
  && option_eqb Z.eqb (priority t1) (priority t2)
  && option_eqb strings_eqb (tags t1) (tags t2)
  && option_eqb String.eqb (created t1) (created t2).

Fixpoint index_from (n : nat) (t : task) (l : list task) : option nat :=
  match l with
  | [] => None
  | t' :: l' => if task_eqb t' t then Some n else index_from (S n) t l'
  end.

Definition list_index (l : list task) (t : task) : M Z :=
  match index_from O t l with
  | Some n => ret (Z.of_nat n)
  | None => raise ValueError
  end.

(** [l.sort(key=...)]: the stable sort; [lt] compares the keys.  With
    [reverse=True] the comparison is turned round and equal keys still keep
    their order. *)
Fixpoint insert_sorted {A : Type} (lt : A -> A -> bool) (a : A) (l : list A)
  : list A :=
  match l with
  | [] => [a]
  | b :: l' => if lt a b then a :: l else b :: insert_sorted lt a l'
  end.

Definition sort {A : Type} (lt : A -> A -> bool) (l : list A) : list A :=
  fold_left (fun acc a => insert_sorted lt a acc) l [].

Section Program.
(** The clock: [clock n] is what the [n]-th call of [datetime.now()]
    returns. *)
Variable clock : nat -> datetime.

Definition now : M datetime :=
  fun w =>
    (Ok (clock (ticks w)),
     mkWorld (file w) (saves w) (out w) (S (ticks w))).

(** *** Storage *)

(** The body of the migration loop of [load_tasks]. *)
Definition migrate (t : task) : M task :=
  let t := match priority t with None => set_priority 2 t | Some _ => t end in
  let t := match tags t with None => set_tags [] t | Some _ => t end in
  match created t with
  | None => d <- now ;; ret (set_created (isoformat d) t)
  | Some _ => ret t
  end.

Definition load_tasks : M (list task) :=
  fun w =>
    match file w with
    | NoFile => ret [] w
    | Unreadable => (print ErrorReadingTodoFile ;; ret []) w
    | Stored l => for_each migrate l w
    end.

(** [save_tasks]: the file is replaced by the list.  Opening the file and
    [json.dump] are taken to succeed; the handler that prints a failed
    write is not part of the model. *)
Definition save_tasks (tasks : list task) : M unit :=
  fun w => (Ok tt, mkWorld (Stored tasks) (S (saves w)) (out w) (ticks w)).

(** *** Repository operations *)

Definition add_task (desc_in : string) (priority_in : option string)
  (tags_in : option (list string)) : M bool :=
  let '((parsed, inline_tags, inline_priority), printed) :=
    parse_tags_and_priority desc_in in
  print_all printed ;;
  match parsed with
  | None => ret false
  | Some d =>
      let key :=
        match priority_in with
        | Some p => if truthy priority_in then Some (lower p) else None
        | None => None
        end in
      let final_priority :=
        match key with
        | Some k =>
            match lookup k PRIORITIES with
            | Some p => p
            | None => inline_priority
            end
        | None => inline_priority
        end in
      let final_tags :=
        match tags_in with
        | Some l => if nonempty l then l else inline_tags
        | None => inline_tags
        end in
      tasks <- load_tasks ;;
      t <- now ;;
      let new_task :=
        mkTask d false (Some final_priority) (Some final_tags)
               (Some (strftime t)) in
      let tasks := tasks ++ [new_task] in
      save_tasks tasks ;;
      priority_name <- getitemZ final_priority PRIORITY_NAMES ;;
      print (Added priority_name d final_tags) ;;
      ret true
  end.

Definition in_range (index : Z) (tasks : list task) : bool :=
  (1 <=? index) && (index <=? Z.of_nat (List.length tasks)).

Definition mark_done (index : Z) : M bool :=
  tasks <- load_tasks ;;
  if negb (in_range index tasks)
  then print (InvalidTaskNumber (List.length tasks)) ;; ret false
  else
    t <- getitem tasks (index - 1) ;;
    if done t
    then print (AlreadyCompleted index) ;; ret true
    else
      let tasks := update_at (Z.to_nat (index - 1)) (set_done true) tasks in
      save_tasks tasks ;;
      t <- getitem tasks (index - 1) ;;
      print (Completed index (desc t)) ;;
      ret true.

Definition mark_undone (index : Z) : M bool :=
  tasks <- load_tasks ;;
  if negb (in_range index tasks)
  then print (InvalidTaskNumber (List.length tasks)) ;; ret false
  else
    t <- getitem tasks (index - 1) ;;
    if negb (done t)
    then print (AlreadyPending index) ;; ret true
    else
      let tasks := update_at (Z.to_nat (index - 1)) (set_done false) tasks in
      save_tasks tasks ;;
      t <- getitem tasks (index - 1) ;;
      print (Reopened index (desc t)) ;;
      ret true.

Definition delete_task (index : Z) : M bool :=
  tasks <- load_tasks ;;
  if negb (in_range index tasks)
  then print (InvalidTaskNumber (List.length tasks)) ;; ret false
  else
    removed <- getitem tasks (index - 1) ;;
    let tasks := remove_at (Z.to_nat (index - 1)) tasks in
    save_tasks tasks ;;
    print (Removed (done removed) (desc removed)) ;;
    ret true.

(** The name shown for the priority a task had:
    [PRIORITY_NAMES.get(task.get('priority', 2), 'normal')]. *)
Definition old_priority_name (t : task) : string :=
  match lookupZ (get_priority t) PRIORITY_NAMES with
  | Some n => n
  | None => "normal"
  end.

(** The block of [update_task] under [if desc:].  [None] is the early
    [return False]; otherwise the task as mutated so far and the changes
    collected. *)
Definition update_desc (t : task) (d : string)
  (priority_in : option string) (tags_in : option (list string))
  : M (option (task * list change)) :=
  let '((parsed, inline_tags, inline_priority), printed) :=
    parse_tags_and_priority d in
  print_all printed ;;
  match parsed with
  | None => ret None
  | Some new_desc =>
      let old_desc := desc t in
      let t := set_desc new_desc t in
      let changes := [DescChange old_desc new_desc] in
      tc <-
        (if negb (truthy priority_in)
            && negb (inline_priority =? get_priority t)
         then
           let old_priority := old_priority_name t in
           new_priority <- getitemZ inline_priority PRIORITY_NAMES ;;
           ret (set_priority inline_priority t,
                changes ++ [PriorityChange old_priority new_priority])
         else ret (t, changes)) ;;
      let '(t, changes) := tc in
      match tags_in with
      | None =>
          if negb (strings_eqb inline_tags (get_tags t))
          then
            let old_tags := get_tags t in
            ret (Some (set_tags inline_tags t,
                       changes ++ [TagsChange old_tags inline_tags]))
          else ret (Some (t, changes))
      | Some _ => ret (Some (t, changes))
      end
  end.

Definition update_task (index : Z) (desc_in : option string)
  (priority_in : option string) (tags_in : option (list string)) : M bool :=
  tasks <- load_tasks ;;
  if negb (in_range index tasks)
  then print (InvalidTaskNumber (List.length tasks)) ;; ret false
  else
    t <- getitem tasks (index - 1) ;;
    after_desc <-
      match desc_in with
      | Some d =>
          if truthy desc_in then update_desc t d priority_in tags_in
          else ret (Some (t, []))
      | None => ret (Some (t, []))
      end ;;
    match after_desc with
    | None => ret false
    | Some (t, changes) =>
        let '(t, changes) :=
          match priority_in with
          | Some p =>
              if truthy priority_in
              then
                match lookup (lower p) PRIORITIES with
                | Some priority_level =>
                    if negb (priority_level =? 0)
                       && negb (priority_level =? get_priority t)
                    then (set_priority priority_level t,
                          changes ++ [PriorityChange (old_priority_name t) p])
                    else (t, changes)
                | None => (t, changes)
                end
              else (t, changes)
          | None => (t, changes)
          end in
        let '(t, changes) :=
          match tags_in with
          | Some new_tags =>
              let old_tags := get_tags t in
              if negb (strings_eqb new_tags old_tags)
              then (set_tags new_tags t,
                    changes ++ [TagsChange old_tags new_tags])
              else (t, changes)
          | None => (t, changes)
          end in
        if negb (nonempty changes)
        then print (NoChanges index) ;; ret true
        else
          (* [t] is the dictionary inside [tasks]: the list holds the
             mutated task *)
          let tasks := update_at (Z.to_nat (index - 1)) (fun _ => t) tasks in
          save_tasks tasks ;;
          print (Updated index) ;;
          print_all (map Change changes) ;;
          ret true
    end.

Definition clear_done : M unit :=
  tasks <- load_tasks ;;
  let done_tasks := filter (fun t => done t) tasks in
  let new_tasks := filter (fun t => negb (done t)) tasks in
  if negb (nonempty done_tasks)
  then print NoCompletedToClear
  else
    save_tasks new_tasks ;;
    print (Cleared (List.length done_tasks)) ;;
    if (List.length done_tasks <=? 5)%nat
    then
      print RemovedHeader ;;
      print_all (map (fun t => RemovedItem (desc t) (get_tags t)) done_tasks)
    else ret tt.

(** *** Listing *)

(** [list_tasks] handles list objects by reference: [filtered_tasks = tasks]
    makes two names for one list, a comprehension makes a new list, and
    [sort] works in place.  The variables of the model therefore hold
    addresses into a heap of lists. *)
Definition heap := list (list task).

Definition alloc (l : list task) (h : heap) : nat * heap :=
  (List.length h, h ++ [l]).

Definition deref (h : heap) (a : nat) : list task := nth a h [].

Definition assign (a : nat) (l : list task) (h : heap) : heap :=
  update_at a (fun _ => l) h.

(** [any(tag.lower() in [tag.lower() for tag in t.get('tags', [])]
         for tag in filter_tags)] *)
Definition has_any_tag (filter_tags : list string) (t : task) : bool :=
  existsb
    (fun tag =>
       existsb (String.eqb (lower tag)) (map lower (get_tags t)))
    filter_tags.

(** [key=lambda x: (-x.get('priority', 2), x.get('created', ''))] *)
Definition priority_key_lt (x y : task) : bool :=
  (- get_priority x <? - get_priority y)
  || ((- get_priority x =? - get_priority y)
      && String.ltb (get_created x) (get_created y)).

(** [key=lambda x: x.get('created', ''), reverse=True] *)
Definition created_key_gt (x y : task) : bool :=
  String.ltb (get_created y) (get_created x).

Definition unless_none (current : option Z) (m : M unit) : M unit :=
  match current with
  | Some _ => m
  | None => ret tt
  end.

(** The two loops that print the tasks.  A task line stands for the string
    [format_task] returns: the age shown with [show_created] is part of the
    wording of the line, and the reading of the clock that [format_task]
    takes for it is not counted in [ticks]. *)
Fixpoint render_grouped (all : list task) (show_created : bool)
  (current_priority : option Z) (l : list task) : M unit :=
  match l with
  | [] => ret tt
  | t :: l' =>
      let task_priority := get_priority t in
      current_priority <-
        (if negb (option_eqb Z.eqb (Some task_priority) current_priority)
         then
           priority_name <- getitemZ task_priority PRIORITY_NAMES ;;
           unless_none current_priority (print BlankLine) ;;
           i <- getitemZ task_priority PRIORITY_ICONS ;;
           print (PriorityHeader i priority_name) ;;
           ret (Some task_priority)
         else ret current_priority) ;;
      idx <- list_index all t ;;
      let original_idx := idx + 1 in
      print (TaskLine true original_idx t show_created) ;;
      render_grouped all show_created current_priority l'
  end.

Fixpoint render_flat (all : list task) (show_created : bool)
  (l : list task) : M unit :=
  match l with
  | [] => ret tt
  | t :: l' =>
      idx <- list_index all t ;;
      let original_idx := idx + 1 in
      print (TaskLine false original_idx t show_created) ;;
      render_flat all show_created l'
  end.

Definition list_tasks (filter_tags : option (list string))
  (filter_priority : option string) (sort_by : string)
  (show_done show_created : bool) : M unit :=
  loaded <- load_tasks ;;
  if negb (nonempty loaded)
  then print NoPendingTasks
  else
    let '(tasks, h) := alloc loaded [] in
    let filtered_tasks := tasks in
    let '(filtered_tasks, h) :=
      if negb show_done
      then alloc (filter (fun t => negb (done t)) (deref h filtered_tasks)) h
      else (filtered_tasks, h) in
    let '(filtered_tasks, h) :=
      match filter_tags with
      | Some ft =>
          if nonempty ft
          then alloc (filter (has_any_tag ft) (deref h filtered_tasks)) h
          else (filtered_tasks, h)
      | None => (filtered_tasks, h)
      end in
    let '(filtered_tasks, h) :=
      match filter_priority with
      | Some fp =>
          if truthy filter_priority
          then
            match lookup (lower fp) PRIORITIES with
            | Some priority_level =>
                if negb (priority_level =? 0)
                then alloc (filter (fun t => get_priority t =? priority_level)
                                   (deref h filtered_tasks)) h
                else (filtered_tasks, h)
            | None => (filtered_tasks, h)
            end
          else (filtered_tasks, h)
      | None => (filtered_tasks, h)
      end in
    let h :=
      if String.eqb sort_by "priority"
      then assign filtered_tasks
                  (sort priority_key_lt (deref h filtered_tasks)) h
      else if String.eqb sort_by "created"
      then assign filtered_tasks
                  (sort created_key_gt (deref h filtered_tasks)) h
      else h in
    if negb (nonempty (deref h filtered_tasks))
    then
      let filter_desc :=
        (if given filter_tags
         then match filter_tags with Some ft => [TagsNote ft] | None => [] end
         else [])
        ++ (if truthy filter_priority
            then match filter_priority with
                 | Some fp => [PriorityNote fp]
                 | None => []
                 end
            else [])
        ++ (if negb show_done then [PendingNote] else []) in
      print (NoTasksMatch filter_desc) ;;
      print TryHint
    else
      let total_tasks := List.length (deref h tasks) in
      let pending_tasks :=
        List.length (filter (fun t => negb (done t)) (deref h tasks)) in
      let done_tasks := (total_tasks - pending_tasks)%nat in
      (if show_done
       then print (AllTasksHeader total_tasks pending_tasks done_tasks)
       else print (PendingTasksHeader pending_tasks total_tasks)) ;;
      if String.eqb sort_by "priority" && negb (truthy filter_priority)
      then render_grouped (deref h tasks) show_created None
                          (deref h filtered_tasks)
      else render_flat (deref h tasks) show_created (deref h filtered_tasks).

(** *** Statistics *)

(** [d[k] = d.get(k, 0) + 1] on a dictionary, which keeps the order in
    which its keys were first inserted. *)
Fixpoint bump (k : string) (d : list (string * nat)) : list (string * nat) :=
  match d with
  | [] => [(k, 1%nat)]
  | (k', n) :: d' =>
      if String.eqb k k' then (k', S n) :: d' else (k', n) :: bump k d'
  end.

Fixpoint count_priorities (tasks : list task) (counts : list (string * nat))
  : M (list (string * nat)) :=
  match tasks with
  | [] => ret counts
  | t :: tasks' =>
      if negb (done t)
      then
        priority_name <- getitemZ (get_priority t) PRIORITY_NAMES ;;
        count_priorities tasks' (bump priority_name counts)
      else count_priorities tasks' counts
  end.

Fixpoint count_tags (tasks : list task) (counts : list (string * nat))
  : list (string * nat) :=
  match tasks with
  | [] => counts
  | t :: tasks' =>
      if negb (done t)
      then count_tags tasks' (fold_left (fun d tag => bump tag d)
                                        (get_tags t) counts)
      else count_tags tasks' counts
  end.

Fixpoint print_priority_counts (names : list string)
  (counts : list (string * nat)) : M unit :=
  match names with
  | [] => ret tt
  | priority_name :: names' =>
      match lookup priority_name counts with
      | Some count =>
          level <- getitemS priority_name PRIORITIES ;;
          i <- getitemZ level PRIORITY_ICONS ;;
          print (PriorityCount i priority_name count) ;;
          print_priority_counts names' counts
      | None => print_priority_counts names' counts
      end
  end.

(** [key=lambda x: -x[1]] *)
Definition count_key_lt (x y : string * nat) : bool :=
  (snd y <? snd x)%nat.

Definition show_stats : M unit :=
  tasks <- load_tasks ;;
  if negb (nonempty tasks)
  then print NoTasksToAnalyze ;; print StartHint
  else
    let total := List.length tasks in
    let finished := List.length (filter (fun t => done t) tasks) in
    let pending := (total - finished)%nat in
    print DashboardTitle ;;
    print Rule ;;
    print (TotalTasks total) ;;
    print (CompletedCount finished total) ;;
    print (PendingCount pending) ;;
    print (Banner finished total) ;;
    if (pending =? 0)%nat && (0 <? total)%nat
    then print AllCompleted
    else
      (if (0 <? pending)%nat
       then
         priority_counts <- count_priorities tasks [] ;;
         if nonempty priority_counts
         then
           print AttentionHeader ;;
           print_priority_counts ["urgent"; "high"; "normal"; "low"]
                                 priority_counts
         else ret tt
       else ret tt) ;;
      let tag_counts := count_tags tasks [] in
      (if nonempty tag_counts
       then
         print CategoriesHeader ;;
         print_all (map (fun tc => TagCount (fst tc) (snd tc))
                        (firstn 5 (sort count_key_lt tag_counts)))
       else ret tt) ;;
      print Rule.

(** *** Front end *)

Definition show_welcome_interface : M unit :=
  print WelcomeTitle ;;
  tasks <- load_tasks ;;
  (if nonempty tasks
   then
     print YourTasks ;;
     list_tasks None None "priority" false false ;;
     print Tip
   else print ReadyHint) ;;
  print GettingStarted.

Definition show_help : M unit := print HelpText.

(** The parsed command line.  [Welcome] is the call without any argument;
    [NoCommand] is a command line with options only. *)
Inductive command :=
| Welcome
| NoCommand
| Help
| Ls (tag : option (list string)) (level : option string) (order : string)
     (with_done with_created : bool)
| Add (words : list string) (level : option string)
      (tag : option (list string))
| Update (index : Z) (text : option string) (level : option string)
         (tag : option (list string))
| Done (index : Z)
| Undone (index : Z)
| Rm (index : Z)
| Clear
| Stats.

Definition dispatch (cmd : command) : M unit :=
  match cmd with
  | Add words level tag => add_task (join " " words) level tag ;; ret tt
  | Ls tag level order with_done with_created =>
      list_tasks tag level order with_done with_created
  | Update index text level tag =>
      update_task index text level tag ;; ret tt
  | Done index => mark_done index ;; ret tt
  | Undone index => mark_undone index ;; ret tt
  | Rm index => delete_task index ;; ret tt
  | Clear => clear_done
  | Stats => show_stats
  | Help | NoCommand | Welcome => show_help
  end.

(** [main]: the exit status and the state the run leaves.  An exception
    raised by a command is caught and printed, with status 1; the welcome
    screen runs outside that handler. *)
Definition main (cmd : command) (w : world) : Z * world :=
  match cmd with
  | Welcome =>
      match show_welcome_interface w with
      | (Ok _, w') => (0, w')
      | (Raise _, w') => (1, w')
      end
  | _ =>
      match dispatch cmd w with
      | (Ok _, w') => (0, w')
      | (Raise e, w') =>
          (1, mkWorld (file w') (saves w') (out w' ++ [UnexpectedError e])
                      (ticks w'))
      end
  end.
End Program.

(** ** The file as JSON

    [load_tasks] receives whatever [json.load] returns, not only arrays of
    task objects.  This module follows it on arbitrary JSON values; the
    operations above work on the task records such a file decodes to. *)
Module Json.

#[local] Unset Elimination Schemes.
Inductive value :=
| Null
| Bool (b : bool)
| Int (z : Z)
| Float (literal : string)
| Str (s : string)
| Arr (l : list value)
| Obj (members : list (string * value)).
#[local] Set Elimination Schemes.

(** The file on disk: missing, not JSON, or the value it parses to. *)
Inductive content :=
| Absent
| Invalid
| Parsed (v : value).

Inductive outcome (A : Type) :=
| Return (a : A)
| Throw (e : exn).
Arguments Return {A} a.
Arguments Throw {A} e.

Fixpoint is_substring (k s : string) : bool :=
  String.prefix k s
  || match s with
     | EmptyString => false
     | String _ r => is_substring k r
     end.

(** [for task in tasks]: the elements the loop visits. *)
Definition iterate (v : value) : outcome (list value) :=
  match v with
  | Arr l => Return l
  | Obj members => Return (map (fun m => Str (fst m)) members)
  | Str s =>
      Return (map (fun a => Str (String a EmptyString))
                  (list_ascii_of_string s))
  | Null | Bool _ | Int _ | Float _ => Throw TypeError
  end.

(** [k in task] *)
Definition contains (k : string) (v : value) : outcome bool :=
  match v with
  | Obj members => Return (existsb (fun m => String.eqb (fst m) k) members)
  | Str s => Return (is_substring k s)
  | Arr l =>
      Return (existsb (fun x => match x with
                                | Str s => String.eqb s k
                                | _ => false
                                end) l)
  | Null | Bool _ | Int _ | Float _ => Throw TypeError
  end.

Fixpoint set_member (k : string) (x : value) (members : list (string * value))
  : list (string * value) :=
  match members with
  | [] => [(k, x)]
  | (k', x') :: members' =>
      if String.eqb k k' then (k', x) :: members'
      else (k', x') :: set_member k x members'
  end.

(** [task[k] = x] *)
Definition setitem (k : string) (x : value) (v : value) : outcome value :=
  match v with
  | Obj members => Return (Obj (set_member k x members))
  | _ => Throw TypeError
  end.

Section Load.
Variable clock : nat -> datetime.

(** [if k not in task: task[k] = x] *)
Definition fill (k : string) (x : value) (v : value) : outcome value :=
  match contains k v with
  | Return true => Return v
  | Return false => setitem k x v
  | Throw e => Throw e
  end.

(** One round of the migration loop; the second component counts the
    clock readings. *)
Definition migrate (v : value) (tick : nat) : outcome value * nat :=
  match fill "priority" (Int 2) v with
  | Throw e => (Throw e, tick)
  | Return v1 =>
      match fill "tags" (Arr []) v1 with
      | Throw e => (Throw e, tick)
      | Return v2 =>
          match contains "created" v2 with
          | Throw e => (Throw e, tick)
          | Return true => (Return v2, tick)
          | Return false =>
              (setitem "created" (Str (isoformat (clock tick))) v2,
               S tick)
          end
      end
  end.

Fixpoint migrate_all (l : list value) (tick : nat)
  : outcome (list value) * nat :=
  match l with
  | [] => (Return [], tick)
  | v :: l' =>
      match migrate v tick with
      | (Throw e, tick') => (Throw e, tick')
      | (Return v', tick') =>
          match migrate_all l' tick' with
          | (Throw e, tick'') => (Throw e, tick'')
          | (Return l'', tick'') => (Return (v' :: l''), tick'')
          end
      end
  end.

Definition json_load (c : content) : outcome value :=
  match c with
  | Parsed v => Return v
  | Invalid | Absent => Throw JSONDecodeError
  end.

(** The body of the [try]: the tasks are migrated in place, so an array
    comes back with its elements filled in and any other value as it
    was. *)
Definition load_body (c : content) (tick : nat) : outcome value * nat :=
  match json_load c with
  | Throw e => (Throw e, tick)
  | Return tasks =>
      match iterate tasks with
      | Throw e => (Throw e, tick)
      | Return elements =>
          match migrate_all elements tick with
          | (Throw e, tick') => (Throw e, tick')
          | (Return elements', tick') =>
              (Return (match tasks with
                       | Arr _ => Arr elements'
                       | _ => tasks
                       end), tick')
          end
      end
  end.

(** [load_tasks]: what it returns or raises, what it prints and the clock
    readings taken.  The handler is
    [except (json.JSONDecodeError, KeyError)]. *)
Definition load_tasks (c : content) (tick : nat)
  : outcome value * list message * nat :=
  match c with
  | Absent => (Return (Arr []), [], tick)
  | _ =>
      match load_body c tick with
      | (Throw JSONDecodeError, tick') | (Throw KeyError, tick') =>
          (Return (Arr []), [ErrorReadingTodoFile], tick')
      | (r, tick') => (r, [], tick')
      end
  end.
End Load.

(** Task records as JSON objects, and back. *)
Definition optional {A : Type} (k : string) (f : A -> value) (o : option A)
  : list (string * value) :=
  match o with
  | Some a => [(k, f a)]
  | None => []
  end.

Definition of_task (t : task) : value :=
  Obj ([("desc", Str (desc t)); ("done", Bool (done t))]
       ++ optional "priority" Int (priority t)
       ++ optional "tags" (fun l => Arr (map Str l)) (tags t)
       ++ optional "created" Str (created t)).

Definition of_tasks (l : list task) : value := Arr (map of_task l).

Definition file_content (f : file_state) : content :=
  match f with
  | NoFile => Absent
  | Unreadable => Invalid
  | Stored l => Parsed (of_tasks l)
  end.

Fixpoint strings_of (l : list value) : option (list string) :=
  match l with
  | [] => Some []
  | Str s :: l' =>
      match strings_of l' with
      | Some ss => Some (s :: ss)
      | None => None
      end
  | _ => None
  end.

(** Reading an object as a task: [desc] and [done] must be there, the
    other keys may be missing; the order of the keys does not matter. *)
Definition to_task (v : value) : option task :=
  match v with
  | Obj members =>
      match lookup "desc" members, lookup "done" members with
      | Some (Str d), Some (Bool b) =>
          match lookup "priority" members,
                lookup "tags" members,
                lookup "created" members with
          | (None | Some (Int _)) as p,
            (None | Some (Arr _)) as tg,
            (None | Some (Str _)) as cr =>
              let p' := match p with Some (Int z) => Some z | _ => None end in
              let cr' := match cr with Some (Str s) => Some s | _ => None end in
              match tg with
              | Some (Arr l) =>
                  match strings_of l with
                  | Some ss => Some (mkTask d b p' (Some ss) cr')
                  | None => None
                  end
              | _ => Some (mkTask d b p' None cr')
              end
          | _, _, _ => None
          end
      | _, _ => None
      end
  | _ => None
  end.

Fixpoint to_tasks (l : list value) : option (list task) :=
  match l with
  | [] => Some []
  | v :: l' =>
      match to_task v, to_tasks l' with
      | Some t, Some ts => Some (t :: ts)
      | _, _ => None
      end
  end.
End Json.


(** ** Vocabulary of the statements *)

Fixpoint all_chars (p : ascii -> bool) (s : string) : bool :=
  match s with
  | EmptyString => true
  | String a r => p a && all_chars p r
  end.

Fixpoint any_char (p : ascii -> bool) (s : string) : bool :=
  match s with
  | EmptyString => false
  | String a r => p a || any_char p r
  end.

(** Empty or white space only. *)
Definition blank (s : string) : bool := all_chars is_space s.

Definition no_hash (tag : string) : Prop :=
  any_char (Ascii.eqb hash) tag = false.

(** The invariant of the data model, on one task and on the file. *)
Definition task_ok (t : task) : Prop :=
  blank (desc t) = false
  /\ 1 <= get_priority t <= 4
  /\ Forall no_hash (get_tags t).

Definition stored (f : file_state) : list task :=
  match f with
  | Stored l => l
  | NoFile | Unreadable => []
  end.

Definition store_ok (f : file_state) : Prop := Forall task_ok (stored f).

Definition tags_ok (o : option (list string)) : Prop :=
  match o with
  | Some l => Forall no_hash l
  | None => True
  end.

(** What [load_tasks] prints for a file. *)
Definition read_error (f : file_state) : list message :=
  match f with
  | Unreadable => [ErrorReadingTodoFile]
  | NoFile | Stored _ => []
  end.

(** [s] has a match of [c\w+]. *)
Fixpoint has_token (c : ascii) (s : string) : bool :=
  match s with
  | EmptyString => false
  | String a r => at_match c a r || has_token c r
  end.

(** A word of [str.split()]: not empty, no white space in it. *)
Definition word_ok (w : string) : Prop :=
  w <> EmptyString /\ any_char is_space w = false.

(** The last character of [s], if there is one, is not white space. *)
Fixpoint ends_well (s : string) : bool :=
  match s with
  | EmptyString => true
  | String a r =>
      match r with
      | EmptyString => negb (is_space a)
      | String _ _ => ends_well r
      end
  end.

(** [t'] is [t] as [load_tasks] fills it in: the keys that were there keep
    their values and the missing ones have their defaults. *)
Definition filled (t t' : task) : Prop :=
  desc t' = desc t
  /\ done t' = done t
  /\ priority t' = Some (get_priority t)
  /\ tags t' = Some (get_tags t)
  /\ (exists c, created t' = Some c)
  /\ (forall c, created t = Some c -> created t' = Some c).

(** [t'] differs from [t] in [done] at most, which is [b]; a key that
    [load_tasks] had to fill in counts as unchanged. *)
Definition same_but_done (b : bool) (t t' : task) : Prop :=
  desc t' = desc t
  /\ get_priority t' = get_priority t
  /\ get_tags t' = get_tags t
  /\ (forall c, created t = Some c -> created t' = Some c)
  /\ done t' = b.

(** The parser as the specification words its second step: of the matches
    of [@\w+] only the leftmost is taken out, and nothing but the token. *)
Fixpoint remove_first (c : ascii) (s : string) : string :=
  match s with
  | EmptyString => EmptyString
  | String a r =>
      if at_match c a r then drop_while is_word r
      else String a (remove_first c r)
  end.

Definition parse_first_token_only (desc0 : string)
  : (option string * list string * Z) * list message :=
  let tags := re_findall hash desc0 in
  let desc1 := strip (re_sub hash desc0) in
  let '(priority, warning, desc2) :=
    match re_search at_sign desc1 with
    | Some g =>
        match lookup (lower g) PRIORITIES with
        | Some p => (p, [], remove_first at_sign desc1)
        | None => (2, [UnknownPriority (lower g)], remove_first at_sign desc1)
        end
    | None => (2, [], desc1)
    end in
  let desc3 := join " " (split desc2) in
  if is_empty desc3
  then ((None, [], priority), warning ++ [EmptyDescription desc0])
  else ((Some desc3, tags, priority), warning).

(** Data for the examples. *)
Definition noon : nat -> datetime :=
  fun _ => mkDatetime "2025-01-01T12:00:00.000000" "2025-01-01 12:00:00".

Definition fresh (f : file_state) : world := mkWorld f 0 [] 0.

Definition task_A : task :=
  mkTask "A" false (Some 1) (Some []) (Some "2025-01-01 10:00:00").
Definition task_B : task :=
  mkTask "B" false (Some 3) (Some []) (Some "2025-01-01 11:00:00").

Definition starts_with (p : ascii -> bool) (s : string) : bool :=
  match s with
  | EmptyString => false
  | String a _ => p a
  end.

Definition text_or_none (s : string) : option string :=
  if is_empty s then None else Some s.

(** [l'] is [l] with [done] of the task numbered [i] set to [b] and nothing
    else changed. *)
Definition marked (i : Z) (b : bool) (l l' : list task) : Prop :=
  List.length l' = List.length l
  /\ forall j t t',
       nth_error l j = Some t -> nth_error l' j = Some t' ->
       same_but_done (if Z.of_nat j =? i - 1 then b else done t) t t'.

(** A property of the state that printing and reading the clock cannot
    change. *)
Definition stable (I : world -> Prop) : Prop :=
  forall w o n, I w -> I (mkWorld (file w) (saves w) o n).

(** [m] keeps the invariant [I], whether it returns or raises, and what it
    returns satisfies [Q]. *)
Definition triple {A : Type} (I : world -> Prop) (m : M A) (Q : A -> Prop)
  : Prop :=
  forall w, I w -> I (snd (m w)) /\ forall a, fst (m w) = Ok a -> Q a.

Definition any {A : Type} : A -> Prop := fun _ => True.

(** The file and the number of writes are what they were. *)
Definition untouched (f : file_state) (n : nat) (w : world) : Prop :=
  file w = f /\ saves w = n.

(** The invariant of the data model as a property of the state. *)
Definition kept (w : world) : Prop := store_ok (file w).

Definition changed_ok (r : option (task * list change)) : Prop :=
  match r with
  | Some (t, _) => task_ok t
  | None => True
  end.

(** The run [r] from [w] refused a task number: it failed, printed the valid
    range after whatever [load_tasks] printed, and wrote nothing. *)
Definition refused (w : world) (r : result bool * world) : Prop :=
  fst r = Ok false
  /\ file (snd r) = file w
  /\ saves (snd r) = saves w
  /\ out (snd r)
     = out w ++ read_error (file w)
       ++ [InvalidTaskNumber (List.length (stored (file w)))].

(** The number of tasks in the file. *)
Definition count (w : world) : Z := Z.of_nat (List.length (stored (file w))).

(** The leftmost match of [c\w+\s*] in [s]: [pre] comes before it and has
    no match, [g] is the word, [sp] the white space after it, [rest] what
    follows. *)
Definition first_match (c : ascii) (s g pre sp rest : string) : Prop :=
  s = (pre ++ String c (g ++ sp ++ rest))%string
  /\ has_token c pre = false
  /\ g <> EmptyString
  /\ all_chars is_word g = true
  /\ starts_with is_word (sp ++ rest) = false
  /\ all_chars is_space sp = true
  /\ starts_with is_space rest = false.

(** The parts of a result of the parser. *)
Definition cleaned (r : (option string * list string * Z) * list message)
  : option string := fst (fst (fst r)).
Definition inline_tags (r : (option string * list string * Z) * list message)
  : list string := snd (fst (fst r)).
Definition inline_priority
  (r : (option string * list string * Z) * list message) : Z := snd (fst r).
Definition printed (r : (option string * list string * Z) * list message)
  : list message := snd r.

(** [len(' '.join(ws))] is at most the weight of [ws], a word and one
    separator each. *)
Definition weight (ws : list string) : nat :=
  list_sum (map (fun w => S (String.length w)) ws).


(** ** Vocabulary of the statements about listing *)

(** The number and the task of every task line of an output. *)
Fixpoint lines (o : list message) : list (Z * task) :=
  match o with
  | [] => []
  | TaskLine _ index t _ :: o' => (index, t) :: lines o'
  | _ :: o' => lines o'
  end.

(** What a command printed: the output after it without the output before
    it. *)
Definition printed_by {A : Type} (m : M A) (w : world) : list message :=
  skipn (List.length (out w)) (out (snd (m w))).

Definition pending (t : task) : bool := negb (done t).

(** The level [list_tasks] filters by, if it does. *)
Definition filter_level (filter_priority : option string) : option Z :=
  match filter_priority with
  | Some fp =>
      if truthy filter_priority
      then match lookup (lower fp) PRIORITIES with
           | Some priority_level =>
               if negb (priority_level =? 0) then Some priority_level
               else None
           | None => None
           end
      else None
  | None => None
  end.

(** The tasks [list_tasks] keeps, in file order. *)
Definition selected (filter_tags : option (list string))
  (filter_priority : option string) (show_done : bool) (loaded : list task)
  : list task :=
  let l := if show_done then loaded else filter pending loaded in
  let l := match filter_tags with
           | Some ft => if nonempty ft then filter (has_any_tag ft) l else l
           | None => l
           end in
  match filter_level filter_priority with
  | Some priority_level =>
      filter (fun t => get_priority t =? priority_level) l
  | None => l
  end.

(** No comprehension ran: [filtered_tasks] is still the list [tasks]. *)
Definition same_list (filter_tags : option (list string))
  (filter_priority : option string) (show_done : bool) : bool :=
  show_done && negb (given filter_tags)
  && match filter_level filter_priority with
     | Some _ => false
     | None => true
     end.

Definition ordered (sort_by : string) (l : list task) : list task :=
  if String.eqb sort_by "priority" then sort priority_key_lt l
  else if String.eqb sort_by "created" then sort created_key_gt l
  else l.

(** The number [tasks.index(t) + 1] for a task of the list [all]. *)
Definition number_in (all : list task) (t : task) : Z :=
  match index_from O t all with
  | Some n => Z.of_nat n + 1
  | None => 0
  end.

Definition numbered (all : list task) (l : list task) : list (Z * task) :=
  map (fun t => (number_in all t, t)) l.

Definition prefix_of {A : Type} (p l : list A) : Prop :=
  exists rest, l = p ++ rest.

Definition priority_known (t : task) : Prop := 1 <= get_priority t <= 4.

(** The state [w] with [o] printed and [n] clock readings taken. *)
Definition after (w : world) (o : list message) (n : nat) : world :=
  mkWorld (file w) (saves w) (out w ++ o) n.

(** [y] may come after [x] in a listing by priority. *)
Definition by_priority (x y : task) : Prop :=
  get_priority y <= get_priority x.


(** [list_tasks] once the list objects are resolved: [shown] is what
    [filtered_tasks] holds after the sort and [all] what [tasks] holds
    then. *)
Definition list_tasks_resolved (clock : nat -> datetime)
  (filter_tags : option (list string)) (filter_priority : option string)
  (sort_by : string) (show_done show_created : bool) : M unit :=
  loaded <- load_tasks clock ;;
  if negb (nonempty loaded)
  then print NoPendingTasks
  else
    let shown :=
      ordered sort_by (selected filter_tags filter_priority show_done loaded) in
    let all :=
      if same_list filter_tags filter_priority show_done then shown
      else loaded in
    if negb (nonempty shown)
    then
      let filter_desc :=
        (if given filter_tags
         then match filter_tags with Some ft => [TagsNote ft] | None => [] end
         else [])
        ++ (if truthy filter_priority
            then match filter_priority with
                 | Some fp => [PriorityNote fp]
                 | None => []
                 end
            else [])
        ++ (if negb show_done then [PendingNote] else []) in
      print (NoTasksMatch filter_desc) ;;
      print TryHint
    else
      let total_tasks := List.length all in
      let pending_tasks :=
        List.length (filter (fun t => negb (done t)) all) in
      let done_tasks := (total_tasks - pending_tasks)%nat in
      (if show_done
       then print (AllTasksHeader total_tasks pending_tasks done_tasks)
       else print (PendingTasksHeader pending_tasks total_tasks)) ;;
      if String.eqb sort_by "priority" && negb (truthy filter_priority)
      then render_grouped all show_created None shown
      else render_flat all show_created shown.


(** ** Vocabulary of the statements about the operations *)

(** The level an explicit priority names, if it names one. *)
Definition named_level (priority_in : option string) : option Z :=
  match priority_in with
  | Some p => lookup (lower p) PRIORITIES
  | None => None
  end.

(** The priority [update_task] leaves when it is given a description whose
    parse has the priority [inline]: an explicit priority that names a level
    wins, one that names none keeps the current priority, and without an
    explicit priority the priority parsed from the text is taken. *)
Definition priority_after_update (priority_in : option string)
  (inline current : Z) : Z :=
  match priority_in with
  | Some p =>
      if is_empty p then inline
      else match lookup (lower p) PRIORITIES with
           | Some priority_level => priority_level
           | None => current
           end
  | None => inline
  end.

(** [l'] is [l] with, at task number [i], the priority and the tags
    replaced where a new value is given; nothing else differs, a key that
    [load_tasks] had to fill in counting as unchanged. *)
Definition updated (i : Z) (new_priority : option Z)
  (new_tags : option (list string)) (l l' : list task) : Prop :=
  List.length l' = List.length l
  /\ forall j t t',
       nth_error l j = Some t -> nth_error l' j = Some t' ->
       desc t' = desc t
       /\ done t' = done t
       /\ (forall c, created t = Some c -> created t' = Some c)
       /\ get_priority t'
          = (if Z.of_nat j =? i - 1
             then match new_priority with
                  | Some p => p
                  | None => get_priority t
                  end
             else get_priority t)
       /\ get_tags t'
          = (if Z.of_nat j =? i - 1
             then match new_tags with
                  | Some tg => tg
                  | None => get_tags t
                  end
             else get_tags t).

(** The three keys that [load_tasks] fills in are there. *)
Definition complete (t : task) : Prop :=
  priority t <> None /\ tags t <> None /\ created t <> None.

(** [m] returns, whatever the state satisfying [I] it starts in, keeps [I],
    and what it returns satisfies [Q]. *)
Definition total {A : Type} (I : world -> Prop) (m : M A) (Q : A -> Prop)
  : Prop :=
  forall w, I w -> exists a w', m w = (Ok a, w') /\ I w' /\ Q a.

(** Every stored priority is one of the four. *)
Definition priorities_known (w : world) : Prop :=
  Forall priority_known (stored (file w)).

(** Nothing was written since the file had been written [n] times, or the
    file holds complete tasks only. *)
Definition written_complete (n : nat) (w : world) : Prop :=
  saves w = n \/ Forall complete (stored (file w)).

(** No condition on the state. *)
Definition anything (w : world) : Prop := True.

(** What [update_desc] returns holds a task with all five keys, if it holds
    one. *)
Definition changed_complete (r : option (task * list change)) : Prop :=
  match r with
  | Some (t, _) => complete t
  | None => True
  end.


(** ** Vocabulary of the statements about the statistics *)

(** The tag and the count of every tag line of an output. *)
Fixpoint tag_lines (o : list message) : list (string * nat) :=
  match o with
  | [] => []
  | TagCount tag n :: o' => (tag, n) :: tag_lines o'
  | _ :: o' => tag_lines o'
  end.

(** How often [tag] occurs in the tags of the pending tasks of [l]. *)
Definition tag_total (tag : string) (l : list task) : nat :=
  count_occ string_dec (flat_map get_tags (filter pending l)) tag.

(** The priority of [t] is the level called [name]. *)
Definition named (name : string) (t : task) : bool :=
  match lookupZ (get_priority t) PRIORITY_NAMES with
  | Some n => String.eqb n name
  | None => false
  end.

(** How many pending tasks of [l] have the priority called [name]. *)
Definition level_total (name : string) (l : list task) : nat :=
  List.length (filter (fun t => pending t && named name t) l).

(** [d.get(k, 0)] *)
Definition tally (d : list (string * nat)) (k : string) : nat :=
  match lookup k d with
  | Some n => n
  | None => O
  end.

Definition positive (d : list (string * nat)) : Prop :=
  forall k n, lookup k d = Some n -> (1 <= n)%nat.

(** [y] may come after [x] in the list of tags. *)
Definition by_count (x y : string * nat) : Prop := (snd y <= snd x)%nat.

(** A line with the count of a priority shows the icon of the level of that
    name and the count [n]. *)
Definition priority_line_ok (count_of : string -> nat -> Prop) (m : message)
  : Prop :=
  match m with
  | PriorityCount i name n =>
      count_of name n
      /\ exists lv, lookup name PRIORITIES = Some lv
                    /\ lookupZ lv PRIORITY_ICONS = Some i
  | _ => True
  end.

(** A pending task whose priority is none of the four levels. *)
Definition unknown_pending (t : task) : Prop :=
  done t = false /\ lookupZ (get_priority t) PRIORITY_NAMES = None.

(** The head of the dashboard for [total] tasks of which [finished] are
    done. *)
Definition dashboard_head (finished total : nat) : list message :=
  [DashboardTitle; Rule; TotalTasks total; CompletedCount finished total;
   PendingCount (total - finished); Banner finished total].

Definition task_C : task :=
  mkTask "C" false (Some 3) (Some ["api"; "bug"]) (Some "2025-01-01 12:00:00").
Definition task_D : task := mkTask "D" false None (Some ["api"]) None.
Definition task_E : task := mkTask "E" true (Some 4) (Some ["api"]) None.
Definition task_F : task := mkTask "F" false (Some 7) (Some []) None.


(** ** Vocabulary of the statements about the file as JSON *)

(** The value of key [k], or [x] if the object has no such key. *)
Definition member_or (k : string) (x : Json.value)
  (members : list (string * Json.value)) : Json.value :=
  match lookup k members with
  | Some y => y
  | None => x
  end.

(** [members'] is [members] with the three keys of the migration filled
    in: each keeps its value if it has one, whatever the value is, and gets
    its default if not; every other key is as it was. *)
Definition object_filled (clock : nat -> datetime)
  (members members' : list (string * Json.value)) : Prop :=
  lookup "priority" members'
  = Some (member_or "priority" (Json.Int 2) members)
  /\ lookup "tags" members' = Some (member_or "tags" (Json.Arr []) members)
  /\ (exists tick,
        lookup "created" members'
        = Some (member_or "created" (Json.Str (isoformat (clock tick)))
                          members))
  /\ forall k, k <> "priority" -> k <> "tags" -> k <> "created" ->
               lookup k members' = lookup k members.

(** The object has the three keys. *)
Definition migrated (members : list (string * Json.value)) : Prop :=
  lookup "priority" members <> None
  /\ lookup "tags" members <> None
  /\ lookup "created" members <> None.

(** ** Vocabulary of the statement about parsing twice *)

(** Every [c] in [s] has a word character right after it, so that it starts
    a match of [c\w+]. *)
Fixpoint leads_word (c : ascii) (s : string) : bool :=
  match s with
  | EmptyString => true
  | String a r => (negb (Ascii.eqb a c) || starts_word r) && leads_word c r
  end.

(** [c] does not occur in [s]. *)
Definition absent (c : ascii) (s : string) : Prop :=
  any_char (Ascii.eqb c) s = false.

(** ** Tasks with missing keys

    [load_tasks] returns the objects of the file as they are, with the keys
    [priority], [tags] and [created] filled in; it neither requires nor
    adds [desc] and [done].  [mark_done], [mark_undone], [delete_task] and
    [clear_done] index [task["done"]] and [task["desc"]], which raises
    [KeyError] on an object without the key.  Here these four commands are
    modelled on objects any of whose five keys may be missing; the values
    of the keys that are there have the types the program writes. *)
Module Loose.

Record entry := mkEntry {
  desc : option string;
  done : option bool;
  priority : option Z;
  tags : option (list string);
  created : option string
}.

(** [task.get('tags', [])] *)
Definition get_tags (e : entry) : list string :=
  match tags e with Some l => l | None => [] end.

Definition set_done (b : bool) (e : entry) : entry :=
  mkEntry (desc e) (Some b) (priority e) (tags e) (created e).
Definition set_priority (p : Z) (e : entry) : entry :=
  mkEntry (desc e) (done e) (Some p) (tags e) (created e).
Definition set_tags (l : list string) (e : entry) : entry :=
  mkEntry (desc e) (done e) (priority e) (Some l) (created e).
Definition set_created (c : string) (e : entry) : entry :=
  mkEntry (desc e) (done e) (priority e) (tags e) (Some c).

Inductive file_state :=
| NoFile
| Unreadable
| Stored (l : list entry).

Record world := mkWorld {
  file : file_state;
  saves : nat;
  out : list message;
  ticks : nat
}.

Definition M (A : Type) : Type := world -> result A * world.

Definition ret {A : Type} (a : A) : M A := fun w => (Ok a, w).

Definition raise {A : Type} (e : exn) : M A := fun w => (Raise e, w).

Definition bind {A B : Type} (m : M A) (k : A -> M B) : M B :=
  fun w =>
    match m w with
    | (Ok a, w') => k a w'
    | (Raise e, w') => (Raise e, w')
    end.

Declare Scope loose_scope.
Notation "x <- m ;; k" := (bind m (fun x => k))
  (at level 61, m at next level, right associativity) : loose_scope.
Notation "m ;; k" := (bind m (fun _ => k))
  (at level 61, right associativity) : loose_scope.
#[local] Open Scope loose_scope.

Definition print (m : message) : M unit :=
  fun w => (Ok tt, mkWorld (file w) (saves w) (out w ++ [m]) (ticks w)).

Fixpoint for_each {A B : Type} (f : A -> M B) (l : list A) : M (list B) :=
  match l with
  | [] => ret []
  | a :: l' => b <- f a ;; bs <- for_each f l' ;; ret (b :: bs)
  end.

(** [l[i]] on a list. *)
Definition getitem {A : Type} (l : list A) (i : Z) : M A :=
  match position l i with
  | Some n =>
      match nth_error l n with
      | Some a => ret a
      | None => raise IndexError
      end
  | None => raise IndexError
  end.

(** [task[k]] on a dictionary: [KeyError] if the key is missing. *)
Definition getkey {A : Type} (k : entry -> option A) (e : entry) : M A :=
  match k e with
  | Some a => ret a
  | None => raise KeyError
  end.

Section Commands.
Variable clock : nat -> datetime.

Definition now : M datetime :=
  fun w =>
    (Ok (clock (ticks w)),
     mkWorld (file w) (saves w) (out w) (S (ticks w))).

Definition migrate (e : entry) : M entry :=
  let e := match priority e with None => set_priority 2 e | Some _ => e end in
  let e := match tags e with None => set_tags [] e | Some _ => e end in
  match created e with
  | None => d <- now ;; ret (set_created (isoformat d) e)
  | Some _ => ret e
  end.

Definition load_tasks : M (list entry) :=
  fun w =>
    match file w with
    | NoFile => ret [] w
    | Unreadable => (print ErrorReadingTodoFile ;; ret []) w
    | Stored l => for_each migrate l w
    end.

Definition save_tasks (tasks : list entry) : M unit :=
  fun w => (Ok tt, mkWorld (Stored tasks) (S (saves w)) (out w) (ticks w)).

Definition in_range (index : Z) (tasks : list entry) : bool :=
  (1 <=? index) && (index <=? Z.of_nat (List.length tasks)).

Definition mark_done (index : Z) : M bool :=
  tasks <- load_tasks ;;
  if negb (in_range index tasks)
  then print (InvalidTaskNumber (List.length tasks)) ;; ret false
  else
    t <- getitem tasks (index - 1) ;;
    is_done <- getkey done t ;;
    if is_done
    then print (AlreadyCompleted index) ;; ret true
    else
      let tasks := update_at (Z.to_nat (index - 1)) (set_done true) tasks in
      save_tasks tasks ;;
      t <- getitem tasks (index - 1) ;;
      d <- getkey desc t ;;
      print (Completed index d) ;;
      ret true.

Definition mark_undone (index : Z) : M bool :=
  tasks <- load_tasks ;;
  if negb (in_range index tasks)
  then print (InvalidTaskNumber (List.length tasks)) ;; ret false
  else
    t <- getitem tasks (index - 1) ;;
    is_done <- getkey done t ;;
    if negb is_done
    then print (AlreadyPending index) ;; ret true
    else
      let tasks := update_at (Z.to_nat (index - 1)) (set_done false) tasks in
      save_tasks tasks ;;
      t <- getitem tasks (index - 1) ;;
      d <- getkey desc t ;;
      print (Reopened index d) ;;
      ret true.

(** The file is written before [removed['done']] is read. *)
Definition delete_task (index : Z) : M bool :=
  tasks <- load_tasks ;;
  if negb (in_range index tasks)
  then print (InvalidTaskNumber (List.length tasks)) ;; ret false
  else
    removed <- getitem tasks (index - 1) ;;
    let tasks := remove_at (Z.to_nat (index - 1)) tasks in
    save_tasks tasks ;;
    was_done <- getkey done removed ;;
    d <- getkey desc removed ;;
    print (Removed was_done d) ;;
    ret true.

(** [[t for t in tasks if keep(t["done"])]]: the key is read for every
    task, in order. *)
Fixpoint select (keep : bool -> bool) (tasks : list entry) : M (list entry) :=
  match tasks with
  | [] => ret []
  | t :: tasks' =>
      is_done <- getkey done t ;;
      rest <- select keep tasks' ;;
      ret (if keep is_done then t :: rest else rest)
  end.

Definition print_removed (t : entry) : M unit :=
  d <- getkey desc t ;;
  print (RemovedItem d (get_tags t)).

Definition clear_done : M unit :=
  tasks <- load_tasks ;;
  done_tasks <- select (fun b => b) tasks ;;
  new_tasks <- select negb tasks ;;
  if negb (nonempty done_tasks)
  then print NoCompletedToClear
  else
    save_tasks new_tasks ;;
    print (Cleared (List.length done_tasks)) ;;
    if (List.length done_tasks <=? 5)%nat
    then
      print RemovedHeader ;;
      for_each print_removed done_tasks ;;
      ret tt
    else ret tt.
End Commands.

(** *** Vocabulary of the statements *)

Definition stored (f : file_state) : list entry :=
  match f with
  | Stored l => l
  | NoFile | Unreadable => []
  end.

Definition count (w : world) : Z := Z.of_nat (List.length (stored (file w))).

Definition read_error (f : file_state) : list message :=
  match f with
  | Unreadable => [ErrorReadingTodoFile]
  | NoFile | Stored _ => []
  end.

(** [e'] is [e] with the three keys of the migration filled in; [desc] and
    [done] are as they were, there or not. *)
Definition filled (e e' : entry) : Prop :=
  desc e' = desc e
  /\ done e' = done e
  /\ priority e' = Some (match priority e with Some p => p | None => 2 end)
  /\ tags e' = Some (get_tags e)
  /\ (exists c, created e' = Some c)
  /\ (forall c, created e = Some c -> created e' = Some c).

Definition completed (e : entry) : bool :=
  match done e with Some b => b | None => false end.

Definition pending (e : entry) : bool :=
  match done e with Some b => negb b | None => false end.

(** The state [w] with [o] printed and [n] clock readings taken. *)
Definition after (w : world) (o : list message) (n : nat) : world :=
  mkWorld (file w) (saves w) (out w ++ o) n.

Definition fresh (f : file_state) : world := mkWorld f 0 [] 0.

(** An object with all keys, one without [done], one without [desc]. *)
Definition whole : entry :=
  mkEntry (Some "A") (Some false) (Some 1) (Some []) (Some "2025-01-01").
Definition no_done : entry := mkEntry (Some "x") None None None None.
Definition no_desc : entry := mkEntry None (Some false) None None None.
End Loose.

(** ** The two models side by side *)

(** A task of record [task] as an object: [desc] and [done] are there. *)
Definition loosen (t : task) : Loose.entry :=
  Loose.mkEntry (Some (desc t)) (Some (done t)) (priority t) (tags t)
                (created t).

Definition loosen_file (f : file_state) : Loose.file_state :=
  match f with
  | NoFile => Loose.NoFile
  | Unreadable => Loose.Unreadable
  | Stored l => Loose.Stored (map loosen l)
  end.

Definition loosen_world (w : world) : Loose.world :=
  Loose.mkWorld (loosen_file (file w)) (saves w) (out w) (ticks w).

Definition map_result {A B : Type} (f : A -> B) (r : result A) : result B :=
  match r with
  | Ok a => Ok (f a)
  | Raise e => Raise e
  end.

(** [lm], run on the objects, does what [m] does on the records: the same
    result up to [f], the same output, the same file. *)
Definition agree {A B : Type} (f : A -> B) (m : M A) (lm : Loose.M B)
  : Prop :=
  forall w,
    lm (loosen_world w) = (map_result f (fst (m w)), loosen_world (snd (m w))).

(** * Proofs *)

(** ** Text *)

Lemma hash_not_word : is_word hash = false.
Proof. reflexivity. Qed.

Lemma at_sign_not_word : is_word at_sign = false.
Proof. reflexivity. Qed.

Lemma space_is_space : is_space " "%char = true.
Proof. reflexivity. Qed.

Lemma append_empty_r (s : string) : (s ++ EmptyString)%string = s.
Proof. induction s as [|a s IH]; simpl; congruence. Qed.

Lemma append_assoc (s1 s2 s3 : string) :
  ((s1 ++ s2) ++ s3)%string = (s1 ++ (s2 ++ s3))%string.
Proof. induction s1 as [|a s1 IH]; simpl; congruence. Qed.

Lemma take_drop (p : ascii -> bool) (s : string) :
  (take_while p s ++ drop_while p s)%string = s.
Proof.
  induction s as [|a s IH]; simpl; [reflexivity|].
  destruct (p a); simpl; congruence.
Qed.

Lemma take_while_all (p : ascii -> bool) (s : string) :
  all_chars p (take_while p s) = true.
Proof.
  induction s as [|a s IH]; simpl; [reflexivity|].
  destruct (p a) eqn:E; simpl; [rewrite E; exact IH | reflexivity].
Qed.

Lemma drop_while_head (p : ascii -> bool) (s : string) :
  match drop_while p s with
  | EmptyString => True
  | String a _ => p a = false
  end.
Proof.
  induction s as [|a s IH]; simpl; [exact I|].
  destruct (p a) eqn:E; [exact IH | exact E].
Qed.

Lemma is_empty_true (s : string) : is_empty s = true -> s = EmptyString.
Proof. destruct s; [reflexivity | discriminate]. Qed.

Lemma is_empty_false (s : string) : is_empty s = false -> s <> EmptyString.
Proof. destruct s; [discriminate | congruence]. Qed.

(** A string of word characters holds no marker that is not one. *)
Lemma word_chars_exclude (c : ascii) (w : string) :
  is_word c = false -> all_chars is_word w = true ->
  any_char (Ascii.eqb c) w = false.
Proof.
  intros Hc. induction w as [|a w IH]; simpl; [reflexivity|].
  intros H. apply andb_true_iff in H as [Ha Hw].
  rewrite (IH Hw), orb_false_r.
  destruct (Ascii.eqb c a) eqn:E; [|reflexivity].
  apply Ascii.eqb_eq in E. subst a. congruence.
Qed.

(** ** Matches *)

Lemma findall_from_words (c : ascii) (s : string) : forall skip,
  Forall (fun w => all_chars is_word w = true) (findall_from c skip s).
Proof.
  induction s as [|a s IH]; intros skip; simpl; [constructor|].
  destruct skip as [|k]; [|apply IH].
  destruct (at_match c a s); [|apply IH].
  constructor; [apply take_while_all | apply IH].
Qed.

Lemma re_findall_no_hash (s : string) : Forall no_hash (re_findall hash s).
Proof.
  unfold re_findall.
  eapply Forall_impl; [|apply findall_from_words].
  intros w Hw. apply word_chars_exclude; [exact hash_not_word | exact Hw].
Qed.

Lemma no_token_findall (c : ascii) (s : string) :
  has_token c s = false -> re_findall c s = [].
Proof.
  unfold re_findall. induction s as [|a s IH]; simpl; [reflexivity|].
  intros H. apply orb_false_iff in H as [H1 H2]. rewrite H1. auto.
Qed.

Lemma no_token_sub (c : ascii) (s : string) :
  has_token c s = false -> re_sub c s = s.
Proof.
  unfold re_sub. induction s as [|a s IH]; simpl; [reflexivity|].
  intros H. apply orb_false_iff in H as [H1 H2]. rewrite H1.
  f_equal. auto.
Qed.

Lemma no_token_search (c : ascii) (s : string) :
  has_token c s = false -> re_search c s = None.
Proof.
  induction s as [|a s IH]; simpl; [reflexivity|].
  intros H. apply orb_false_iff in H as [H1 H2]. rewrite H1. auto.
Qed.

Lemma search_token (c : ascii) (s : string) :
  re_search c s = None -> has_token c s = false.
Proof.
  induction s as [|a s IH]; simpl; [reflexivity|].
  destruct (at_match c a s); [discriminate | exact IH].
Qed.

(** ** Words *)

Lemma push_word_ok (w : string) (ws : list string) :
  any_char is_space w = false -> Forall word_ok ws ->
  Forall word_ok (push_word w ws).
Proof.
  intros Hw Hws. destruct w; simpl; [exact Hws|].
  constructor; [split; [discriminate | exact Hw] | exact Hws].
Qed.

Lemma split_aux_ok (s : string) :
  any_char is_space (fst (split_aux s)) = false
  /\ Forall word_ok (snd (split_aux s)).
Proof.
  induction s as [|a s IH]; simpl; [split; [reflexivity | constructor]|].
  destruct (split_aux s) as [w ws]. simpl in IH. destruct IH as [Hw Hws].
  destruct (is_space a) eqn:E; simpl.
  - split; [reflexivity | apply push_word_ok; assumption].
  - rewrite E, Hw. split; [reflexivity | exact Hws].
Qed.

Lemma split_words (s : string) : Forall word_ok (split s).
Proof.
  unfold split. pose proof (split_aux_ok s) as H.
  destruct (split_aux s) as [w ws]. simpl in H.
  apply push_word_ok; tauto.
Qed.

Lemma join_cons (w : string) (ws : list string) :
  join " " (w :: ws)
  = match ws with
    | [] => w
    | _ => (w ++ String " " (join " " ws))%string
    end.
Proof. destruct ws; reflexivity. Qed.

Lemma split_aux_word (w s : string) :
  any_char is_space w = false ->
  split_aux (w ++ s)
  = ((w ++ fst (split_aux s))%string, snd (split_aux s)).
Proof.
  induction w as [|a w IH]; simpl; intros H.
  - destruct (split_aux s); reflexivity.
  - apply orb_false_iff in H as [Ha Hw]. rewrite (IH Hw), Ha. reflexivity.
Qed.

Lemma split_join (ws : list string) :
  Forall word_ok ws -> split (join " " ws) = ws.
Proof.
  induction 1 as [|w ws [Hne Hsp] Hws IH]; [reflexivity|].
  rewrite join_cons. destruct ws as [|w' ws'].
  - unfold split. rewrite <- (append_empty_r w) at 1.
    rewrite split_aux_word by exact Hsp. simpl. rewrite append_empty_r.
    destruct w; [congruence | reflexivity].
  - unfold split in *. rewrite split_aux_word by exact Hsp.
    remember (join " " (w' :: ws')) as rest.
    simpl. destruct (split_aux rest) as [u us]. simpl.
    rewrite append_empty_r, IH.
    destruct w; [congruence | reflexivity].
Qed.

Lemma word_head (w : string) :
  word_ok w -> exists a r, w = String a r /\ is_space a = false.
Proof.
  intros [Hne Hsp]. destruct w as [|a r]; [congruence|].
  simpl in Hsp. apply orb_false_iff in Hsp as [Ha _]. eauto.
Qed.

Lemma join_head (ws : list string) :
  Forall word_ok ws -> ws <> [] ->
  exists a r, join " " ws = String a r /\ is_space a = false.
Proof.
  intros H Hne. destruct H as [|w ws Hw Hws]; [congruence|].
  destruct (word_head w Hw) as (a & r & -> & Ha).
  rewrite join_cons. destruct ws; simpl; eauto.
Qed.

Lemma join_empty (ws : list string) :
  Forall word_ok ws -> join " " ws = EmptyString -> ws = [].
Proof.
  intros H E. destruct ws as [|w ws]; [reflexivity|].
  destruct (join_head (w :: ws) H) as (a & r & E' & _); congruence.
Qed.


(** ** Stripping *)

Lemma rstrip_id (s : string) : ends_well s = true -> rstrip s = s.
Proof.
  induction s as [|a s IH]; [reflexivity|].
  destruct s as [|b s].
  - simpl. intros H. apply negb_true_iff in H. rewrite H. reflexivity.
  - intros H. change (ends_well (String a (String b s)))
      with (ends_well (String b s)) in H.
    change (rstrip (String a (String b s)))
      with (match rstrip (String b s) with
            | EmptyString =>
                if is_space a then EmptyString else String a EmptyString
            | r' => String a r'
            end).
    rewrite (IH H). reflexivity.
Qed.

Lemma ends_well_append (w s : string) :
  s <> EmptyString -> ends_well (w ++ s) = ends_well s.
Proof.
  intros Hs. induction w as [|a w IH]; [reflexivity|].
  simpl. destruct (w ++ s)%string eqn:E; [|exact IH].
  destruct w; simpl in E; [congruence | discriminate].
Qed.

Lemma ends_well_word (w : string) :
  any_char is_space w = false -> ends_well w = true.
Proof.
  induction w as [|a w IH]; [reflexivity|].
  simpl. intros H. apply orb_false_iff in H as [Ha Hw].
  destruct w; [rewrite Ha; reflexivity | exact (IH Hw)].
Qed.

Lemma join_ends_well (ws : list string) :
  Forall word_ok ws -> ends_well (join " " ws) = true.
Proof.
  induction 1 as [|w ws [Hne Hsp] Hws IH]; [reflexivity|].
  rewrite join_cons. destruct ws as [|w' ws'].
  - apply ends_well_word, Hsp.
  - rewrite ends_well_append by discriminate.
    remember (join " " (w' :: ws')) as rest.
    destruct (join_head (w' :: ws') Hws) as (a & r & E & _); [discriminate|].
    rewrite <- Heqrest in E. rewrite E in *. exact IH.
Qed.

Lemma lstrip_id (a : ascii) (r : string) :
  is_space a = false -> lstrip (String a r) = String a r.
Proof. intros H. unfold lstrip. simpl. rewrite H. reflexivity. Qed.

Lemma strip_join (ws : list string) :
  Forall word_ok ws -> strip (join " " ws) = join " " ws.
Proof.
  intros H. unfold strip. destruct ws as [|w ws]; [reflexivity|].
  destruct (join_head (w :: ws) H) as (a & r & E & Ha); [discriminate|].
  rewrite E, (lstrip_id a r Ha), <- E.
  apply rstrip_id, join_ends_well, H.
Qed.

Lemma join_not_blank (ws : list string) :
  Forall word_ok ws -> ws <> [] -> blank (join " " ws) = false.
Proof.
  intros H Hne. destruct (join_head ws H Hne) as (a & r & -> & Ha).
  unfold blank. simpl. rewrite Ha. reflexivity.
Qed.

(** ** The parser *)

Lemma PRIORITIES_range (k : string) (p : Z) :
  lookup k PRIORITIES = Some p -> 1 <= p <= 4.
Proof.
  unfold PRIORITIES. simpl.
  repeat match goal with
         | |- context [String.eqb ?a ?b] => destruct (String.eqb a b)
         end; intros H; inversion H; lia.
Qed.

Lemma PRIORITY_NAMES_total (p : Z) :
  1 <= p <= 4 -> exists n, lookupZ p PRIORITY_NAMES = Some n.
Proof.
  intros H.
  assert (p = 1 \/ p = 2 \/ p = 3 \/ p = 4) as [-> | [-> | [-> | ->]]] by lia;
    simpl; eauto.
Qed.

(** The shape of every result of the parser. *)
Lemma parse_cases (d : string) :
  exists p warning d2,
    1 <= p <= 4
    /\ parse_tags_and_priority d
       = if is_empty (join " " (split d2))
         then ((None, [], p), warning ++ [EmptyDescription d])
         else ((Some (join " " (split d2)), re_findall hash d, p), warning).
Proof.
  unfold parse_tags_and_priority.
  destruct (re_search at_sign (strip (re_sub hash d))) as [g|].
  - destruct (lookup (lower g) PRIORITIES) as [p|] eqn:E.
    + exists p, [], (strip (re_sub at_sign (strip (re_sub hash d)))).
      split; [exact (PRIORITIES_range _ _ E) | reflexivity].
    + exists 2, [UnknownPriority (lower g)],
        (strip (re_sub at_sign (strip (re_sub hash d)))).
      split; [lia | reflexivity].
  - exists 2, [], (strip (re_sub hash d)). split; [lia | reflexivity].
Qed.

Lemma parse_some (d cd : string) (tg : list string) (p : Z)
  (ms : list message) :
  parse_tags_and_priority d = ((Some cd, tg, p), ms) ->
  blank cd = false /\ cd <> EmptyString
  /\ 1 <= p <= 4 /\ Forall no_hash tg
  /\ exists ws, Forall word_ok ws /\ cd = join " " ws.
Proof.
  destruct (parse_cases d) as (p' & w & d2 & Hp & E). rewrite E.
  destruct (is_empty (join " " (split d2))) eqn:Em; [discriminate|].
  intros H. inversion H. subst.
  pose proof (split_words d2) as Hw.
  assert (split d2 <> []) as Hne.
  { intros E0. rewrite E0 in Em. discriminate. }
  repeat split.
  - apply join_not_blank; assumption.
  - apply is_empty_false, Em.
  - lia.
  - lia.
  - apply re_findall_no_hash.
  - exists (split d2). split; [exact Hw | reflexivity].
Qed.

Lemma parse_none (d : string) (tg : list string) (p : Z) (ms : list message) :
  parse_tags_and_priority d = ((None, tg, p), ms) ->
  tg = [] /\ exists warning, ms = warning ++ [EmptyDescription d].
Proof.
  destruct (parse_cases d) as (p' & w & d2 & Hp & E). rewrite E.
  destruct (is_empty (join " " (split d2))); [|discriminate].
  intros H. inversion H. subst. eauto.
Qed.

(** A text that is already clean and holds no token parses to itself. *)
Lemma parse_clean (ws : list string) :
  Forall word_ok ws -> ws <> [] ->
  has_token hash (join " " ws) = false ->
  has_token at_sign (join " " ws) = false ->
  parse_tags_and_priority (join " " ws) = ((Some (join " " ws), [], 2), []).
Proof.
  intros Hw Hne Hh Ha. unfold parse_tags_and_priority.
  rewrite (no_token_findall _ _ Hh), (no_token_sub _ _ Hh).
  rewrite (strip_join ws Hw), (no_token_search _ _ Ha).
  rewrite (split_join ws Hw).
  destruct (join_head ws Hw Hne) as (a & r & E & _). rewrite E. reflexivity.
Qed.

(** * Effects *)

Section Triples.
Variable I : world -> Prop.
Hypothesis I_stable : stable I.

Lemma triple_ret {A : Type} (a : A) (Q : A -> Prop) :
  Q a -> triple I (ret a) Q.
Proof. intros H w Hw. split; [exact Hw|]. intros a' E. inversion E. subst. exact H. Qed.

Lemma triple_raise {A : Type} (e : exn) (Q : A -> Prop) :
  triple I (raise e) Q.
Proof. intros w Hw. split; [exact Hw|]. intros a E. discriminate. Qed.

Lemma triple_bind {A B : Type} (m : M A) (k : A -> M B)
  (Q : A -> Prop) (R : B -> Prop) :
  triple I m Q -> (forall a, Q a -> triple I (k a) R) ->
  triple I (bind m k) R.
Proof.
  intros Hm Hk w Hw. unfold bind.
  destruct (Hm w Hw) as [H1 H2].
  destruct (m w) as [[a|e] w']; simpl in *.
  - apply (Hk a (H2 a eq_refl) w' H1).
  - split; [exact H1 | discriminate].
Qed.

Lemma triple_weaken {A : Type} (m : M A) (Q R : A -> Prop) :
  (forall a, Q a -> R a) -> triple I m Q -> triple I m R.
Proof.
  intros HQR Hm w Hw. destruct (Hm w Hw) as [H1 H2].
  split; [exact H1 | intros a E; apply HQR, H2, E].
Qed.

Lemma triple_print (m : message) : triple I (print m) any.
Proof.
  intros w Hw. split; [apply I_stable, Hw | intros; exact Logic.I].
Qed.

Lemma triple_print_all (ms : list message) : triple I (print_all ms) any.
Proof.
  induction ms as [|m ms IH]; simpl.
  - apply triple_ret. exact Logic.I.
  - eapply triple_bind; [apply triple_print | intros; exact IH].
Qed.

Lemma triple_now (clock : nat -> datetime) : triple I (now clock) any.
Proof.
  intros w Hw. split; [apply I_stable, Hw | intros; exact Logic.I].
Qed.

Lemma triple_for_each {A B : Type} (f : A -> M B) (P : A -> Prop)
  (Q : B -> Prop) (l : list A) :
  (forall a, P a -> triple I (f a) Q) -> Forall P l ->
  triple I (for_each f l) (Forall Q).
Proof.
  intros Hf. induction 1 as [|a l Ha Hl IH]; simpl.
  - apply triple_ret. constructor.
  - eapply triple_bind; [apply Hf, Ha|]. intros b Hb.
    eapply triple_bind; [exact IH|]. intros bs Hbs.
    apply triple_ret. constructor; assumption.
Qed.

Lemma triple_getitem {A : Type} (l : list A) (i : Z) (P : A -> Prop) :
  Forall P l -> triple I (getitem l i) P.
Proof.
  intros H. unfold getitem.
  destruct (position l i) as [n|]; [|apply triple_raise].
  destruct (nth_error l n) as [a|] eqn:E; [|apply triple_raise].
  apply triple_ret. rewrite Forall_forall in H. apply H.
  eapply nth_error_In, E.
Qed.

Lemma triple_getitemZ {V : Type} (k : Z) (d : list (Z * V)) :
  triple I (getitemZ k d) any.
Proof.
  unfold getitemZ. destruct (lookupZ k d);
    [apply triple_ret; exact Logic.I | apply triple_raise].
Qed.

Lemma triple_getitemS {V : Type} (k : string) (d : list (string * V)) :
  triple I (getitemS k d) any.
Proof.
  unfold getitemS. destruct (lookup k d);
    [apply triple_ret; exact Logic.I | apply triple_raise].
Qed.

Lemma triple_list_index (l : list task) (t : task) :
  triple I (list_index l t) any.
Proof.
  unfold list_index. destruct (index_from 0 t l);
    [apply triple_ret; exact Logic.I | apply triple_raise].
Qed.

Lemma triple_any {A : Type} (m : M A) (Q : A -> Prop) :
  triple I m Q -> triple I m any.
Proof. apply triple_weaken. intros; exact Logic.I. Qed.
End Triples.

(** One step of a proof that a command keeps an invariant. *)
Ltac triple_step :=
  match goal with
  | |- triple _ (ret _) _ => apply triple_ret; try exact Logic.I
  | |- triple _ (raise _) _ => apply triple_raise
  | |- triple _ (print _) _ => apply triple_print; assumption
  | |- triple _ (print_all _) _ => apply triple_print_all; assumption
  | |- triple _ (now _) _ => apply triple_now; assumption
  | |- triple _ (getitemZ _ _) _ => apply triple_getitemZ
  | |- triple _ (getitemS _ _) _ => apply triple_getitemS
  | |- triple _ (list_index _ _) _ => apply triple_list_index
  | |- triple _ (unless_none ?c _) _ => destruct c; simpl
  | |- triple _ (bind _ _) _ => eapply triple_bind; [|intros]
  | |- triple _ (if ?b then _ else _) _ => destruct b eqn:?
  | |- triple _ (match ?x with _ => _ end) _ => destruct x eqn:?
  | |- triple _ (let '(_, _) := ?x in _) _ => destruct x eqn:?
  end.

(** ** Reading never writes *)

Section ReadOnly.
Variable clock : nat -> datetime.
Variable f : file_state.
Variable n : nat.

Lemma untouched_stable : stable (untouched f n).
Proof. intros w o k H. exact H. Qed.

Let U := untouched_stable.

Lemma migrate_untouched (t : task) : triple (untouched f n) (migrate clock t) any.
Proof. unfold migrate. repeat triple_step. Qed.

Lemma load_tasks_untouched : triple (untouched f n) (load_tasks clock) any.
Proof.
  intros w Hw. unfold load_tasks. destruct (file w) as [| |l].
  - refine (triple_ret _ _ _ _ w Hw). exact Logic.I.
  - refine (triple_bind _ _ _ any _ _ _ w Hw);
      [apply triple_print, U | intros; apply triple_ret; exact Logic.I].
  - refine (triple_any _ _ _ _ w Hw).
    apply triple_for_each with (P := any) (Q := any);
      [intros; apply migrate_untouched |].
    apply Forall_forall. intros; exact Logic.I.
Qed.
End ReadOnly.

Section ReadOnlyCommands.
Variable clock : nat -> datetime.
Variable f : file_state.
Variable n : nat.

Let U := untouched_stable f n.
Let L := load_tasks_untouched clock f n.

Lemma render_grouped_untouched (all l : list task) (show_created : bool) :
  forall current,
    triple (untouched f n) (render_grouped all show_created current l) any.
Proof.
  induction l as [|t l IH]; intros current; simpl.
  - triple_step.
  - eapply triple_bind with (Q := any).
    + destruct (negb _); repeat triple_step.
    + intros. repeat triple_step. apply IH.
Qed.

Lemma render_flat_untouched (all l : list task) (show_created : bool) :
  triple (untouched f n) (render_flat all show_created l) any.
Proof.
  induction l as [|t l IH]; simpl.
  - triple_step.
  - repeat triple_step. apply IH.
Qed.

Lemma list_tasks_untouched ft fp sort_by show_done show_created :
  triple (untouched f n)
         (list_tasks clock ft fp sort_by show_done show_created) any.
Proof.
  unfold list_tasks.
  eapply triple_bind; [exact L | intros loaded _].
  destruct (negb (nonempty loaded)); [triple_step|].
  repeat match goal with
         | |- triple _ (let '(_, _) := ?x in _) _ => destruct x
         end.
  destruct (negb (nonempty _)); [repeat triple_step|].
  eapply triple_bind with (Q := any); [destruct show_done; triple_step|].
  intros _ _.
  destruct (_ && _);
    [apply render_grouped_untouched | apply render_flat_untouched].
Qed.

Lemma count_priorities_untouched (tasks : list task) :
  forall counts, triple (untouched f n) (count_priorities tasks counts) any.
Proof.
  induction tasks as [|t tasks IH]; intros counts; simpl.
  - triple_step.
  - destruct (negb (done t)); [|apply triple_any with (Q := any), IH].
    eapply triple_bind; [apply triple_getitemZ | intros; apply IH].
Qed.

Lemma print_priority_counts_untouched (names : list string) counts :
  triple (untouched f n) (print_priority_counts names counts) any.
Proof.
  induction names as [|x names IH]; simpl.
  - triple_step.
  - destruct (lookup x counts); [|exact IH].
    repeat triple_step. exact IH.
Qed.

Lemma show_stats_untouched : triple (untouched f n) (show_stats clock) any.
Proof.
  unfold show_stats.
  eapply triple_bind; [exact L | intros tasks _].
  destruct (negb (nonempty tasks)); [repeat triple_step|].
  do 6 (eapply triple_bind with (Q := any); [triple_step | intros _ _]).
  destruct (_ && _); [triple_step|].
  eapply triple_bind with (Q := any).
  - destruct (0 <? _)%nat; [|triple_step].
    eapply triple_bind;
      [apply count_priorities_untouched | intros counts _].
    destruct (nonempty counts); [|triple_step].
    eapply triple_bind with (Q := any); [triple_step | intros _ _].
    apply print_priority_counts_untouched.
  - intros _ _.
    eapply triple_bind with (Q := any); [|intros; triple_step].
    destruct (nonempty _); repeat triple_step.
Qed.
End ReadOnlyCommands.

(** * The invariant of the store *)

Lemma task_ok_set_desc (d : string) (t : task) :
  blank d = false -> task_ok t -> task_ok (set_desc d t).
Proof. intros Hd (_ & Hp & Ht). repeat split; assumption || apply Hp. Qed.

Lemma task_ok_set_done (b : bool) (t : task) :
  task_ok t -> task_ok (set_done b t).
Proof. intros H. exact H. Qed.

Lemma task_ok_set_priority (p : Z) (t : task) :
  1 <= p <= 4 -> task_ok t -> task_ok (set_priority p t).
Proof. intros Hp (Hd & _ & Ht). repeat split; assumption || apply Hp. Qed.

Lemma task_ok_set_tags (l : list string) (t : task) :
  Forall no_hash l -> task_ok t -> task_ok (set_tags l t).
Proof. intros Hl (Hd & Hp & _). repeat split; assumption || apply Hp. Qed.

Lemma task_ok_set_created (c : string) (t : task) :
  task_ok t -> task_ok (set_created c t).
Proof. intros H. exact H. Qed.

Lemma Forall_update_at {A : Type} (P : A -> Prop) (f : A -> A) (l : list A) :
  forall n, Forall P l -> (forall a, P a -> P (f a)) ->
            Forall P (update_at n f l).
Proof.
  induction l as [|a l IH]; intros n H Hf; [destruct n; constructor|].
  inversion H; subst. destruct n; simpl; constructor; auto.
Qed.

Lemma Forall_remove_at {A : Type} (P : A -> Prop) (l : list A) :
  forall n, Forall P l -> Forall P (remove_at n l).
Proof.
  induction l as [|a l IH]; intros n H; [destruct n; constructor|].
  inversion H; subst. destruct n; simpl; [assumption | constructor; auto].
Qed.

Lemma Forall_filter_keep {A : Type} (P : A -> Prop) (p : A -> bool)
  (l : list A) : Forall P l -> Forall P (filter p l).
Proof.
  induction 1 as [|a l Ha Hl IH]; simpl; [constructor|].
  destruct (p a); [constructor|]; assumption.
Qed.

Section Invariant.
Variable clock : nat -> datetime.

Lemma kept_stable : stable kept.
Proof. intros w o n H. exact H. Qed.

Let K := kept_stable.

Lemma migrate_kept (t : task) :
  task_ok t -> triple kept (migrate clock t) task_ok.
Proof.
  intros Ht. unfold migrate.
  set (t1 := match priority t with
             | Some _ => t
             | None => set_priority 2 t
             end).
  assert (task_ok t1) as H1.
  { unfold t1. destruct (priority t);
      [exact Ht | apply task_ok_set_priority; [lia | exact Ht]]. }
  set (t2 := match tags t1 with
             | Some _ => t1
             | None => set_tags [] t1
             end).
  assert (task_ok t2) as H2.
  { unfold t2. destruct (tags t1);
      [exact H1 | apply task_ok_set_tags; [constructor | exact H1]]. }
  destruct (created t2).
  - apply triple_ret, H2.
  - eapply triple_bind; [apply triple_now, K|].
    intros d _. apply triple_ret, task_ok_set_created, H2.
Qed.

Lemma load_tasks_kept : triple kept (load_tasks clock) (Forall task_ok).
Proof.
  intros w Hw. unfold load_tasks.
  pose proof Hw as Hl. unfold kept, store_ok in Hl.
  destruct (file w) as [| |l]; simpl in Hl.
  - refine (triple_ret _ _ _ _ w Hw). constructor.
  - refine (triple_bind _ _ _ any _ _ _ w Hw);
      [apply triple_print, K | intros; apply triple_ret; constructor].
  - refine (triple_for_each _ _ _ _ _ _ Hl w Hw).
    apply migrate_kept.
Qed.

Lemma save_tasks_kept (l : list task) :
  Forall task_ok l -> triple kept (save_tasks l) any.
Proof. intros H w _. split; [exact H | intros; exact Logic.I]. Qed.

Lemma add_task_kept d p tg : tags_ok tg -> triple kept (add_task clock d p tg) any.
Proof.
  intros Htg. unfold add_task.
  destruct (parse_tags_and_priority d) as [[[parsed itags] ip] ms] eqn:E.
  eapply triple_bind; [apply triple_print_all, K | intros _ _].
  destruct parsed as [cd|]; [|triple_step].
  destruct (parse_some _ _ _ _ _ E) as (Hb & _ & Hp & Hi & _).
  eapply triple_bind; [apply load_tasks_kept | intros tasks Htasks].
  eapply triple_bind; [apply triple_now, K | intros t _].
  eapply triple_bind.
  - apply save_tasks_kept. apply Forall_app. split; [exact Htasks|].
    constructor; [|constructor]. split; [exact Hb|]. split.
    + unfold get_priority. cbn [priority].
      destruct p as [x|]; [|exact Hp].
      destruct (truthy (Some x)); [|exact Hp].
      destruct (lookup (lower x) PRIORITIES) as [lv|] eqn:El;
        [exact (PRIORITIES_range _ _ El) | exact Hp].
    + unfold get_tags. cbn [tags]. destruct tg as [l|]; [|exact Hi].
      destruct (nonempty l); [exact Htg | exact Hi].
  - intros _ _. repeat triple_step.
Qed.

Lemma mark_done_kept i : triple kept (mark_done clock i) any.
Proof.
  unfold mark_done.
  eapply triple_bind; [apply load_tasks_kept | intros tasks Htasks].
  destruct (negb _); [repeat triple_step|].
  eapply triple_bind; [apply triple_getitem, Htasks | intros t Ht].
  destruct (done t); [repeat triple_step|].
  eapply triple_bind.
  - apply save_tasks_kept, Forall_update_at; [exact Htasks|].
    intros a Ha. apply task_ok_set_done, Ha.
  - intros _ _. eapply triple_bind with (Q := any);
      [eapply triple_any, triple_getitem with (P := any), Forall_forall;
       intros; exact Logic.I |].
    intros. repeat triple_step.
Qed.

Lemma mark_undone_kept i : triple kept (mark_undone clock i) any.
Proof.
  unfold mark_undone.
  eapply triple_bind; [apply load_tasks_kept | intros tasks Htasks].
  destruct (negb (in_range _ _)); [repeat triple_step|].
  eapply triple_bind; [apply triple_getitem, Htasks | intros t Ht].
  destruct (negb (done t)); [repeat triple_step|].
  eapply triple_bind.
  - apply save_tasks_kept, Forall_update_at; [exact Htasks|].
    intros a Ha. apply task_ok_set_done, Ha.
  - intros _ _. eapply triple_bind with (Q := any);
      [eapply triple_any, triple_getitem with (P := any), Forall_forall;
       intros; exact Logic.I |].
    intros. repeat triple_step.
Qed.

Lemma delete_task_kept i : triple kept (delete_task clock i) any.
Proof.
  unfold delete_task.
  eapply triple_bind; [apply load_tasks_kept | intros tasks Htasks].
  destruct (negb _); [repeat triple_step|].
  eapply triple_bind; [apply triple_getitem, Htasks | intros t Ht].
  eapply triple_bind; [apply save_tasks_kept, Forall_remove_at, Htasks|].
  intros. repeat triple_step.
Qed.

Lemma clear_done_kept : triple kept (clear_done clock) any.
Proof.
  unfold clear_done.
  eapply triple_bind; [apply load_tasks_kept | intros tasks Htasks].
  destruct (negb _); [repeat triple_step|].
  eapply triple_bind; [apply save_tasks_kept, Forall_filter_keep, Htasks|].
  intros. repeat triple_step.
Qed.

Lemma update_desc_kept t d p tg :
  task_ok t -> triple kept (update_desc t d p tg) changed_ok.
Proof.
  intros Ht. unfold update_desc.
  destruct (parse_tags_and_priority d) as [[[parsed itags] ip] ms] eqn:E.
  eapply triple_bind; [apply triple_print_all, K | intros _ _].
  destruct parsed as [cd|]; [|apply triple_ret; exact Logic.I].
  destruct (parse_some _ _ _ _ _ E) as (Hb & _ & Hp & Hi & _).
  pose proof (task_ok_set_desc cd t Hb Ht) as H1.
  eapply triple_bind with (Q := fun tc => task_ok (fst tc)).
  - destruct (_ && _); [|apply triple_ret; exact H1].
    eapply triple_bind; [apply triple_getitemZ | intros n _].
    apply triple_ret. simpl. apply task_ok_set_priority; assumption.
  - intros [t' changes] H2. simpl in H2.
    destruct tg; [apply triple_ret; exact H2|].
    destruct (negb _); apply triple_ret; simpl;
      [apply task_ok_set_tags; assumption | exact H2].
Qed.

Lemma update_task_kept i d p tg :
  tags_ok tg -> triple kept (update_task clock i d p tg) any.
Proof.
  intros Htg. unfold update_task.
  eapply triple_bind; [apply load_tasks_kept | intros tasks Htasks].
  destruct (negb _); [repeat triple_step|].
  eapply triple_bind; [apply triple_getitem, Htasks | intros t Ht].
  eapply triple_bind with (Q := changed_ok).
  - destruct d as [d|]; [|apply triple_ret; exact Ht].
    destruct (truthy (Some d));
      [apply update_desc_kept, Ht | apply triple_ret; exact Ht].
  - intros [[t1 c1]|] H1; [simpl in H1 | triple_step].
    set (r2 := match p with Some _ => _ | None => _ end).
    assert (task_ok (fst r2)) as H2.
    { unfold r2. destruct p as [x|]; [|exact H1].
      destruct (truthy (Some x)); [|exact H1].
      destruct (lookup (lower x) PRIORITIES) as [lv|] eqn:El; [|exact H1].
      destruct (_ && _); [|exact H1].
      simpl. apply task_ok_set_priority;
        [exact (PRIORITIES_range _ _ El) | exact H1]. }
    destruct r2 as [t2 c2]. simpl in H2.
    set (r3 := match tg with Some _ => _ | None => _ end).
    assert (task_ok (fst r3)) as H3.
    { unfold r3. destruct tg as [l|]; [|exact H2].
      destruct (negb _); [|exact H2].
      simpl. apply task_ok_set_tags; assumption. }
    destruct r3 as [t3 c3]. simpl in H3.
    destruct (negb _); [repeat triple_step|].
    eapply triple_bind.
    + apply save_tasks_kept, Forall_update_at; [exact Htasks|].
      intros; exact H3.
    + intros. repeat triple_step.
Qed.
End Invariant.

(** * What the operations compute *)

Lemma world_eta (w : world) :
  mkWorld (file w) (saves w) (out w) (ticks w) = w.
Proof. destruct w; reflexivity. Qed.

Lemma print_all_run (ms : list message) (w : world) :
  print_all ms w = (Ok tt, mkWorld (file w) (saves w) (out w ++ ms) (ticks w)).
Proof.
  revert w. induction ms as [|m ms IH]; intros w; simpl.
  - unfold ret. rewrite app_nil_r, world_eta. reflexivity.
  - unfold bind, print. rewrite IH. simpl. rewrite <- app_assoc. reflexivity.
Qed.

Lemma Forall2_length_eq {A B : Type} (R : A -> B -> Prop) l l' :
  Forall2 R l l' -> List.length l' = List.length l.
Proof. induction 1; simpl; congruence. Qed.

Lemma Forall2_nth {A B : Type} (R : A -> B -> Prop) l l' :
  Forall2 R l l' ->
  forall j a b, nth_error l j = Some a -> nth_error l' j = Some b -> R a b.
Proof.
  induction 1 as [|x y l l' Hxy H IH]; intros j a b Ha Hb.
  - destruct j; discriminate.
  - destruct j; simpl in *; [inversion Ha; inversion Hb; subst; exact Hxy|].
    eapply IH; eassumption.
Qed.

Section Runs.
Variable clock : nat -> datetime.

Lemma migrate_run (t : task) (w : world) :
  exists t' n,
    migrate clock t w = (Ok t', mkWorld (file w) (saves w) (out w) n)
    /\ filled t t'.
Proof.
  unfold migrate, filled, get_priority, get_tags.
  destruct t as [d b [p|] [tg|] [c|]]; simpl;
    unfold ret, bind, now; simpl;
    eexists; eexists;
    (split; [first [reflexivity | rewrite world_eta; reflexivity]|]);
    simpl; repeat split; eauto; intros; discriminate.
Qed.

Lemma for_each_migrate_run (l : list task) : forall w,
  exists l' n,
    for_each (migrate clock) l w
    = (Ok l', mkWorld (file w) (saves w) (out w) n)
    /\ Forall2 filled l l'.
Proof.
  induction l as [|t l IH]; intros w; simpl.
  - exists [], (ticks w). unfold ret. rewrite world_eta.
    split; [reflexivity | constructor].
  - destruct (migrate_run t w) as (t' & n & E & Ht).
    unfold bind at 1. rewrite E.
    destruct (IH (mkWorld (file w) (saves w) (out w) n))
      as (l' & n' & E' & Hl).
    unfold bind. rewrite E'. simpl.
    exists (t' :: l'), n'. split; [reflexivity | constructor; assumption].
Qed.

(** [load_tasks] always returns: the tasks of the file, filled in; it
    prints the read error, if any, and leaves the file alone. *)
Lemma load_tasks_run (w : world) :
  exists l n,
    load_tasks clock w
    = (Ok l, mkWorld (file w) (saves w) (out w ++ read_error (file w)) n)
    /\ Forall2 filled (stored (file w)) l.
Proof.
  unfold load_tasks. destruct (file w) as [| |l0] eqn:E; simpl.
  - exists [], (ticks w). unfold ret. rewrite app_nil_r, <- E, world_eta.
    split; [reflexivity | constructor].
  - exists [], (ticks w). unfold bind, print, ret. rewrite E.
    split; [reflexivity | constructor].
  - destruct (for_each_migrate_run l0 w) as (l & n & El & Hl).
    exists l, n. rewrite El, app_nil_r, E. split; [reflexivity | exact Hl].
Qed.

Lemma in_range_iff (i : Z) (l : list task) :
  in_range i l = true <-> 1 <= i <= Z.of_nat (List.length l).
Proof. unfold in_range. rewrite andb_true_iff, !Z.leb_le. tauto. Qed.

Lemma getitem_run {A : Type} (l : list A) (i : Z) (w : world) :
  1 <= i <= Z.of_nat (List.length l) ->
  exists a,
    getitem l (i - 1) w = (Ok a, w)
    /\ nth_error l (Z.to_nat (i - 1)) = Some a.
Proof.
  intros H. unfold getitem, position.
  assert ((0 <=? i - 1) && (i - 1 <? Z.of_nat (List.length l)) = true) as ->.
  { apply andb_true_iff. split; [apply Z.leb_le | apply Z.ltb_lt]; lia. }
  destruct (nth_error l (Z.to_nat (i - 1))) as [a|] eqn:E.
  - exists a. split; reflexivity.
  - apply nth_error_None in E. lia.
Qed.
End Runs.

Section Refusals.
Variable clock : nat -> datetime.

Lemma reject_run (w : world) (i : Z) (k : list task -> M bool) :
  ~ (1 <= i <= count w) ->
  refused w
    ((tasks <- load_tasks clock ;;
      if negb (in_range i tasks)
      then print (InvalidTaskNumber (List.length tasks)) ;; ret false
      else k tasks) w).
Proof.
  intros H. destruct (load_tasks_run clock w) as (l & n & El & Hl).
  unfold bind at 1. rewrite El.
  pose proof (Forall2_length_eq _ _ _ Hl) as Hlen.
  assert (in_range i l = false) as ->.
  { destruct (in_range i l) eqn:E; [|reflexivity].
    apply in_range_iff in E. unfold count in H. rewrite Hlen in E. tauto. }
  unfold refused. simpl. rewrite Hlen, <- app_assoc. tauto.
Qed.
End Refusals.

(** C7.  A task number outside [1..N], [N] the number of stored tasks, is
    refused by [mark_done], [mark_undone], [delete_task] and [update_task]:
    each returns [False] after printing the valid range [1-N], and the file
    is neither changed nor written. *)
Theorem index_out_of_range (clock : nat -> datetime) (w : world) (i : Z)
  (d p : option string) (tg : option (list string)) :
  ~ (1 <= i <= count w) ->
  refused w (mark_done clock i w)
  /\ refused w (mark_undone clock i w)
  /\ refused w (delete_task clock i w)
  /\ refused w (update_task clock i d p tg w).
Proof.
  intros H. split; [|split; [|split]]; apply reject_run; exact H.
Qed.

Lemma index_out_of_range_witness :
  ~ (1 <= 5 <= count (fresh (Stored [task_A; task_B])))
  /\ refused (fresh (Stored [task_A; task_B]))
             (delete_task noon 5 (fresh (Stored [task_A; task_B]))).
Proof.
  split.
  - vm_compute. intros [_ H]. apply H. reflexivity.
  - apply (index_out_of_range noon (fresh (Stored [task_A; task_B])) 5
             None None None).
    vm_compute. intros [_ H]. apply H. reflexivity.
Defined.

(** C6, as the claim has it, fails for [update_task] in two ways.  An empty
    string is a description whose parse is empty, yet [update_task] takes
    it for no description at all and goes on to apply, and save, the other
    changes.  And with a task number out of range the description is not
    parsed: the error printed is the valid range, not the original input. *)
Lemma empty_description_update_saves :
  cleaned (parse_tags_and_priority EmptyString) = None
  /\ (exists w',
        update_task noon 1 (Some EmptyString) (Some "high") None
                    (fresh (Stored [task_A]))
        = (Ok true, w')
        /\ file w' = Stored [set_priority 3 task_A]
        /\ saves w' = 1%nat)
  /\ cleaned (parse_tags_and_priority "#tag") = None
  /\ update_task noon 5 (Some "#tag") None None (fresh (Stored [task_A]))
     = (Ok false, mkWorld (Stored [task_A]) 0 [InvalidTaskNumber 1] 0).
Proof.
  split; [reflexivity|]. split.
  - eexists. split; [vm_compute; reflexivity|]. split; reflexivity.
  - split; reflexivity.
Qed.

(** C6, amended.  When the parse of a description is empty, [add_task]
    prints the error with the original input and returns [False] without
    even loading the file; [update_task], for a task number in range and a
    description that is not the empty string, prints the same error and
    returns [False]; in both cases the file is neither changed nor
    written. *)
Theorem empty_description_rejected (clock : nat -> datetime) (w : world)
  (d : string) (tg0 : list string) (p0 : Z) (ms : list message)
  (pr : option string) (tgs : option (list string)) (i : Z) :
  parse_tags_and_priority d = ((None, tg0, p0), ms) ->
  (exists warning, ms = warning ++ [EmptyDescription d])
  /\ add_task clock d pr tgs w
     = (Ok false, mkWorld (file w) (saves w) (out w ++ ms) (ticks w))
  /\ (d <> EmptyString -> 1 <= i <= count w ->
      exists w',
        update_task clock i (Some d) pr tgs w = (Ok false, w')
        /\ file w' = file w
        /\ saves w' = saves w
        /\ out w' = out w ++ ms).
Proof.
  intros E. split; [exact (proj2 (parse_none _ _ _ _ E))|]. split.
  - unfold add_task. rewrite E. unfold bind. rewrite print_all_run.
    reflexivity.
  - intros Hd Hi. unfold update_task.
    destruct (load_tasks_run clock w) as (l & n & El & Hl).
    unfold bind at 1. rewrite El.
    pose proof (Forall2_length_eq _ _ _ Hl) as Hlen.
    assert (1 <= i <= Z.of_nat (List.length l)) as Hi'.
    { unfold count in Hi. rewrite Hlen. exact Hi. }
    rewrite (proj2 (in_range_iff i l) Hi'). cbn [negb].
    destruct (getitem_run l i
                (mkWorld (file w) (saves w)
                         (out w ++ read_error (file w)) n) Hi')
      as (t & Et & _).
    unfold bind at 1. rewrite Et.
    assert (truthy (Some d) = true) as ->.
    { destruct d; [congruence | reflexivity]. }
    unfold update_desc. rewrite E. unfold bind. rewrite print_all_run.
    simpl. eexists. split; [reflexivity|]. simpl.
    assert (read_error (file w) = []) as ->.
    { revert Hi. unfold count. destruct (file w); simpl; intros;
        try reflexivity; lia. }
    rewrite app_nil_r. tauto.
Qed.

Lemma empty_description_rejected_witness :
  parse_tags_and_priority "   #tag   "
  = ((None, [], 2), [EmptyDescription "   #tag   "])
  /\ add_task noon "   #tag   " None None (fresh (Stored [task_A]))
     = (Ok false,
        mkWorld (Stored [task_A]) 0 [EmptyDescription "   #tag   "] 0).
Proof.
  split; [reflexivity|].
  apply (empty_description_rejected noon (fresh (Stored [task_A]))
           "   #tag   " [] 2 [EmptyDescription "   #tag   "] None None 1).
  reflexivity.
Defined.

(** C4, as the claim has it, fails: explicit tags that are an empty list
    count as not given, and the tags of the text are stored. *)
Lemma empty_explicit_tags_ignored :
  exists w' t,
    add_task noon "Buy milk #home" None (Some []) (fresh NoFile)
    = (Ok true, w')
    /\ file w' = Stored [t]
    /\ tags t = Some ["home"]
    /\ tags t <> Some [].
Proof.
  eexists. eexists. split; [vm_compute; reflexivity|].
  split; [reflexivity|]. split; [reflexivity | discriminate].
Qed.

(** C4, amended.  [add_task] appends one task to the loaded tasks; its tags
    are the explicit tags when these are given and not empty, and the tags
    parsed from the text when the explicit tags are absent or empty. *)
Theorem add_task_tags (clock : nat -> datetime) (w : world)
  (d cd : string) (inline_tags : list string) (inline_priority : Z)
  (ms : list message) (pr : option string) (tgs : option (list string)) :
  parse_tags_and_priority d = ((Some cd, inline_tags, inline_priority), ms) ->
  exists w' l t,
    add_task clock d pr tgs w = (Ok true, w')
    /\ file w' = Stored (l ++ [t])
    /\ Forall2 filled (stored (file w)) l
    /\ desc t = cd
    /\ done t = false
    /\ tags t = Some (match tgs with
                      | Some (x :: r) => x :: r
                      | Some [] | None => inline_tags
                      end).
Proof.
  intros E. unfold add_task. rewrite E.
  destruct (parse_some _ _ _ _ _ E) as (_ & _ & Hp & _ & _).
  unfold bind at 1. rewrite print_all_run.
  destruct (load_tasks_run clock
              (mkWorld (file w) (saves w) (out w ++ ms) (ticks w)))
    as (l & n & El & Hl).
  unfold bind at 1. rewrite El. simpl in Hl. cbv zeta.
  set (fp := match match pr with
                   | Some p => if truthy pr then Some (lower p) else None
                   | None => None
                   end with
             | Some k => match lookup k PRIORITIES with
                         | Some p => p
                         | None => inline_priority
                         end
             | None => inline_priority
             end).
  assert (1 <= fp <= 4) as Hfp.
  { unfold fp. destruct pr as [x|]; [|exact Hp].
    destruct (truthy (Some x)); [|exact Hp].
    destruct (lookup (lower x) PRIORITIES) as [lv|] eqn:Elv;
      [exact (PRIORITIES_range _ _ Elv) | exact Hp]. }
  destruct (PRIORITY_NAMES_total fp Hfp) as (name & En).
  unfold bind, now, save_tasks, getitemZ. rewrite En.
  unfold print, ret. cbn [file saves out ticks].
  eexists. eexists. eexists. split; [reflexivity|].
  split; [reflexivity|]. split; [exact Hl|].
  split; [reflexivity|]. split; [reflexivity|].
  simpl. destruct tgs as [[|x r]|]; reflexivity.
Qed.

Lemma add_task_tags_witness :
  parse_tags_and_priority "Fix bug @urgent #backend"
  = ((Some "Fix bug", ["backend"], 4), [])
  /\ exists w' l t,
       add_task noon "Fix bug @urgent #backend" None (Some ["ops"])
                (fresh NoFile)
       = (Ok true, w')
       /\ file w' = Stored (l ++ [t])
       /\ Forall2 filled (stored (file (fresh NoFile))) l
       /\ desc t = "Fix bug"
       /\ done t = false
       /\ tags t = Some ["ops"].
Proof.
  split; [reflexivity|].
  apply (add_task_tags noon (fresh NoFile) "Fix bug @urgent #backend"
           "Fix bug" ["backend"] 4 [] None (Some ["ops"])).
  reflexivity.
Defined.

(** * Completing and reopening *)

Lemma length_update_at {A : Type} (f : A -> A) (l : list A) :
  forall n, List.length (update_at n f l) = List.length l.
Proof.
  induction l as [|a l IH]; intros [|n]; simpl; try reflexivity.
  rewrite IH. reflexivity.
Qed.

Lemma nth_error_update_at {A : Type} (f : A -> A) (l : list A) :
  forall n j,
    nth_error (update_at n f l) j
    = if Nat.eqb j n then option_map f (nth_error l j) else nth_error l j.
Proof.
  induction l as [|a l IH]; intros [|n] [|j]; simpl; try reflexivity.
  - destruct (Nat.eqb j n); reflexivity.
  - apply IH.
Qed.

Lemma filled_same (t t' : task) : filled t t' -> same_but_done (done t) t t'.
Proof.
  intros (Hd & Hb & Hp & Ht & _ & Hc). unfold same_but_done, get_priority,
    get_tags in *. rewrite Hp, Ht. tauto.
Qed.

Lemma same_set_done (b0 b : bool) (t t' : task) :
  same_but_done b0 t t' -> same_but_done b t (set_done b t').
Proof. intros (Hd & Hp & Ht & Hc & _). repeat split; assumption. Qed.

Lemma same_trans (b1 b2 : bool) (t t1 t2 : task) :
  same_but_done b1 t t1 -> same_but_done b2 t1 t2 -> same_but_done b2 t t2.
Proof.
  intros (Hd & Hp & Ht & Hc & _) (Hd' & Hp' & Ht' & Hc' & Hb').
  repeat split; try congruence. intros c E. apply Hc', Hc, E.
Qed.

Lemma marked_trans (i : Z) (b1 b2 : bool) (l l1 l2 : list task) :
  marked i b1 l l1 -> marked i b2 l1 l2 -> marked i b2 l l2.
Proof.
  intros [Hlen1 H1] [Hlen2 H2]. split; [congruence|].
  intros j t t2 Ej Ej2.
  destruct (nth_error l1 j) as [t1|] eqn:Ej1.
  - pose proof (H1 j t t1 Ej Ej1) as S1.
    pose proof (H2 j t1 t2 Ej1 Ej2) as S2.
    destruct (Z.of_nat j =? i - 1).
    + exact (same_trans _ _ _ _ _ S1 S2).
    + destruct S1 as (_ & _ & _ & _ & Hb1). rewrite Hb1 in S2.
      refine (same_trans _ _ _ _ _ _ S2).
      destruct (H1 j t t1 Ej Ej1) as (? & ? & ? & ? & ?).
      repeat split; assumption.
  - apply nth_error_None in Ej1.
    assert (nth_error l j <> None) as Hn by congruence.
    apply nth_error_Some in Hn. lia.
Qed.

Lemma index_eqb (i : Z) (j : nat) :
  1 <= i -> Nat.eqb j (Z.to_nat (i - 1)) = (Z.of_nat j =? i - 1).
Proof.
  intros H. destruct (Nat.eqb_spec j (Z.to_nat (i - 1)));
    destruct (Z.eqb_spec (Z.of_nat j) (i - 1)); try reflexivity; lia.
Qed.

Section Marking.
Variable clock : nat -> datetime.

(** What [mark_done] and [mark_undone] leave in the file, [b] being the
    value they set: the file as it was when the task has that value
    already, and the loaded tasks with the value set otherwise. *)
Lemma set_done_run (b : bool) (w : world) (i : Z) (l : list task)
  (t : task) :
  1 <= i <= count w ->
  Forall2 filled (stored (file w)) l ->
  nth_error l (Z.to_nat (i - 1)) = Some t ->
  (done t = b -> marked i b (stored (file w)) (stored (file w)))
  /\ marked i b (stored (file w))
            (update_at (Z.to_nat (i - 1)) (set_done b) l).
Proof.
  intros Hi Hl Et. pose proof (Forall2_length_eq _ _ _ Hl) as Hlen. split.
  - intros Hb. split; [reflexivity|]. intros j t0 t0' E0 E0'.
    assert (t0' = t0) as -> by congruence.
    destruct (Z.eqb_spec (Z.of_nat j) (i - 1)) as [Ej|Ej].
    + assert (j = Z.to_nat (i - 1)) as -> by lia.
      pose proof (Forall2_nth _ _ _ Hl _ _ _ E0 Et) as Hf.
      destruct (filled_same _ _ Hf) as (_ & _ & _ & Hc & Hd).
      repeat split; try reflexivity; [auto | congruence].
    + repeat split; auto.
  - split; [rewrite length_update_at; exact Hlen|].
    intros j t0 t' E0 E'. rewrite nth_error_update_at in E'.
    rewrite (index_eqb i j) in E' by lia.
    destruct (nth_error l j) as [tl|] eqn:El;
      [|destruct (Z.of_nat j =? i - 1); discriminate].
    pose proof (filled_same _ _ (Forall2_nth _ _ _ Hl _ _ _ E0 El)) as Hs.
    destruct (Z.of_nat j =? i - 1); simpl in E'; inversion E'; subst.
    + exact (same_set_done _ _ _ _ Hs).
    + exact Hs.
Qed.

Lemma stored_file (w : world) :
  1 <= count w -> file w = Stored (stored (file w)).
Proof.
  unfold count. destruct (file w); simpl; intros; try lia. reflexivity.
Qed.

Lemma mark_done_run (w : world) (i : Z) :
  1 <= i <= count w ->
  exists w' l',
    mark_done clock i w = (Ok true, w')
    /\ file w' = Stored l'
    /\ marked i true (stored (file w)) l'.
Proof.
  intros Hi. unfold mark_done.
  destruct (load_tasks_run clock w) as (l & n & El & Hl).
  unfold bind at 1. rewrite El.
  pose proof (Forall2_length_eq _ _ _ Hl) as Hlen.
  assert (1 <= i <= Z.of_nat (List.length l)) as Hi'.
  { unfold count in Hi. rewrite Hlen. exact Hi. }
  rewrite (proj2 (in_range_iff i l) Hi'). cbn [negb].
  unfold bind at 1.
  match goal with |- context [getitem l (i - 1) ?w1] =>
    destruct (getitem_run l i w1 Hi') as (t & Et & En) end.
  rewrite Et.
  destruct (set_done_run true w i l t Hi Hl En) as [Hsame Hset].
  destruct (done t) eqn:Ed.
  - eexists. exists (stored (file w)). split; [reflexivity|].
    split; [simpl; apply stored_file; lia | exact (Hsame eq_refl)].
  - unfold bind at 1. unfold save_tasks at 1.
    set (l1 := update_at (Z.to_nat (i - 1)) (set_done true) l).
    assert (1 <= i <= Z.of_nat (List.length l1)) as Hi1.
    { unfold l1. rewrite length_update_at. exact Hi'. }
    unfold bind at 1.
    match goal with |- context [getitem l1 (i - 1) ?w1] =>
      destruct (getitem_run l1 i w1 Hi1) as (t1 & Et1 & _) end.
    rewrite Et1.
    eexists. exists l1. split; [reflexivity|].
    split; [reflexivity | exact Hset].
Qed.

Lemma mark_undone_run (w : world) (i : Z) :
  1 <= i <= count w ->
  exists w' l',
    mark_undone clock i w = (Ok true, w')
    /\ file w' = Stored l'
    /\ marked i false (stored (file w)) l'.
Proof.
  intros Hi. unfold mark_undone.
  destruct (load_tasks_run clock w) as (l & n & El & Hl).
  unfold bind at 1. rewrite El.
  pose proof (Forall2_length_eq _ _ _ Hl) as Hlen.
  assert (1 <= i <= Z.of_nat (List.length l)) as Hi'.
  { unfold count in Hi. rewrite Hlen. exact Hi. }
  rewrite (proj2 (in_range_iff i l) Hi'). cbn [negb].
  unfold bind at 1.
  match goal with |- context [getitem l (i - 1) ?w1] =>
    destruct (getitem_run l i w1 Hi') as (t & Et & En) end.
  rewrite Et.
  destruct (set_done_run false w i l t Hi Hl En) as [Hsame Hset].
  destruct (done t) eqn:Ed; cbn [negb].
  - unfold bind at 1. unfold save_tasks at 1.
    set (l1 := update_at (Z.to_nat (i - 1)) (set_done false) l).
    assert (1 <= i <= Z.of_nat (List.length l1)) as Hi1.
    { unfold l1. rewrite length_update_at. exact Hi'. }
    unfold bind at 1.
    match goal with |- context [getitem l1 (i - 1) ?w1] =>
      destruct (getitem_run l1 i w1 Hi1) as (t1 & Et1 & _) end.
    rewrite Et1.
    eexists. exists l1. split; [reflexivity|].
    split; [reflexivity | exact Hset].
  - eexists. exists (stored (file w)). split; [reflexivity|].
    split; [simpl; apply stored_file; lia | exact (Hsame eq_refl)].
Qed.
End Marking.

(** C2, as the claim has it, fails: on a task that is already completed
    [mark_done] does nothing and [mark_undone] then reopens it, so the
    original value of [done] is not restored. *)
Lemma done_undone_not_restored :
  exists w',
    (mark_done noon 1 ;; mark_undone noon 1)
      (fresh (Stored [set_done true task_A]))
    = (Ok true, w')
    /\ map done (stored (file w')) = [false]
    /\ map done (stored (file (fresh (Stored [set_done true task_A]))))
       = [true].
Proof.
  eexists. split; [vm_compute; reflexivity|]. split; reflexivity.
Qed.

(** C2, amended.  For a task number in range, [mark_done] then
    [mark_undone] leaves that task pending and [mark_undone] then
    [mark_done] leaves it completed, whatever it was before (the original
    value is back only when the first of the two changed it); no other
    field of any task changes, and [done] of no other task. *)
Theorem done_then_undone (clock : nat -> datetime) (w : world) (i : Z) :
  1 <= i <= count w ->
  (exists w' l',
     (mark_done clock i ;; mark_undone clock i) w = (Ok true, w')
     /\ file w' = Stored l'
     /\ marked i false (stored (file w)) l')
  /\ (exists w' l',
        (mark_undone clock i ;; mark_done clock i) w = (Ok true, w')
        /\ file w' = Stored l'
        /\ marked i true (stored (file w)) l').
Proof.
  intros Hi. split.
  - destruct (mark_done_run clock w i Hi) as (w1 & l1 & E1 & F1 & M1).
    assert (1 <= i <= count w1) as Hi1.
    { unfold count. rewrite F1. simpl. destruct M1 as [-> _]. exact Hi. }
    destruct (mark_undone_run clock w1 i Hi1) as (w2 & l2 & E2 & F2 & M2).
    exists w2, l2. unfold bind. rewrite E1, E2.
    split; [reflexivity|]. split; [exact F2|].
    rewrite F1 in M2. exact (marked_trans _ _ _ _ _ _ M1 M2).
  - destruct (mark_undone_run clock w i Hi) as (w1 & l1 & E1 & F1 & M1).
    assert (1 <= i <= count w1) as Hi1.
    { unfold count. rewrite F1. simpl. destruct M1 as [-> _]. exact Hi. }
    destruct (mark_done_run clock w1 i Hi1) as (w2 & l2 & E2 & F2 & M2).
    exists w2, l2. unfold bind. rewrite E1, E2.
    split; [reflexivity|]. split; [exact F2|].
    rewrite F1 in M2. exact (marked_trans _ _ _ _ _ _ M1 M2).
Qed.

Lemma done_then_undone_witness :
  1 <= 2 <= count (fresh (Stored [task_A; task_B]))
  /\ exists w' l',
       (mark_done noon 2 ;; mark_undone noon 2)
         (fresh (Stored [task_A; task_B]))
       = (Ok true, w')
       /\ file w' = Stored l'
       /\ marked 2 false (stored (file (fresh (Stored [task_A; task_B])))) l'.
Proof.
  split; [vm_compute; split; discriminate|].
  apply (done_then_undone noon (fresh (Stored [task_A; task_B])) 2).
  vm_compute. split; discriminate.
Defined.

(** C1, as the claim has it, fails: tags given explicitly do not pass
    through the parser and are stored as they are, [#] included. *)
Lemma explicit_tag_keeps_hash :
  store_ok (file (fresh NoFile))
  /\ exists w',
       add_task noon "Call Bob" None (Some ["#phone"]) (fresh NoFile)
       = (Ok true, w')
       /\ ~ store_ok (file w').
Proof.
  split; [constructor|]. eexists. split; [vm_compute; reflexivity|].
  intros H. inversion H as [|t l (_ & _ & Ht) _]; subst.
  inversion Ht as [|tag l' Htag _]; subst. discriminate Htag.
Qed.

(** C1, amended.  If every stored task has a description that is not blank,
    a priority in [1..4] and tags without [#], then so has every task
    stored after [add_task], [update_task], [mark_done], [mark_undone],
    [delete_task] and [clear_done], and every task [load_tasks] returns,
    provided the tags passed explicitly to [add_task] and [update_task]
    hold no [#] (tags parsed from the text never do). *)
Theorem invariant_kept (clock : nat -> datetime) (w : world) :
  store_ok (file w) ->
  (forall d p tg, tags_ok tg ->
                  store_ok (file (snd (add_task clock d p tg w))))
  /\ (forall i d p tg, tags_ok tg ->
                       store_ok (file (snd (update_task clock i d p tg w))))
  /\ (forall i, store_ok (file (snd (mark_done clock i w))))
  /\ (forall i, store_ok (file (snd (mark_undone clock i w))))
  /\ (forall i, store_ok (file (snd (delete_task clock i w))))
  /\ store_ok (file (snd (clear_done clock w)))
  /\ (exists l, fst (load_tasks clock w) = Ok l /\ Forall task_ok l).
Proof.
  intros H.
  split; [intros d p tg Htg; exact (proj1 (add_task_kept clock d p tg Htg w H))|].
  split; [intros i d p tg Htg;
          exact (proj1 (update_task_kept clock i d p tg Htg w H))|].
  split; [intros i; exact (proj1 (mark_done_kept clock i w H))|].
  split; [intros i; exact (proj1 (mark_undone_kept clock i w H))|].
  split; [intros i; exact (proj1 (delete_task_kept clock i w H))|].
  split; [exact (proj1 (clear_done_kept clock w H))|].
  destruct (load_tasks_run clock w) as (l & n & El & _).
  exists l. rewrite El. split; [reflexivity|].
  apply (proj2 (load_tasks_kept clock w H)). rewrite El. reflexivity.
Qed.

Lemma task_A_ok : task_ok task_A.
Proof.
  split; [reflexivity|]. split; [vm_compute; split; discriminate|].
  constructor.
Qed.

Lemma invariant_kept_witness :
  store_ok (file (fresh (Stored [task_A])))
  /\ store_ok
       (file (snd (add_task noon "Fix bug @urgent #backend" None
                            (Some ["ops"]) (fresh (Stored [task_A]))))).
Proof.
  assert (store_ok (file (fresh (Stored [task_A])))) as H.
  { constructor; [exact task_A_ok | constructor]. }
  split; [exact H|].
  apply (proj1 (invariant_kept noon (fresh (Stored [task_A])) H)).
  simpl. constructor; [reflexivity | constructor].
Defined.

(** C10.  [list_tasks], with any filters and options, and [show_stats]
    never write: after either, the file holds what it held and the number
    of writes is the same, whether the command returns or raises. *)
Theorem listing_and_stats_read_only (clock : nat -> datetime) (w : world)
  (filter_tags : option (list string)) (filter_priority : option string)
  (sort_by : string) (show_done show_created : bool) :
  file (snd (list_tasks clock filter_tags filter_priority sort_by
                        show_done show_created w)) = file w
  /\ saves (snd (list_tasks clock filter_tags filter_priority sort_by
                            show_done show_created w)) = saves w
  /\ file (snd (show_stats clock w)) = file w
  /\ saves (snd (show_stats clock w)) = saves w.
Proof.
  assert (untouched (file w) (saves w) w) as H by (split; reflexivity).
  destruct (proj1 (list_tasks_untouched clock (file w) (saves w) filter_tags
                     filter_priority sort_by show_done show_created w H))
    as [H1 H2].
  destruct (proj1 (show_stats_untouched clock (file w) (saves w) w H))
    as [H3 H4].
  tauto.
Qed.

(** C5: the code does not number the tasks by their place in the file when
    the listing includes completed tasks and has no filter.  Then
    [filtered_tasks] is the list [tasks] itself, [sort] reorders it, and
    [tasks.index] finds the place in the sorted list: [task_B], second in
    the file, is shown as 1 and [task_A] as 2. *)
Theorem listing_numbers_after_sort :
  stored (file (fresh (Stored [task_A; task_B]))) = [task_A; task_B]
  /\ out (snd (list_tasks noon None None "priority" true false
                          (fresh (Stored [task_A; task_B]))))
     = [AllTasksHeader 2 2 0;
        PriorityHeader Orange "high"; TaskLine true 1 task_B false;
        BlankLine;
        PriorityHeader Green "low"; TaskLine true 2 task_A false].
Proof. split; reflexivity. Qed.

(** Without [--done] the list that is sorted is a copy and the scenario of
    the specification comes out: [task_B] first, numbered 2. *)
Lemma listing_pending_scenario :
  out (snd (list_tasks noon None None "priority" false false
                       (fresh (Stored [task_A; task_B]))))
  = [PendingTasksHeader 2 2;
     PriorityHeader Orange "high"; TaskLine true 2 task_B false;
     BlankLine;
     PriorityHeader Green "low"; TaskLine true 1 task_A false].
Proof. reflexivity. Qed.

(** Two tasks with the same fields are both shown with the number of the
    first: [tasks.index] compares by value. *)
Lemma listing_equal_tasks :
  out (snd (list_tasks noon None None "priority" false false
                       (fresh (Stored [task_A; task_A]))))
  = [PendingTasksHeader 2 2;
     PriorityHeader Green "low";
     TaskLine true 1 task_A false; TaskLine true 1 task_A false].
Proof. reflexivity. Qed.

(** * The file as JSON *)

Lemma strings_of_map (l : list string) :
  Json.strings_of (map Json.Str l) = Some l.
Proof. induction l as [|s l IH]; simpl; [|rewrite IH]; reflexivity. Qed.

Lemma to_task_of_task (t : task) : Json.to_task (Json.of_task t) = Some t.
Proof.
  destruct t as [d b [p|] [tg|] [c|]]; simpl;
    try rewrite strings_of_map; reflexivity.
Qed.

(** The migration of a task record is the migration of its JSON object. *)
Lemma migrate_refines (clock : nat -> datetime) (t : task)
  (f : file_state) (s : nat) (o : list message) (k : nat) :
  exists t' k' v',
    migrate clock t (mkWorld f s o k) = (Ok t', mkWorld f s o k')
    /\ Json.migrate clock (Json.of_task t) k = (Json.Return v', k')
    /\ Json.to_task v' = Some t'.
Proof.
  destruct t as [d b [p|] [tg|] [c|]];
    eexists; eexists; eexists;
    (split; [reflexivity|]); (split; [reflexivity|]);
    simpl; try rewrite strings_of_map; reflexivity.
Qed.

Lemma migrate_all_refines (clock : nat -> datetime) (l : list task)
  (f : file_state) (s : nat) (o : list message) : forall k,
  exists l' k' vs,
    for_each (migrate clock) l (mkWorld f s o k)
    = (Ok l', mkWorld f s o k')
    /\ Json.migrate_all clock (map Json.of_task l) k = (Json.Return vs, k')
    /\ Json.to_tasks vs = Some l'.
Proof.
  induction l as [|t l IH]; intros k.
  - exists [], k, []. repeat split.
  - destruct (migrate_refines clock t f s o k) as (t' & k1 & v' & E1 & E2 & E3).
    destruct (IH k1) as (l' & k2 & vs & F1 & F2 & F3).
    exists (t' :: l'), k2, (v' :: vs). simpl.
    unfold bind. rewrite E1, F1, E2, F2. simpl. rewrite E3, F3.
    repeat split.
Qed.

(** [load_tasks] on task records agrees with [load_tasks] on the JSON value
    of the file: same output, same clock readings, and the value returned
    reads back as the records returned. *)
Lemma load_tasks_refines (clock : nat -> datetime) (w : world) :
  exists l k' vs,
    load_tasks clock w
    = (Ok l, mkWorld (file w) (saves w) (out w ++ read_error (file w)) k')
    /\ Json.load_tasks clock (Json.file_content (file w)) (ticks w)
       = (Json.Return (Json.Arr vs), read_error (file w), k')
    /\ Json.to_tasks vs = Some l.
Proof.
  destruct w as [f s o k]. unfold load_tasks. simpl.
  destruct f as [| |l0]; simpl.
  - exists [], k, []. rewrite app_nil_r. repeat split.
  - exists [], k, []. repeat split.
  - destruct (migrate_all_refines clock l0 (Stored l0) s o k)
      as (l & k' & vs & E1 & E2 & E3).
    exists l, k', vs. rewrite app_nil_r, E1.
    unfold Json.load_tasks, Json.load_body. simpl. rewrite E2.
    repeat split. exact E3.
Qed.

(** A file that is not JSON: the error is printed and the list is empty. *)
Lemma invalid_file_is_empty (clock : nat -> datetime) (k : nat) :
  Json.load_tasks clock Json.Invalid k
  = (Json.Return (Json.Arr []), [ErrorReadingTodoFile], k).
Proof. reflexivity. Qed.

Lemma lookup_set_member_same (k : string) (x : Json.value) members :
  lookup k (Json.set_member k x members) = Some x.
Proof.
  induction members as [|[k' x'] members IH]; simpl.
  - rewrite String.eqb_refl. reflexivity.
  - destruct (String.eqb k k') eqn:E; simpl; rewrite E; [reflexivity | exact IH].
Qed.

Lemma lookup_set_member_other (k k' : string) (x : Json.value) members :
  k' <> k -> lookup k' (Json.set_member k x members) = lookup k' members.
Proof.
  intros Hk. induction members as [|[k0 x0] members IH]; simpl.
  - apply String.eqb_neq in Hk. rewrite Hk. reflexivity.
  - destruct (String.eqb k k0) eqn:E; simpl.
    + apply String.eqb_eq in E. subst k0.
      apply String.eqb_neq in Hk. rewrite Hk. reflexivity.
    + rewrite IH. reflexivity.
Qed.

Lemma has_member_lookup (k : string) (members : list (string * Json.value)) :
  existsb (fun m => String.eqb (fst m) k) members
  = match lookup k members with Some _ => true | None => false end.
Proof.
  induction members as [|[k' x'] members IH]; simpl; [reflexivity|].
  rewrite String.eqb_sym. destruct (String.eqb k k'); [reflexivity | exact IH].
Qed.

Lemma fill_object (k : string) (x : Json.value) members :
  exists members',
    Json.fill k x (Json.Obj members) = Json.Return (Json.Obj members')
    /\ lookup k members'
       = Some (match lookup k members with Some y => y | None => x end)
    /\ forall k', k' <> k -> lookup k' members' = lookup k' members.
Proof.
  unfold Json.fill, Json.contains. rewrite has_member_lookup.
  destruct (lookup k members) as [y|] eqn:E.
  - exists members. rewrite E. repeat split.
  - exists (Json.set_member k x members). simpl.
    split; [reflexivity|].
    split; [apply lookup_set_member_same|].
    intros k' Hk. apply lookup_set_member_other, Hk.
Qed.

(** On a task object the migration succeeds and fills in exactly the three
    keys: each keeps its value if it has one and gets its default if not;
    every other key is as it was. *)
Lemma migrate_object (clock : nat -> datetime) members (tick : nat) :
  exists members' tick',
    Json.migrate clock (Json.Obj members) tick
    = (Json.Return (Json.Obj members'), tick')
    /\ lookup "priority" members'
       = Some (match lookup "priority" members with
               | Some y => y
               | None => Json.Int 2
               end)
    /\ lookup "tags" members'
       = Some (match lookup "tags" members with
               | Some y => y
               | None => Json.Arr []
               end)
    /\ lookup "created" members'
       = Some (match lookup "created" members with
               | Some y => y
               | None => Json.Str (isoformat (clock tick))
               end)
    /\ forall k, k <> "priority" -> k <> "tags" -> k <> "created" ->
                 lookup k members' = lookup k members.
Proof.
  unfold Json.migrate.
  destruct (fill_object "priority" (Json.Int 2) members)
    as (m1 & E1 & P1 & O1). rewrite E1.
  destruct (fill_object "tags" (Json.Arr []) m1) as (m2 & E2 & P2 & O2).
  rewrite E2.
  destruct (fill_object "created" (Json.Str (isoformat (clock tick))) m2)
    as (m3 & E3 & P3 & O3).
  unfold Json.fill in E3.
  destruct (Json.contains "created" (Json.Obj m2)) as [[|]|e] eqn:Ec;
    try discriminate.
  - inversion E3; subst m3. exists m2, tick. split; [reflexivity|].
    rewrite O2, P1 by discriminate. rewrite P2, O1 by discriminate.
    rewrite P3, !O2, !O1 by discriminate.
    repeat split. intros k H1 H2 H3. rewrite O2, O1 by assumption.
    reflexivity.
  - exists m3, (S tick). rewrite E3. split; [reflexivity|].
    rewrite !O3, O2, P1 by discriminate. rewrite P2, O1 by discriminate.
    rewrite P3, !O2, !O1 by discriminate.
    repeat split. intros k H1 H2 H3. rewrite O3, O2, O1 by assumption.
    reflexivity.
Qed.

(** C8: the code does not catch what a file of the wrong structure makes it
    raise.  The handler of [load_tasks] names [JSONDecodeError] and
    [KeyError]; a number, an array of numbers or a single task object
    outside an array make the migration loop raise [TypeError], which
    leaves [load_tasks] instead of an empty list and an error line. *)
Theorem malformed_file_raises :
  Json.load_tasks noon (Json.Parsed (Json.Int 42)) 0
  = (Json.Throw TypeError, [], 0%nat)
  /\ Json.load_tasks noon (Json.Parsed (Json.Arr [Json.Int 1])) 0
     = (Json.Throw TypeError, [], 0%nat)
  /\ Json.load_tasks noon
       (Json.Parsed (Json.Obj [("desc", Json.Str "x");
                               ("done", Json.Bool false)])) 0
     = (Json.Throw TypeError, [], 0%nat).
Proof. repeat split. Qed.

(** * The priority token *)

Lemma length_append (s1 s2 : string) :
  String.length (s1 ++ s2) = (String.length s1 + String.length s2)%nat.
Proof. induction s1 as [|a s1 IH]; simpl; [|rewrite IH]; reflexivity. Qed.

Lemma sub_from_skip (c : ascii) (u v : string) :
  sub_from c (String.length u) (u ++ v) = re_sub c v.
Proof. induction u as [|a u IH]; simpl; [reflexivity | exact IH]. Qed.

Lemma findall_from_skip (c : ascii) (u v : string) :
  findall_from c (String.length u) (u ++ v) = re_findall c v.
Proof. induction u as [|a u IH]; simpl; [reflexivity | exact IH]. Qed.

Lemma token_parts (r : string) :
  r = (take_while is_word r
       ++ take_while is_space (drop_while is_word r)
       ++ drop_while is_space (drop_while is_word r))%string.
Proof. rewrite !take_drop. reflexivity. Qed.

Lemma sub_at_match (c : ascii) (r : string) :
  sub_from c (token_length r) r
  = re_sub c (drop_while is_space (drop_while is_word r)).
Proof.
  rewrite (token_parts r) at 2. rewrite <- append_assoc.
  unfold token_length. rewrite <- length_append. apply sub_from_skip.
Qed.

Lemma starts_with_drop (p : ascii -> bool) (s : string) :
  starts_with p (drop_while p s) = false.
Proof.
  pose proof (drop_while_head p s) as H.
  destruct (drop_while p s); [reflexivity | exact H].
Qed.

Lemma at_match_prefix (c a : ascii) (pre s : string) :
  at_match c a (pre ++ String c s) = false -> at_match c a pre = false.
Proof.
  unfold at_match. destruct (Ascii.eqb a c); [|reflexivity].
  destruct pre; simpl; [reflexivity | tauto].
Qed.

Lemma first_match_found (c : ascii) (s g : string) :
  re_search c s = Some g ->
  exists pre sp rest,
    first_match c s g pre sp rest
    /\ re_sub c s = (pre ++ re_sub c rest)%string.
Proof.
  induction s as [|a s IH]; simpl; [discriminate|].
  destruct (at_match c a s) eqn:E.
  - intros H. inversion H. subst g. clear H.
    exists EmptyString, (take_while is_space (drop_while is_word s)),
      (drop_while is_space (drop_while is_word s)).
    apply andb_true_iff in E as [Ea Es]. apply Ascii.eqb_eq in Ea. subst a.
    split.
    + unfold first_match. simpl. rewrite <- token_parts.
      split; [reflexivity|]. split; [reflexivity|].
      split; [destruct s; [discriminate|]; simpl in *; rewrite Es;
              discriminate|].
      split; [apply take_while_all|].
      rewrite take_drop.
      split; [apply starts_with_drop|].
      split; [apply take_while_all | apply starts_with_drop].
    + unfold re_sub at 1. simpl.
      assert (at_match c c s = true) as ->.
      { unfold at_match. rewrite Ascii.eqb_refl. exact Es. }
      apply sub_at_match.
  - intros H. destruct (IH H) as (pre & sp & rest & F & S).
    exists (String a pre), sp, rest.
    destruct F as (F1 & F2 & F3). split.
    + unfold first_match. simpl. rewrite <- F1.
      split; [reflexivity|]. split; [|exact F3].
      rewrite F2, orb_false_r. rewrite F1 in E.
      exact (at_match_prefix _ _ _ _ E).
    + unfold re_sub in *. simpl. rewrite E, S. reflexivity.
Qed.

(** C3, as the claim has it, fails: every match of [@\w+] is taken out of
    the description, not only the leftmost one that gives the priority,
    and the white space after a match goes with it. *)
Lemma later_tokens_stripped_too :
  parse_tags_and_priority "a @high @low" = ((Some "a", [], 3), [])
  /\ parse_first_token_only "a @high @low" = ((Some "a @low", [], 3), [])
  /\ parse_tags_and_priority "a@high b" = ((Some "ab", [], 3), [])
  /\ parse_first_token_only "a@high b" = ((Some "a b", [], 3), []).
Proof. repeat split. Qed.

(** C3, amended.  The parser looks for the leftmost match of [@\w+] in the
    description without its tags.  If there is none, the priority is 2 and
    no warning is printed.  If there is one, its word in lower case gives
    the priority when it is one of low, normal, high, urgent, and otherwise
    a warning is printed and the priority is 2; in either case the token and
    the white space after it are removed, and so is every later match of
    [@\w+\s*]. *)
Theorem priority_token (d : string) :
  let d1 := strip (re_sub hash d) in
  let r := parse_tags_and_priority d in
  match re_search at_sign d1 with
  | None =>
      has_token at_sign d1 = false
      /\ inline_priority r = 2
      /\ (forall x, ~ In (UnknownPriority x) (printed r))
      /\ cleaned r = text_or_none (join " " (split d1))
  | Some g =>
      exists pre sp rest,
        first_match at_sign d1 g pre sp rest
        /\ inline_priority r
           = match lookup (lower g) PRIORITIES with
             | Some p => p
             | None => 2
             end
        /\ (In (UnknownPriority (lower g)) (printed r)
            <-> lookup (lower g) PRIORITIES = None)
        /\ cleaned r
           = text_or_none
               (join " " (split (strip (pre ++ re_sub at_sign rest))))
  end.
Proof.
  intros d1 r. unfold r, parse_tags_and_priority. fold d1.
  destruct (re_search at_sign d1) as [g|] eqn:E.
  - destruct (first_match_found _ _ _ E) as (pre & sp & rest & F & S).
    exists pre, sp, rest. split; [exact F|]. rewrite S.
    unfold text_or_none, cleaned, inline_priority, printed.
    destruct (lookup (lower g) PRIORITIES) as [p|];
      destruct (is_empty _); simpl;
      repeat split; try reflexivity; try discriminate;
      intros; try tauto;
      repeat match goal with
             | H : _ \/ _ |- _ => destruct H
             | H : False |- _ => destruct H
             | H : _ = _ |- _ => discriminate H
             end.
  - split; [exact (search_token _ _ E)|].
    unfold text_or_none, cleaned, inline_priority, printed.
    destruct (is_empty _); simpl; repeat split; try reflexivity;
      intros x H;
      repeat match goal with
             | H : _ \/ _ |- _ => destruct H
             | H : False |- _ => destruct H
             | H : _ = _ |- _ => discriminate H
             end.
Qed.

(** * Parsing twice *)

Lemma has_token_findall (c : ascii) (s : string) :
  has_token c s = true -> re_findall c s <> [].
Proof.
  unfold re_findall. induction s as [|a s IH]; simpl; [discriminate|].
  destruct (at_match c a s); simpl; [discriminate | exact IH].
Qed.

Lemma has_token_search (c : ascii) (s : string) :
  has_token c s = true -> exists g, re_search c s = Some g.
Proof.
  induction s as [|a s IH]; simpl; [discriminate|].
  destruct (at_match c a s); simpl; [eauto | exact IH].
Qed.

Lemma length_sub_le (c : ascii) (s : string) : forall k,
  (String.length (sub_from c k s) <= String.length s)%nat.
Proof.
  induction s as [|a s IH]; intros k; simpl; [lia|].
  destruct k as [|k]; [|specialize (IH k); lia].
  destruct (at_match c a s); simpl.
  - specialize (IH (token_length s)). lia.
  - specialize (IH O). lia.
Qed.

Lemma length_sub_lt (c : ascii) (s : string) :
  has_token c s = true ->
  (String.length (re_sub c s) < String.length s)%nat.
Proof.
  unfold re_sub. induction s as [|a s IH]; simpl; [discriminate|].
  destruct (at_match c a s); simpl.
  - intros _. pose proof (length_sub_le c s (token_length s)). lia.
  - intros H. specialize (IH H). lia.
Qed.

Lemma length_drop_while (p : ascii -> bool) (s : string) :
  (String.length (drop_while p s) <= String.length s)%nat.
Proof.
  induction s as [|a s IH]; simpl; [lia|]. destruct (p a); simpl; lia.
Qed.

Lemma length_rstrip (s : string) :
  (String.length (rstrip s) <= String.length s)%nat.
Proof.
  induction s as [|a s IH]; simpl; [lia|].
  destruct (rstrip s); [destruct (is_space a)|]; simpl in *; lia.
Qed.

Lemma length_strip (s : string) :
  (String.length (strip s) <= String.length s)%nat.
Proof.
  unfold strip, lstrip.
  pose proof (length_rstrip (drop_while is_space s)).
  pose proof (length_drop_while is_space s). lia.
Qed.

Lemma join_weight (ws : list string) :
  ws <> [] -> (S (String.length (join " " ws)) <= weight ws)%nat.
Proof.
  induction ws as [|w ws IH]; [congruence|]. intros _.
  rewrite join_cons. unfold weight in *. simpl.
  destruct ws as [|w' ws']; [simpl; lia|].
  rewrite length_append. simpl String.length.
  assert (w' :: ws' <> []) as Hne by discriminate.
  specialize (IH Hne). simpl in IH. simpl. lia.
Qed.

Lemma weight_push (w : string) (ws : list string) :
  (weight (push_word w ws) <= S (String.length w + weight ws))%nat.
Proof. destruct w; unfold weight; simpl; lia. Qed.

Lemma split_aux_weight (s : string) :
  (String.length (fst (split_aux s)) + weight (snd (split_aux s))
   <= String.length s)%nat.
Proof.
  induction s as [|a s IH]; simpl; [unfold weight; simpl; lia|].
  destruct (split_aux s) as [w ws]. simpl in IH.
  destruct (is_space a); simpl.
  - pose proof (weight_push w ws). lia.
  - lia.
Qed.

Lemma length_join_split (s : string) :
  (String.length (join " " (split s)) <= String.length s)%nat.
Proof.
  unfold split. pose proof (split_aux_weight s) as H.
  destruct (split_aux s) as [w ws]. simpl in H.
  destruct w as [|a w]; simpl push_word.
  - destruct ws as [|w' ws']; [simpl; lia|].
    assert (w' :: ws' <> []) as Hne by discriminate.
    pose proof (join_weight _ Hne). simpl in H. lia.
  - rewrite join_cons. destruct ws as [|w' ws']; [simpl in *; lia|].
    assert (w' :: ws' <> []) as Hne by discriminate.
    pose proof (join_weight _ Hne). rewrite length_append.
    simpl String.length in *. lia.
Qed.

(** C9, as the claim has it, fails: taking a match out can bring a [#] or
    [@] that marked nothing next to the word after the match, and the
    result of the first parse is then not clean. *)
Lemma reparse_finds_more :
  parse_tags_and_priority "##a b" = ((Some "#b", ["a"], 2), [])
  /\ parse_tags_and_priority "#b" = ((None, [], 2), [EmptyDescription "#b"])
  /\ parse_tags_and_priority "@@x y" = ((Some "@y", [], 2),
                                         [UnknownPriority "x"])
  /\ parse_tags_and_priority "@y"
     = ((None, [], 2), [UnknownPriority "y"; EmptyDescription "@y"]).
Proof. repeat split. Qed.

(** Parsing a description that was returned gives that description again,
    no tags, priority 2 and no warning exactly when it holds no [#] or [@]
    with a word character after it. *)
Lemma clean_iff_no_token (d cd : string) (tg : list string) (p : Z)
  (ms : list message) :
  parse_tags_and_priority d = ((Some cd, tg, p), ms) ->
  (parse_tags_and_priority cd = ((Some cd, [], 2), [])
   <-> has_token hash cd = false /\ has_token at_sign cd = false).
Proof.
  intros E. destruct (parse_some _ _ _ _ _ E) as (_ & Hne & _ & _ & ws & Hw & ->).
  assert (ws <> []) as Hws.
  { intros ->. apply Hne. reflexivity. }
  split.
  - intros H.
    destruct (has_token hash (join " " ws)) eqn:Hh.
    + exfalso. pose proof (has_token_findall _ _ Hh) as Hf.
      destruct (parse_cases (join " " ws)) as (p' & w & d2 & _ & E').
      rewrite E' in H. destruct (is_empty _); [discriminate|].
      inversion H. congruence.
    + split; [reflexivity|].
      destruct (has_token at_sign (join " " ws)) eqn:Ha; [|reflexivity].
      exfalso. destruct (has_token_search _ _ Ha) as (g & Eg).
      pose proof (length_sub_lt _ _ Ha) as Hlt.
      revert H. unfold parse_tags_and_priority.
      rewrite (no_token_findall _ _ Hh), (no_token_sub _ _ Hh).
      rewrite (strip_join ws Hw), Eg.
      remember (join " " (split (strip (re_sub at_sign (join " " ws)))))
        as d3 eqn:Ed3.
      assert (String.length d3 < String.length (join " " ws))%nat as Hd3.
      { rewrite Ed3.
        pose proof (length_join_split
                      (strip (re_sub at_sign (join " " ws)))).
        pose proof (length_strip (re_sub at_sign (join " " ws))). lia. }
      destruct (lookup (lower g) PRIORITIES); intros H;
        rewrite <- Ed3 in H; destruct (is_empty d3);
        try discriminate H;
        assert (d3 = join " " ws) as Hd by congruence;
        rewrite Hd in Hd3; lia.
  - intros [Hh Ha]. apply parse_clean; assumption.
Qed.

Lemma rstrip_head (s : string) (b : ascii) (r : string) :
  rstrip s = String b r -> exists s', s = String b s'.
Proof.
  destruct s as [|a s]; [discriminate|]. cbn [rstrip].
  destruct (rstrip s); [destruct (is_space a)|]; intros E;
    inversion E; subst; eauto.
Qed.

Lemma word_not_space (a : ascii) : is_word a = true -> is_space a = false.
Proof.
  destruct a as [[] [] [] [] [] [] [] []]; vm_compute; congruence.
Qed.

Lemma absent_cons (c a : ascii) (r : string) :
  absent c (String a r) <-> Ascii.eqb a c = false /\ absent c r.
Proof.
  unfold absent. simpl. rewrite orb_false_iff, (Ascii.eqb_sym c a). tauto.
Qed.

Lemma absent_append (c : ascii) (s1 s2 : string) :
  absent c s1 -> absent c s2 -> absent c (s1 ++ s2).
Proof.
  intros H1 H2. induction s1 as [|a s1 IH]; [exact H2|].
  apply absent_cons in H1 as [Ha H1]. simpl. apply absent_cons.
  split; [exact Ha | apply IH, H1].
Qed.

Lemma leads_word_cons (c a : ascii) (r : string) :
  leads_word c (String a r)
  = (negb (Ascii.eqb a c) || starts_word r) && leads_word c r.
Proof. reflexivity. Qed.

Lemma leads_word_tail (c a : ascii) (r : string) :
  leads_word c (String a r) = true -> leads_word c r = true.
Proof. simpl. intros H. apply andb_true_iff in H as [_ H]. exact H. Qed.

(** Where every [c] starts a match, taking the matches out leaves no
    [c]. *)
Lemma sub_absent (c : ascii) (s : string) :
  leads_word c s = true -> forall k, absent c (sub_from c k s).
Proof.
  induction s as [|a s IH]; intros H k; [reflexivity|].
  pose proof (leads_word_tail _ _ _ H) as Hs. simpl.
  destruct k as [|k]; [|apply IH, Hs].
  destruct (at_match c a s) eqn:E; [apply IH, Hs|].
  apply absent_cons. split; [|apply IH, Hs].
  simpl in H. apply andb_true_iff in H as [H _].
  unfold at_match in E. destruct (Ascii.eqb a c); [|reflexivity].
  simpl in *. congruence.
Qed.

Lemma sub_keeps_absent (c c' : ascii) (s : string) :
  absent c' s -> forall k, absent c' (sub_from c k s).
Proof.
  induction s as [|a s IH]; intros H k; [reflexivity|].
  apply absent_cons in H as [Ha Hs]. simpl.
  destruct k as [|k]; [|apply IH, Hs].
  destruct (at_match c a s); [apply IH, Hs|].
  apply absent_cons. split; [exact Ha | apply IH, Hs].
Qed.

Lemma sub_starts_word (c : ascii) (s : string) :
  is_word c = false -> starts_word s = true ->
  starts_word (sub_from c 0 s) = true.
Proof.
  intros Hc. destruct s as [|a s]; [discriminate|]. simpl. intros Ha.
  unfold at_match. destruct (Ascii.eqb a c) eqn:E; [|exact Ha].
  apply Ascii.eqb_eq in E. congruence.
Qed.

(** Taking out the matches of another marker leaves every [c'] in front of
    its word. *)
Lemma sub_keeps_leads (c c' : ascii) (s : string) :
  is_word c = false ->
  leads_word c' s = true -> forall k, leads_word c' (sub_from c k s) = true.
Proof.
  intros Hc. induction s as [|a s IH]; intros H k; [reflexivity|].
  pose proof (leads_word_tail _ _ _ H) as Hs. simpl.
  destruct k as [|k]; [|apply IH, Hs].
  destruct (at_match c a s); [apply IH, Hs|].
  simpl. rewrite (IH Hs O), andb_true_r.
  simpl in H. apply andb_true_iff in H as [H _].
  destruct (Ascii.eqb a c'); [|reflexivity]. simpl in *.
  apply sub_starts_word; assumption.
Qed.

Lemma lstrip_keeps_absent (c : ascii) (s : string) :
  absent c s -> absent c (lstrip s).
Proof.
  unfold lstrip. induction s as [|a s IH]; intros H; [reflexivity|].
  simpl. destruct (is_space a); [|exact H].
  apply absent_cons in H as [_ H]. apply IH, H.
Qed.

Lemma rstrip_keeps_absent (c : ascii) (s : string) :
  absent c s -> absent c (rstrip s).
Proof.
  induction s as [|a s IH]; intros H; [reflexivity|].
  apply absent_cons in H as [Ha H]. specialize (IH H). cbn [rstrip].
  destruct (rstrip s) as [|b r].
  - destruct (is_space a); [reflexivity|].
    apply absent_cons. split; [exact Ha | reflexivity].
  - apply absent_cons. split; [exact Ha | exact IH].
Qed.

Lemma lstrip_keeps_leads (c : ascii) (s : string) :
  leads_word c s = true -> leads_word c (lstrip s) = true.
Proof.
  unfold lstrip. induction s as [|a s IH]; intros H; [reflexivity|].
  cbn [drop_while]. destruct (is_space a); [|exact H].
  apply IH, (leads_word_tail _ _ _ H).
Qed.

Lemma rstrip_keeps_leads (c : ascii) (s : string) :
  leads_word c s = true -> leads_word c (rstrip s) = true.
Proof.
  induction s as [|a s IH]; intros H; [reflexivity|].
  pose proof (leads_word_tail _ _ _ H) as Hs. specialize (IH Hs).
  simpl in H. apply andb_true_iff in H as [H _]. cbn [rstrip].
  destruct (rstrip s) as [|b r] eqn:Er.
  - destruct (is_space a) eqn:Ea; [reflexivity|].
    simpl. rewrite andb_true_r.
    destruct (Ascii.eqb a c); [|reflexivity]. simpl in *.
    destruct s as [|w s']; [discriminate H|]. simpl in H.
    apply word_not_space in H.
    cbn [rstrip] in Er. rewrite H in Er.
    destruct (rstrip s'); discriminate Er.
  - rewrite (leads_word_cons c a (String b r)), IH, andb_true_r.
    destruct (Ascii.eqb a c); [|reflexivity]. simpl in *.
    destruct (rstrip_head _ _ _ Er) as (s' & ->). exact H.
Qed.

Lemma strip_keeps_absent (c : ascii) (s : string) :
  absent c s -> absent c (strip s).
Proof.
  intros H. apply rstrip_keeps_absent, lstrip_keeps_absent, H.
Qed.

Lemma strip_keeps_leads (c : ascii) (s : string) :
  leads_word c s = true -> leads_word c (strip s) = true.
Proof.
  intros H. apply rstrip_keeps_leads, lstrip_keeps_leads, H.
Qed.

Lemma leads_no_token_absent (c : ascii) (s : string) :
  leads_word c s = true -> has_token c s = false -> absent c s.
Proof.
  induction s as [|a s IH]; [reflexivity|]. simpl. intros H T.
  apply andb_true_iff in H as [H Hs].
  apply orb_false_iff in T as [T Ts].
  apply absent_cons. split; [|apply IH; assumption].
  unfold at_match in T. destruct (Ascii.eqb a c); [|reflexivity].
  simpl in *. congruence.
Qed.

Lemma absent_no_token (c : ascii) (s : string) :
  absent c s -> has_token c s = false.
Proof.
  induction s as [|a s IH]; [reflexivity|]. intros H.
  apply absent_cons in H as [Ha H]. simpl. unfold at_match.
  rewrite Ha, (IH H). reflexivity.
Qed.

Lemma split_aux_absent (c : ascii) (s : string) :
  absent c s ->
  absent c (fst (split_aux s)) /\ Forall (absent c) (snd (split_aux s)).
Proof.
  induction s as [|a s IH]; intros H; [split; [reflexivity | constructor]|].
  apply absent_cons in H as [Ha H]. destruct (IH H) as [Hw Hws].
  simpl. destruct (split_aux s) as [w ws]. simpl in *.
  destruct (is_space a); simpl.
  - split; [reflexivity|].
    destruct w; simpl; [exact Hws | constructor; assumption].
  - split; [|exact Hws]. apply absent_cons. split; assumption.
Qed.

Lemma join_absent (c : ascii) (ws : list string) :
  Ascii.eqb " " c = false ->
  Forall (absent c) ws -> absent c (join " " ws).
Proof.
  intros Hc. induction 1 as [|w ws Hw _ IH]; [reflexivity|].
  rewrite join_cons. destruct ws as [|w' ws']; [exact Hw|].
  apply absent_append; [exact Hw|].
  apply absent_cons. split; [exact Hc | exact IH].
Qed.

Lemma clean_absent (c : ascii) (s : string) :
  Ascii.eqb " " c = false ->
  absent c s -> absent c (join " " (split s)).
Proof.
  intros Hc H. apply join_absent; [exact Hc|].
  destruct (split_aux_absent c s H) as [Hw Hws]. unfold split.
  destruct (split_aux s) as [w ws]. simpl in *.
  destruct w; simpl; [exact Hws | constructor; assumption].
Qed.

(** When every [#] and [@] of the text stands in front of a word, the
    description the parser returns holds neither. *)
Lemma parse_takes_all_markers (d cd : string) (tg : list string) (p : Z)
  (ms : list message) :
  leads_word hash d = true ->
  leads_word at_sign d = true ->
  parse_tags_and_priority d = ((Some cd, tg, p), ms) ->
  absent hash cd /\ absent at_sign cd.
Proof.
  intros Hh Ha. unfold parse_tags_and_priority.
  assert (absent hash (strip (re_sub hash d))) as H1
    by apply strip_keeps_absent, sub_absent, Hh.
  assert (leads_word at_sign (strip (re_sub hash d)) = true) as H2
    by (apply strip_keeps_leads, sub_keeps_leads;
          [apply hash_not_word | exact Ha]).
  destruct (re_search at_sign (strip (re_sub hash d))) as [g|] eqn:Es.
  - assert (absent hash (strip (re_sub at_sign (strip (re_sub hash d)))))
      as H3 by apply strip_keeps_absent, sub_keeps_absent, H1.
    assert (absent at_sign (strip (re_sub at_sign (strip (re_sub hash d)))))
      as H4 by apply strip_keeps_absent, sub_absent, H2.
    destruct (lookup (lower g) PRIORITIES);
      destruct (is_empty _); intros E; inversion E; subst;
      (split; (apply clean_absent; [reflexivity | assumption])).
  - assert (absent at_sign (strip (re_sub hash d))) as H4.
    { apply leads_no_token_absent; [exact H2|].
      destruct (has_token at_sign (strip (re_sub hash d))) eqn:T;
        [|reflexivity].
      destruct (has_token_search _ _ T) as (g & Eg). congruence. }
    destruct (is_empty _); intros E; inversion E; subst.
    split; (apply clean_absent; [reflexivity | assumption]).
Qed.

(** C9, amended.  For a text in which every [#] and every [@] has a word
    character right after it, and which parses: the description returned
    holds no [#] and no [@], and parsing it again gives the same
    description, no tags, priority 2 and no warning. *)
Theorem reparse_clean (d cd : string) (tg : list string) (p : Z)
  (ms : list message) :
  leads_word hash d = true ->
  leads_word at_sign d = true ->
  parse_tags_and_priority d = ((Some cd, tg, p), ms) ->
  absent hash cd /\ absent at_sign cd
  /\ parse_tags_and_priority cd = ((Some cd, [], 2), []).
Proof.
  intros Hh Ha E.
  destruct (parse_takes_all_markers _ _ _ _ _ Hh Ha E) as [Ah Aa].
  split; [exact Ah|]. split; [exact Aa|].
  destruct (parse_some _ _ _ _ _ E) as (_ & Hne & _ & _ & ws & Hw & ->).
  apply parse_clean.
  - exact Hw.
  - intros ->. apply Hne. reflexivity.
  - apply absent_no_token, Ah.
  - apply absent_no_token, Aa.
Qed.

Lemma reparse_clean_witness :
  leads_word hash "Fix #api bug @urgent #backend" = true
  /\ leads_word at_sign "Fix #api bug @urgent #backend" = true
  /\ parse_tags_and_priority "Fix #api bug @urgent #backend"
     = ((Some "Fix bug", ["api"; "backend"], 4), [])
  /\ absent hash "Fix bug" /\ absent at_sign "Fix bug"
  /\ parse_tags_and_priority "Fix bug" = ((Some "Fix bug", [], 2), []).
Proof.
  split; [reflexivity|]. split; [reflexivity|]. split; [reflexivity|].
  apply (reparse_clean "Fix #api bug @urgent #backend" "Fix bug"
           ["api"; "backend"] 4 []); reflexivity.
Defined.

(** * Listing *)

Lemma lines_app (o1 o2 : list message) : lines (o1 ++ o2) = lines o1 ++ lines o2.
Proof.
  induction o1 as [|m o1 IH]; [reflexivity|].
  destruct m; simpl; rewrite ?IH; reflexivity.
Qed.

Lemma prefix_of_nil {A : Type} (l : list A) : prefix_of [] l.
Proof. exists l. reflexivity. Qed.

Lemma prefix_of_refl {A : Type} (l : list A) : prefix_of l l.
Proof. exists []. rewrite app_nil_r. reflexivity. Qed.

Lemma prefix_of_cons {A : Type} (a : A) (p l : list A) :
  prefix_of p l -> prefix_of (a :: p) (a :: l).
Proof. intros [r ->]. exists r. reflexivity. Qed.

Lemma list_eqb_eq {A : Type} (eqb : A -> A -> bool) :
  (forall a b, eqb a b = true <-> a = b) ->
  forall l1 l2, list_eqb eqb l1 l2 = true <-> l1 = l2.
Proof.
  intros H. induction l1 as [|a l1 IH]; intros [|b l2]; simpl;
    try (split; [discriminate | congruence]); [tauto|].
  rewrite andb_true_iff, H, IH. split; [intros [-> ->]; reflexivity|].
  intros E. inversion E. tauto.
Qed.

Lemma option_eqb_eq {A : Type} (eqb : A -> A -> bool) :
  (forall a b, eqb a b = true <-> a = b) ->
  forall o1 o2, option_eqb eqb o1 o2 = true <-> o1 = o2.
Proof.
  intros H [a|] [b|]; simpl; try (split; [discriminate | congruence]);
    [|tauto].
  rewrite H. split; congruence.
Qed.

Lemma strings_eqb_eq (l1 l2 : list string) :
  strings_eqb l1 l2 = true <-> l1 = l2.
Proof. apply list_eqb_eq, String.eqb_eq. Qed.

(** [==] on tasks is equality of all five keys. *)
Lemma task_eqb_eq (t1 t2 : task) : task_eqb t1 t2 = true <-> t1 = t2.
Proof.
  unfold task_eqb. rewrite !andb_true_iff, String.eqb_eq, Bool.eqb_true_iff.
  rewrite (option_eqb_eq _ Z.eqb_eq), (option_eqb_eq _ strings_eqb_eq),
    (option_eqb_eq _ String.eqb_eq).
  destruct t1, t2; simpl. split.
  - intros ((((-> & ->) & ->) & ->) & ->). reflexivity.
  - intros E. inversion E. tauto.
Qed.

Lemma index_from_found (t : task) (l : list task) : forall k,
  In t l ->
  exists n, index_from k t l = Some (k + n)%nat
            /\ nth_error l n = Some t.
Proof.
  induction l as [|a l IH]; intros k H; [destruct H|].
  simpl. destruct (task_eqb a t) eqn:E.
  - apply task_eqb_eq in E. subst a. exists O.
    rewrite Nat.add_0_r. split; reflexivity.
  - destruct H as [->|H].
    + rewrite (proj2 (task_eqb_eq t t) eq_refl) in E. discriminate.
    + destruct (IH (S k) H) as (n & E1 & E2). exists (S n).
      rewrite E1. split; [f_equal; lia | exact E2].
Qed.

(** The number of a task of [all] is the place of the first task equal to
    it. *)
Lemma number_in_place (all : list task) (t : task) :
  In t all ->
  1 <= number_in all t <= Z.of_nat (List.length all)
  /\ nth_error all (Z.to_nat (number_in all t - 1)) = Some t.
Proof.
  intros H. unfold number_in.
  destruct (index_from_found t all O H) as (n & -> & En). simpl.
  assert (n < List.length all)%nat as Hn.
  { apply nth_error_Some. congruence. }
  split; [lia|].
  replace (Z.to_nat (Z.of_nat n + 1 - 1)) with n by lia. exact En.
Qed.

(** ** Sorting *)

Lemma insert_sorted_perm {A : Type} (lt : A -> A -> bool) (a : A)
  (l : list A) : Permutation (a :: l) (insert_sorted lt a l).
Proof.
  induction l as [|b l IH]; simpl; [apply Permutation_refl|].
  destruct (lt a b); [apply Permutation_refl|].
  eapply Permutation_trans; [apply perm_swap|].
  apply perm_skip, IH.
Qed.

Lemma fold_insert_perm {A : Type} (lt : A -> A -> bool) (l : list A) :
  forall acc,
    Permutation (l ++ acc)
                (fold_left (fun acc a => insert_sorted lt a acc) l acc).
Proof.
  induction l as [|a l IH]; intros acc; simpl; [apply Permutation_refl|].
  eapply Permutation_trans; [|apply IH].
  eapply Permutation_trans; [apply Permutation_middle|].
  apply Permutation_app_head, insert_sorted_perm.
Qed.

(** [sort] rearranges and neither drops nor repeats. *)
Lemma sort_perm {A : Type} (lt : A -> A -> bool) (l : list A) :
  Permutation l (sort lt l).
Proof.
  unfold sort. rewrite <- (app_nil_r l) at 1. apply fold_insert_perm.
Qed.

Lemma sort_In {A : Type} (lt : A -> A -> bool) (l : list A) (a : A) :
  In a (sort lt l) <-> In a l.
Proof.
  split; apply Permutation_in;
    [apply Permutation_sym|]; apply sort_perm.
Qed.

Lemma ordered_perm (sort_by : string) (l : list task) :
  Permutation l (ordered sort_by l).
Proof.
  unfold ordered. destruct (String.eqb sort_by "priority");
    [apply sort_perm|].
  destruct (String.eqb sort_by "created");
    [apply sort_perm | apply Permutation_refl].
Qed.

Lemma selected_incl ft fp sd (loaded : list task) (t : task) :
  In t (selected ft fp sd loaded) -> In t loaded.
Proof.
  unfold selected. intros H.
  assert (forall (p : task -> bool) l, In t (filter p l) -> In t l) as F.
  { intros p l Hp. apply filter_In in Hp. tauto. }
  destruct (filter_level fp); [apply F in H|];
    (destruct ft as [tags|]; [destruct (nonempty tags); [apply F in H|]|]);
    (destruct sd; [|apply F in H]); exact H.
Qed.

Lemma bind_run {A B : Type} (m : M A) (k : A -> M B) (w : world) :
  bind m k w
  = match m w with
    | (Ok a, w') => k a w'
    | (Raise e, w') => (Raise e, w')
    end.
Proof. reflexivity. Qed.

(** The heap of [list_tasks] resolved: which list each name stands for when
    the listing is rendered. *)
Lemma list_tasks_resolves (clock : nat -> datetime)
  (filter_tags : option (list string)) (filter_priority : option string)
  (sort_by : string) (show_done show_created : bool) (w : world) :
  list_tasks clock filter_tags filter_priority sort_by show_done
             show_created w
  = list_tasks_resolved clock filter_tags filter_priority sort_by show_done
                        show_created w.
Proof.
  unfold list_tasks, list_tasks_resolved. rewrite !bind_run.
  destruct (load_tasks clock w) as [[loaded|e] w1]; [|reflexivity].
  destruct (negb (nonempty loaded)); [reflexivity|].
  unfold selected, same_list, filter_level, ordered, given, pending.
  destruct filter_priority as [fp|];
    [destruct (truthy (Some fp));
     [destruct (lookup (lower fp) PRIORITIES) as [lv|];
      [destruct (negb (lv =? 0))|]|]|];
    (destruct filter_tags as [[|x ft]|]);
    destruct show_done;
    destruct (String.eqb sort_by "priority");
    try destruct (String.eqb sort_by "created");
    reflexivity.
Qed.

Lemma print_run (m : message) (w : world) :
  print m w = (Ok tt, after w [m] (ticks w)).
Proof. reflexivity. Qed.

Lemma after_after (w : world) (o o' : list message) (n n' : nat) :
  after (after w o n) o' n' = after w (o ++ o') n'.
Proof. unfold after. simpl. rewrite app_assoc. reflexivity. Qed.

Lemma after_nil (w : world) : after w [] (ticks w) = w.
Proof. unfold after. rewrite app_nil_r. destruct w; reflexivity. Qed.

Lemma list_index_run (all : list task) (t : task) (w : world) :
  In t all -> list_index all t w = (Ok (number_in all t - 1), w).
Proof.
  intros H. unfold list_index, number_in.
  destruct (index_from_found t all O H) as (n & -> & _).
  unfold ret. repeat f_equal. lia.
Qed.

Section Rendering.
Variable all : list task.
Variable show_created : bool.

Lemma render_flat_run (l : list task) : forall w,
  (forall t, In t l -> In t all) ->
  exists o,
    render_flat all show_created l w = (Ok tt, after w o (ticks w))
    /\ lines o = numbered all l.
Proof.
  induction l as [|t l IH]; intros w H.
  - exists []. rewrite after_nil. split; reflexivity.
  - simpl. rewrite bind_run, (list_index_run all t w) by (apply H; left; reflexivity).
    rewrite bind_run, print_run.
    destruct (IH (after w [TaskLine false (number_in all t - 1 + 1) t
                                    show_created] (ticks w)))
      as (o & E & Ho).
    { intros t' Ht'. apply H. right. exact Ht'. }
    rewrite E. simpl ticks. rewrite after_after.
    eexists. split; [reflexivity|].
    simpl. rewrite Ho. unfold numbered. simpl. repeat f_equal. lia.
Qed.

(** The header a task gets when its priority differs from the one before:
    it holds no task line, and it is printed without exception when the
    priority is one of the four. *)
Lemma group_header_run (t : task) (current : option Z) (w : world) :
  exists o r,
    (if negb (option_eqb Z.eqb (Some (get_priority t)) current)
     then
       priority_name <- getitemZ (get_priority t) PRIORITY_NAMES ;;
       unless_none current (print BlankLine) ;;
       i <- getitemZ (get_priority t) PRIORITY_ICONS ;;
       print (PriorityHeader i priority_name) ;;
       ret (Some (get_priority t))
     else ret current) w
    = (r, after w o (ticks w))
    /\ lines o = []
    /\ (priority_known t -> exists c, r = Ok c).
Proof.
  destruct (negb _).
  - unfold priority_known.
    destruct (lookupZ (get_priority t) PRIORITY_NAMES) as [name|] eqn:En.
    + assert (exists i, lookupZ (get_priority t) PRIORITY_ICONS = Some i)
        as (i & Ei).
      { revert En. unfold PRIORITY_NAMES, PRIORITY_ICONS. simpl.
        repeat match goal with
               | |- context [Z.eqb ?a ?b] => destruct (Z.eqb a b)
               end; intros; try discriminate; eauto. }
      unfold getitemZ. rewrite En, Ei.
      destruct current as [c|]; simpl; unfold bind, ret, print; simpl.
      * exists [BlankLine; PriorityHeader i name]. eexists.
        split; [unfold after; rewrite <- app_assoc; reflexivity|].
        split; [reflexivity | eauto].
      * exists [PriorityHeader i name]. eexists.
        split; [unfold after; reflexivity|].
        split; [reflexivity | eauto].
    + exists [], (Raise KeyError). unfold getitemZ. rewrite En.
      rewrite after_nil. split; [reflexivity|]. split; [reflexivity|].
      intros H. exfalso. revert En. unfold PRIORITY_NAMES. simpl.
      assert (get_priority t = 1 \/ get_priority t = 2
              \/ get_priority t = 3 \/ get_priority t = 4)
        as [-> | [-> | [-> | ->]]] by lia; discriminate.
  - exists [], (Ok current). rewrite after_nil.
    split; [reflexivity|]. split; [reflexivity | eauto].
Qed.

Lemma render_grouped_run (l : list task) : forall current w,
  (forall t, In t l -> In t all) ->
  exists o r,
    render_grouped all show_created current l w = (r, after w o (ticks w))
    /\ prefix_of (lines o) (numbered all l)
    /\ (Forall priority_known l -> r = Ok tt /\ lines o = numbered all l)
    /\ (r = Ok tt -> lines o = numbered all l).
Proof.
  induction l as [|t l IH]; intros current w H.
  - exists [], (Ok tt). rewrite after_nil.
    split; [reflexivity|]. split; [apply prefix_of_refl|].
    split; [intros _; split; reflexivity | reflexivity].
  - cbn [render_grouped]. rewrite bind_run.
    destruct (group_header_run t current w) as (o1 & r1 & E1 & L1 & K1).
    rewrite E1. destruct r1 as [c|e].
    + rewrite bind_run, (list_index_run all t) by (apply H; left; reflexivity).
      rewrite bind_run, print_run.
      match goal with |- context [render_grouped all show_created c l ?w1] =>
        destruct (IH c w1) as (o2 & r2 & E2 & P2 & K2 & R2) end.
      { intros t' Ht'. apply H. right. exact Ht'. }
      rewrite E2. simpl ticks. rewrite !after_after.
      eexists. exists r2. split; [reflexivity|].
      rewrite !lines_app, L1. simpl.
      replace (number_in all t - 1 + 1) with (number_in all t) by lia.
      split; [apply prefix_of_cons, P2|]. split.
      * intros F. inversion F; subst. destruct (K2 H3) as [-> ->].
        split; reflexivity.
      * intros Er. rewrite (R2 Er). reflexivity.
    + exists o1, (Raise e). split; [reflexivity|]. rewrite L1.
      split; [apply prefix_of_nil|]. split; [|discriminate].
      intros F. inversion F; subst. destruct (K1 H2) as (c & Ec).
      discriminate.
Qed.
End Rendering.

Lemma selected_nil ft fp sd : selected ft fp sd [] = [].
Proof.
  unfold selected. destruct (filter_level fp);
    (destruct ft as [tags|]; [destruct (nonempty tags)|]);
    destruct sd; reflexivity.
Qed.

Lemma ordered_nil (sort_by : string) : ordered sort_by [] = [].
Proof.
  unfold ordered. destruct (String.eqb sort_by "priority"); [reflexivity|].
  destruct (String.eqb sort_by "created"); reflexivity.
Qed.

Lemma nonempty_false {A : Type} (l : list A) : nonempty l = false -> l = [].
Proof. destruct l; [reflexivity | discriminate]. Qed.

Lemma skipn_length_app {A : Type} (l1 l2 : list A) :
  skipn (List.length l1) (l1 ++ l2) = l2.
Proof. induction l1 as [|a l1 IH]; [reflexivity | exact IH]. Qed.

Lemma lines_read_error (f : file_state) : lines (read_error f) = [].
Proof. destruct f; reflexivity. Qed.

Lemma filled_priority_known (l l' : list task) :
  Forall2 filled l l' -> Forall priority_known l -> Forall priority_known l'.
Proof.
  induction 1 as [|t t' l l' Ht Hl IH]; intros F; [constructor|].
  inversion F; subst. constructor; [|apply IH; assumption].
  destruct Ht as (_ & _ & Hp & _). unfold priority_known, get_priority in *.
  rewrite Hp. assumption.
Qed.

(** What [list_tasks] prints: the task lines are those of the selected
    tasks in their order, numbered in the list [tasks] stands for, all of
    them if no priority is outside [1..4] and a first part of them if the
    header of a group raises. *)
Lemma list_tasks_lines (clock : nat -> datetime)
  (filter_tags : option (list string)) (filter_priority : option string)
  (sort_by : string) (show_done show_created : bool) (w : world) :
  exists loaded,
    Forall2 filled (stored (file w)) loaded
    /\ let run := list_tasks clock filter_tags filter_priority sort_by
                             show_done show_created in
       let shown :=
         ordered sort_by
                 (selected filter_tags filter_priority show_done loaded) in
       let all :=
         if same_list filter_tags filter_priority show_done then shown
         else loaded in
       prefix_of (lines (printed_by run w)) (numbered all shown)
       /\ (Forall priority_known loaded ->
           fst (run w) = Ok tt
           /\ lines (printed_by run w) = numbered all shown)
       /\ (fst (run w) = Ok tt ->
           lines (printed_by run w) = numbered all shown).
Proof.
  destruct (load_tasks_run clock w) as (loaded & n & El & Hl).
  exists loaded. split; [exact Hl|]. cbv zeta.
  set (shown := ordered sort_by
                  (selected filter_tags filter_priority show_done loaded)).
  set (all := if same_list filter_tags filter_priority show_done
              then shown else loaded).
  assert (forall t, In t shown -> In t all) as Hin.
  { intros t Ht. unfold all.
    destruct (same_list filter_tags filter_priority show_done); [exact Ht|].
    eapply selected_incl, Permutation_in;
      [apply Permutation_sym, ordered_perm | exact Ht]. }
  assert (Forall priority_known loaded -> Forall priority_known shown) as Hk.
  { intros F. apply Forall_forall. intros t Ht.
    rewrite Forall_forall in F. apply F.
    eapply selected_incl, Permutation_in;
      [apply Permutation_sym, ordered_perm | exact Ht]. }
  assert (exists o r k,
             list_tasks clock filter_tags filter_priority sort_by show_done
                        show_created w
             = (r, after w (read_error (file w) ++ o) k)
             /\ prefix_of (lines o) (numbered all shown)
             /\ (Forall priority_known loaded ->
                 r = Ok tt /\ lines o = numbered all shown)
             /\ (r = Ok tt -> lines o = numbered all shown))
    as (o & r & k & E & P & K & R).
  { rewrite list_tasks_resolves. unfold list_tasks_resolved.
    rewrite bind_run, El.
    change (mkWorld (file w) (saves w) (out w ++ read_error (file w)) n)
      with (after w (read_error (file w)) n).
    destruct (negb (nonempty loaded)) eqn:Ne.
    { apply negb_true_iff, nonempty_false in Ne.
      assert (shown = []) as Es.
      { unfold shown. rewrite Ne, selected_nil, ordered_nil. reflexivity. }
      rewrite print_run, after_after, Es.
      eexists. eexists. eexists. split; [reflexivity|].
      split; [apply prefix_of_refl|].
      split; [intros; split; reflexivity | reflexivity]. }
    fold shown. fold all.
    destruct (negb (nonempty shown)) eqn:Ns.
    { apply negb_true_iff, nonempty_false in Ns.
      rewrite bind_run, print_run, print_run, !after_after, Ns.
      eexists. eexists. eexists. split; [reflexivity|].
      split; [apply prefix_of_refl|].
      split; [intros; split; reflexivity | reflexivity]. }
    rewrite bind_run.
    set (header := if show_done then _ else _).
    assert (exists m, header = print m /\ lines [m] = []) as (m & -> & Lm).
    { unfold header. destruct show_done; eexists; split; reflexivity. }
    rewrite print_run, after_after. simpl ticks.
    destruct (String.eqb sort_by "priority" && negb (truthy filter_priority)).
    - match goal with
      | |- context [render_grouped all show_created None shown ?w1] =>
          destruct (render_grouped_run all show_created shown None w1 Hin)
            as (o & r & E & P & K & R)
      end.
      rewrite E, after_after. simpl ticks.
      eexists. exists r. eexists. rewrite <- app_assoc.
      split; [reflexivity|]. rewrite lines_app, Lm.
      split; [exact P|].
      split; [intros F; apply K, Hk, F | exact R].
    - match goal with
      | |- context [render_flat all show_created shown ?w1] =>
          destruct (render_flat_run all show_created shown w1 Hin)
            as (o & E & L)
      end.
      rewrite E, after_after. simpl ticks.
      eexists. eexists. eexists. rewrite <- app_assoc.
      split; [reflexivity|]. rewrite lines_app, Lm, L.
      split; [apply prefix_of_refl|].
      split; [intros; split; reflexivity | reflexivity]. }
  assert (printed_by
            (list_tasks clock filter_tags filter_priority sort_by show_done
                        show_created) w
          = read_error (file w) ++ o) as Ep.
  { unfold printed_by. rewrite E. simpl. apply skipn_length_app. }
  rewrite Ep, lines_app, lines_read_error, E. simpl.
  split; [exact P|]. split; [exact K | exact R].
Qed.

Lemma prefix_of_In {A : Type} (p l : list A) (a : A) :
  prefix_of p l -> In a p -> In a l.
Proof. intros [r ->] H. apply in_or_app. left. exact H. Qed.

Lemma numbered_In (all l : list task) (index : Z) (t : task) :
  In (index, t) (numbered all l) -> In t l /\ index = number_in all t.
Proof.
  unfold numbered. intros H. apply in_map_iff in H as (t' & E & H).
  inversion E; subst. split; [exact H | reflexivity].
Qed.

Lemma has_any_tag_spec (filter_tags : list string) (t : task) :
  has_any_tag filter_tags t = true
  <-> exists f x, In f filter_tags /\ In x (get_tags t) /\ lower f = lower x.
Proof.
  unfold has_any_tag. rewrite existsb_exists. split.
  - intros (f & Hf & H). apply existsb_exists in H as (y & Hy & E).
    apply in_map_iff in Hy as (x & <- & Hx). apply String.eqb_eq in E.
    exists f, x. tauto.
  - intros (f & x & Hf & Hx & E). exists f. split; [exact Hf|].
    apply existsb_exists. exists (lower x).
    split; [apply in_map, Hx | apply String.eqb_eq, E].
Qed.

Lemma filter_level_named (name : string) (lv : Z) :
  lookup (lower name) PRIORITIES = Some lv ->
  filter_level (Some name) = Some lv.
Proof.
  intros E. unfold filter_level. rewrite E.
  assert (truthy (Some name) = true) as ->.
  { destruct name; [discriminate E | reflexivity]. }
  pose proof (PRIORITIES_range _ _ E) as R.
  destruct (Z.eqb_spec lv 0); [lia | reflexivity].
Qed.

Lemma selected_spec ft fp sd (loaded : list task) (t : task) :
  In t (selected ft fp sd loaded) ->
  (sd = false -> done t = false)
  /\ (forall tags, ft = Some tags -> tags <> [] ->
                   has_any_tag tags t = true)
  /\ (forall lv, filter_level fp = Some lv -> get_priority t = lv).
Proof.
  unfold selected. intros H.
  set (l1 := if sd then loaded else filter pending loaded) in *.
  set (l2 := match ft with
             | Some tags =>
                 if nonempty tags then filter (has_any_tag tags) l1 else l1
             | None => l1
             end) in *.
  assert (In t l2) as H2.
  { destruct (filter_level fp); [apply filter_In in H|]; tauto. }
  assert (In t l1) as H1.
  { unfold l2 in H2. destruct ft as [tags|]; [|exact H2].
    destruct (nonempty tags); [apply filter_In in H2|]; tauto. }
  split; [|split].
  - intros ->. unfold l1 in H1. apply filter_In in H1 as [_ Hp].
    unfold pending in Hp. apply negb_true_iff, Hp.
  - intros tags -> Hne. unfold l2 in H2.
    destruct tags as [|x tags]; [congruence|].
    simpl in H2. apply filter_In in H2. tauto.
  - intros lv E. rewrite E in H. apply filter_In in H as [_ Hp].
    apply Z.eqb_eq, Hp.
Qed.

Lemma shown_In sort_by ft fp sd (loaded : list task) (t : task) :
  In t (ordered sort_by (selected ft fp sd loaded)) ->
  In t (selected ft fp sd loaded).
Proof.
  apply Permutation_in, Permutation_sym, ordered_perm.
Qed.

(** X1.  Every task [list_tasks] shows passes each filter in force: it is
    pending unless completed tasks were asked for, it has a tag equal to one
    of the filter tags up to case when filter tags are given, and it has
    the priority of the filter when a priority is given by one of its four
    names. *)
Theorem listing_passes_filters (clock : nat -> datetime)
  (filter_tags : option (list string)) (filter_priority : option string)
  (sort_by : string) (show_done show_created : bool) (w : world)
  (index : Z) (t : task) :
  In (index, t)
     (lines (printed_by (list_tasks clock filter_tags filter_priority sort_by
                                    show_done show_created) w)) ->
  (show_done = false -> done t = false)
  /\ (forall tags, filter_tags = Some tags -> tags <> [] ->
        exists f x, In f tags /\ In x (get_tags t) /\ lower f = lower x)
  /\ (forall name lv, filter_priority = Some name ->
        lookup (lower name) PRIORITIES = Some lv -> get_priority t = lv).
Proof.
  intros H.
  pose proof (list_tasks_lines clock filter_tags filter_priority sort_by
                show_done show_created w) as L.
  cbv zeta in L. destruct L as (loaded & _ & P & _).
  pose proof (prefix_of_In _ _ _ P H) as Hn.
  apply numbered_In in Hn as [Hs _].
  apply shown_In, selected_spec in Hs as (H1 & H2 & H3).
  split; [exact H1|]. split.
  - intros tags E Hne. apply has_any_tag_spec, (H2 tags E Hne).
  - intros name lv -> E. apply H3, filter_level_named, E.
Qed.

Lemma listing_passes_filters_witness :
  In (1, task_A)
     (lines (printed_by (list_tasks noon None (Some "LOW") "priority"
                                    false false)
                        (fresh (Stored [task_A; task_B]))))
  /\ (false = false -> done task_A = false)
  /\ (forall tags, @None (list string) = Some tags -> tags <> [] ->
        exists f x, In f tags /\ In x (get_tags task_A)
                    /\ lower f = lower x)
  /\ (forall name lv, Some "LOW" = Some name ->
        lookup (lower name) PRIORITIES = Some lv -> get_priority task_A = lv).
Proof.
  assert (In (1, task_A)
             (lines (printed_by (list_tasks noon None (Some "LOW") "priority"
                                            false false)
                                (fresh (Stored [task_A; task_B]))))) as H.
  { vm_compute. left. reflexivity. }
  split; [exact H|].
  exact (listing_passes_filters noon None (Some "LOW") "priority" false false
           (fresh (Stored [task_A; task_B])) 1 task_A H).
Defined.

(** X2.  Unless the listing includes completed tasks and has no filter,
    the number shown with a task is a number of that task in the file: the
    task stored at that place, with its missing keys filled in, is the task
    shown. *)
Theorem listing_numbers_point_at_tasks (clock : nat -> datetime)
  (filter_tags : option (list string)) (filter_priority : option string)
  (sort_by : string) (show_done show_created : bool) (w : world)
  (index : Z) (t : task) :
  same_list filter_tags filter_priority show_done = false ->
  In (index, t)
     (lines (printed_by (list_tasks clock filter_tags filter_priority sort_by
                                    show_done show_created) w)) ->
  1 <= index <= count w
  /\ exists t0,
       nth_error (stored (file w)) (Z.to_nat (index - 1)) = Some t0
       /\ filled t0 t.
Proof.
  intros Hs H.
  pose proof (list_tasks_lines clock filter_tags filter_priority sort_by
                show_done show_created w) as L.
  cbv zeta in L. destruct L as (loaded & Hl & P & _).
  rewrite Hs in P.
  pose proof (prefix_of_In _ _ _ P H) as Hn.
  apply numbered_In in Hn as [Hin ->].
  apply shown_In, selected_incl in Hin.
  destruct (number_in_place loaded t Hin) as [R E].
  pose proof (Forall2_length_eq _ _ _ Hl) as Hlen.
  split; [unfold count; rewrite <- Hlen; exact R|].
  destruct (nth_error (stored (file w)) (Z.to_nat (number_in loaded t - 1)))
    as [t0|] eqn:E0.
  - exists t0. split; [reflexivity|].
    exact (Forall2_nth _ _ _ Hl _ _ _ E0 E).
  - apply nth_error_None in E0. lia.
Qed.

Lemma listing_numbers_point_at_tasks_witness :
  same_list None None false = false
  /\ In (2, task_B)
        (lines (printed_by (list_tasks noon None None "priority" false false)
                           (fresh (Stored [task_A; task_B]))))
  /\ 1 <= 2 <= count (fresh (Stored [task_A; task_B]))
  /\ exists t0,
       nth_error (stored (file (fresh (Stored [task_A; task_B]))))
                 (Z.to_nat (2 - 1)) = Some t0
       /\ filled t0 task_B.
Proof.
  assert (In (2, task_B)
             (lines (printed_by (list_tasks noon None None "priority" false
                                            false)
                                (fresh (Stored [task_A; task_B]))))) as H.
  { vm_compute. left. reflexivity. }
  split; [reflexivity|]. split; [exact H|].
  exact (listing_numbers_point_at_tasks noon None None "priority" false false
           (fresh (Stored [task_A; task_B])) 2 task_B eq_refl H).
Defined.

Lemma priority_key_lt_true (a b : task) :
  priority_key_lt a b = true -> by_priority a b.
Proof.
  unfold priority_key_lt, by_priority. intros H.
  apply orb_true_iff in H as [H|H].
  - apply Z.ltb_lt in H. lia.
  - apply andb_true_iff in H as [H _]. apply Z.eqb_eq in H. lia.
Qed.

Lemma priority_key_lt_false (a b : task) :
  priority_key_lt a b = false -> by_priority b a.
Proof.
  unfold priority_key_lt, by_priority. intros H.
  apply orb_false_iff in H as [H _]. apply Z.ltb_ge in H. lia.
Qed.

Lemma insert_sorted_head (a b : task) (l : list task) :
  HdRel by_priority b l -> by_priority b a ->
  HdRel by_priority b (insert_sorted priority_key_lt a l).
Proof.
  intros H Ha. destruct l as [|c l]; simpl; [constructor; exact Ha|].
  destruct (priority_key_lt a c); constructor;
    [exact Ha | inversion H; assumption].
Qed.

Lemma insert_sorted_by_priority (a : task) (l : list task) :
  Sorted by_priority l ->
  Sorted by_priority (insert_sorted priority_key_lt a l).
Proof.
  induction 1 as [|b l Hl IH Hb]; simpl; [repeat constructor|].
  destruct (priority_key_lt a b) eqn:E.
  - constructor; [constructor; assumption|].
    constructor. apply priority_key_lt_true, E.
  - constructor; [exact IH|].
    apply insert_sorted_head; [exact Hb | apply priority_key_lt_false, E].
Qed.

Lemma sort_by_priority (l : list task) :
  Sorted by_priority (sort priority_key_lt l).
Proof.
  unfold sort.
  assert (forall acc, Sorted by_priority acc ->
                      Sorted by_priority
                        (fold_left
                           (fun acc a => insert_sorted priority_key_lt a acc)
                           l acc)) as H.
  { induction l as [|a l IH]; intros acc Hacc; simpl; [exact Hacc|].
    apply IH, insert_sorted_by_priority, Hacc. }
  apply H. constructor.
Qed.

Lemma Sorted_prefix {A : Type} (R : A -> A -> Prop) (p r : list A) :
  Sorted R (p ++ r) -> Sorted R p.
Proof.
  induction p as [|a p IH]; simpl; intros H; [constructor|].
  inversion H; subst. constructor; [apply IH; assumption|].
  destruct p; [constructor|]. inversion H3; subst. constructor. assumption.
Qed.

Lemma map_snd_numbered (all l : list task) : map snd (numbered all l) = l.
Proof.
  unfold numbered. rewrite map_map. simpl. apply map_id.
Qed.

Lemma prefix_of_map {A B : Type} (f : A -> B) (p l : list A) :
  prefix_of p l -> prefix_of (map f p) (map f l).
Proof. intros [r ->]. exists (map f r). apply map_app. Qed.

(** X3.  In a listing sorted by priority the priorities of the tasks shown
    never go up from one line to the next, with any filters and also when a
    group header raises and the listing stops early. *)
Theorem listing_by_priority_descends (clock : nat -> datetime)
  (filter_tags : option (list string)) (filter_priority : option string)
  (show_done show_created : bool) (w : world) :
  Sorted by_priority
    (map snd
       (lines (printed_by (list_tasks clock filter_tags filter_priority
                                      "priority" show_done show_created)
                          w))).
Proof.
  pose proof (list_tasks_lines clock filter_tags filter_priority "priority"
                show_done show_created w) as L.
  cbv zeta in L. destruct L as (loaded & _ & P & _).
  apply (prefix_of_map snd) in P. rewrite map_snd_numbered in P.
  destruct P as [r E]. apply (Sorted_prefix _ _ r). rewrite <- E.
  apply sort_by_priority.
Qed.

(** X4.  Whenever [list_tasks] returns without an exception it has shown
    every selected task exactly once: the tasks of its task lines are a
    rearrangement of the loaded tasks that pass the filters. *)
Theorem listing_shows_all_selected (clock : nat -> datetime)
  (filter_tags : option (list string)) (filter_priority : option string)
  (sort_by : string) (show_done show_created : bool) (w : world) :
  fst (list_tasks clock filter_tags filter_priority sort_by show_done
                  show_created w) = Ok tt ->
  exists loaded,
    Forall2 filled (stored (file w)) loaded
    /\ Permutation
         (selected filter_tags filter_priority show_done loaded)
         (map snd
            (lines (printed_by (list_tasks clock filter_tags filter_priority
                                           sort_by show_done show_created)
                               w))).
Proof.
  intros H.
  pose proof (list_tasks_lines clock filter_tags filter_priority sort_by
                show_done show_created w) as L.
  cbv zeta in L. destruct L as (loaded & Hl & _ & _ & R).
  exists loaded. split; [exact Hl|].
  rewrite (R H), map_snd_numbered. apply ordered_perm.
Qed.

Lemma listing_shows_all_selected_witness :
  fst (list_tasks noon None None "priority" false true
                  (fresh (Stored [task_A; task_B]))) = Ok tt
  /\ exists loaded,
       Forall2 filled (stored (file (fresh (Stored [task_A; task_B])))) loaded
       /\ Permutation
            (selected None None false loaded)
            (map snd
               (lines (printed_by (list_tasks noon None None "priority" false
                                              true)
                                  (fresh (Stored [task_A; task_B]))))).
Proof.
  assert (fst (list_tasks noon None None "priority" false true
                          (fresh (Stored [task_A; task_B]))) = Ok tt) as H
    by reflexivity.
  split; [exact H|].
  exact (listing_shows_all_selected noon None None "priority" false true
           (fresh (Stored [task_A; task_B])) H).
Defined.

(** * Removing tasks *)

Lemma remove_at_split {A : Type} (l : list A) : forall n,
  remove_at n l = firstn n l ++ skipn (S n) l.
Proof.
  induction l as [|a l IH]; intros [|n]; try reflexivity.
  change (a :: remove_at n l = a :: (firstn n l ++ skipn (S n) l)).
  rewrite IH. reflexivity.
Qed.

Lemma update_at_split {A : Type} (f : A -> A) (l : list A) : forall n a,
  nth_error l n = Some a ->
  update_at n f l = firstn n l ++ f a :: skipn (S n) l.
Proof.
  induction l as [|b l IH]; intros [|n] a H; try discriminate.
  - inversion H. reflexivity.
  - change (b :: update_at n f l
            = b :: (firstn n l ++ f a :: skipn (S n) l)).
    rewrite (IH n a H). reflexivity.
Qed.

Lemma filled_done (l l' : list task) :
  Forall2 filled l l' -> map done l' = map done l.
Proof.
  induction 1 as [|t t' l l' (_ & Hd & _) _ IH]; simpl; congruence.
Qed.

Lemma filter_done_nil (l : list task) :
  filter (fun t => done t) l = [] <-> Forall (fun t => done t = false) l.
Proof.
  induction l as [|t l IH]; simpl; [split; constructor|].
  destruct (done t) eqn:E; split; intros H.
  - discriminate.
  - inversion H; congruence.
  - constructor; [exact E | apply IH, H].
  - inversion H; apply IH; assumption.
Qed.

Lemma Forall_done_map (l l' : list task) :
  map done l' = map done l ->
  Forall (fun t => done t = false) l' -> Forall (fun t => done t = false) l.
Proof.
  revert l'. induction l as [|t l IH]; intros [|t' l'] E F; try discriminate;
    [constructor|].
  simpl in E. inversion E. inversion F; subst.
  constructor; [congruence | eapply IH; eassumption].
Qed.

Lemma filter_pending_all (l : list task) :
  Forall (fun t => done t = false) (filter (fun t => negb (done t)) l).
Proof.
  apply Forall_forall. intros t H. apply filter_In in H as [_ H].
  apply negb_true_iff, H.
Qed.

Section Clearing.
Variable clock : nat -> datetime.

(** What [clear_done] does, by whether a loaded task is completed. *)
Lemma clear_done_run (w : world) :
  exists loaded n,
    Forall2 filled (stored (file w)) loaded
    /\ ((filter (fun t => done t) loaded = []
         /\ clear_done clock w
            = (Ok tt, after w (read_error (file w) ++ [NoCompletedToClear]) n))
        \/ (filter (fun t => done t) loaded <> []
            /\ exists o,
                 clear_done clock w
                 = (Ok tt,
                    mkWorld (Stored (filter (fun t => negb (done t)) loaded))
                            (S (saves w)) (out w ++ o) n))).
Proof.
  destruct (load_tasks_run clock w) as (l & n & El & Hl).
  exists l, n. split; [exact Hl|].
  unfold clear_done. rewrite bind_run, El.
  destruct (filter (fun t => done t) l) as [|d ds] eqn:Ed; cbn [nonempty negb].
  - left. split; [reflexivity|]. rewrite print_run. unfold after. simpl.
    rewrite <- app_assoc. reflexivity.
  - right. split; [discriminate|].
    rewrite bind_run. unfold save_tasks at 1. rewrite bind_run, print_run.
    destruct (Nat.leb _ 5).
    + rewrite bind_run, print_run, print_all_run. unfold after. simpl.
      rewrite <- !app_assoc. eexists. reflexivity.
    + unfold ret, after. simpl. rewrite <- !app_assoc. eexists. reflexivity.
Qed.
End Clearing.

(** X7.  After [clear_done] a second [clear_done] has nothing to do: it
    writes nothing and the file stays as the first one left it. *)
Theorem clear_done_twice (clock : nat -> datetime) (w : world) :
  file (snd (clear_done clock (snd (clear_done clock w))))
  = file (snd (clear_done clock w))
  /\ saves (snd (clear_done clock (snd (clear_done clock w))))
     = saves (snd (clear_done clock w)).
Proof.
  destruct (clear_done_run clock w) as (l & n & Hl & Hw).
  assert (Forall (fun t => done t = false)
                 (stored (file (snd (clear_done clock w))))) as Hp.
  { destruct Hw as [[E R] | [E [o R]]]; rewrite R; simpl.
    - apply (Forall_done_map _ l); [apply filled_done, Hl|].
      apply filter_done_nil, E.
    - apply filter_pending_all. }
  destruct (clear_done_run clock (snd (clear_done clock w)))
    as (l2 & n2 & Hl2 & [[E2 R2] | [E2 _]]).
  - rewrite R2. split; reflexivity.
  - exfalso. apply E2, filter_done_nil.
    apply (Forall_done_map l2 (stored (file (snd (clear_done clock w)))));
      [symmetry; apply filled_done, Hl2 | exact Hp].
Qed.

(** * Adding and updating *)

(** X8.  [add_task] with a text that parses writes the loaded tasks with one
    task more at the end, once.  The new task is pending, has the time of
    the clock as [created], and its priority is the level the explicit
    priority names, in any case of letters, or else the priority parsed
    from the text. *)
Theorem add_task_appends (clock : nat -> datetime) (w : world)
  (d cd : string) (itags : list string) (ip : Z) (ms : list message)
  (pr : option string) (tgs : option (list string)) :
  parse_tags_and_priority d = ((Some cd, itags, ip), ms) ->
  exists w' loaded t k,
    add_task clock d pr tgs w = (Ok true, w')
    /\ Forall2 filled (stored (file w)) loaded
    /\ file w' = Stored (loaded ++ [t])
    /\ count w' = count w + 1
    /\ saves w' = S (saves w)
    /\ done t = false
    /\ created t = Some (strftime (clock k))
    /\ priority t = Some (match named_level pr with
                          | Some priority_level => priority_level
                          | None => ip
                          end).
Proof.
  intros E. unfold add_task. rewrite E.
  destruct (parse_some _ _ _ _ _ E) as (_ & _ & Hp & _ & _).
  rewrite bind_run, print_all_run.
  destruct (load_tasks_run clock
              (mkWorld (file w) (saves w) (out w ++ ms) (ticks w)))
    as (l & n & El & Hl).
  rewrite bind_run, El. simpl in Hl. cbv zeta.
  set (fp := match match pr with
                   | Some p => if truthy pr then Some (lower p) else None
                   | None => None
                   end with
             | Some k => match lookup k PRIORITIES with
                         | Some p => p
                         | None => ip
                         end
             | None => ip
             end).
  assert (fp = match named_level pr with
               | Some priority_level => priority_level
               | None => ip
               end) as Hfp.
  { unfold fp, named_level. destruct pr as [x|]; [|reflexivity].
    destruct x; reflexivity. }
  assert (1 <= fp <= 4) as Rfp.
  { rewrite Hfp. unfold named_level. destruct pr as [x|]; [|exact Hp].
    destruct (lookup (lower x) PRIORITIES) as [lv|] eqn:Elv;
      [exact (PRIORITIES_range _ _ Elv) | exact Hp]. }
  destruct (PRIORITY_NAMES_total fp Rfp) as (name & En).
  unfold bind, now, save_tasks, getitemZ. rewrite En.
  unfold print, ret. cbn [file saves out ticks].
  eexists. exists l. eexists. exists n. split; [reflexivity|].
  split; [exact Hl|]. split; [reflexivity|]. split.
  - unfold count. simpl. rewrite length_app.
    rewrite (Forall2_length_eq _ _ _ Hl). simpl. lia.
  - split; [reflexivity|]. split; [reflexivity|].
    split; [reflexivity|]. simpl. rewrite Hfp. reflexivity.
Qed.

Lemma add_task_appends_witness :
  parse_tags_and_priority "Fix bug @low #backend"
  = ((Some "Fix bug", ["backend"], 1), [])
  /\ exists w' loaded t k,
       add_task noon "Fix bug @low #backend" (Some "URGENT") None
                (fresh (Stored [task_A])) = (Ok true, w')
       /\ Forall2 filled (stored (file (fresh (Stored [task_A])))) loaded
       /\ file w' = Stored (loaded ++ [t])
       /\ count w' = count (fresh (Stored [task_A])) + 1
       /\ saves w' = S (saves (fresh (Stored [task_A])))
       /\ done t = false
       /\ created t = Some (strftime (noon k))
       /\ priority t = Some (match named_level (Some "URGENT") with
                             | Some priority_level => priority_level
                             | None => 1
                             end).
Proof.
  split; [reflexivity|].
  apply (add_task_appends noon (fresh (Stored [task_A]))
           "Fix bug @low #backend" "Fix bug" ["backend"] 1 [] (Some "URGENT")
           None).
  reflexivity.
Defined.

Lemma filled_fields (t0 t : task) :
  filled t0 t ->
  priority t = Some (get_priority t) /\ tags t = Some (get_tags t).
Proof.
  intros (_ & _ & Hp & Ht & _). unfold get_priority, get_tags.
  rewrite Hp, Ht. split; reflexivity.
Qed.

Section Updating.
Variable clock : nat -> datetime.

(** The block of [update_task] for the description, on a loaded task. *)
Lemma update_desc_run (d0 : string) (b0 : bool) (p0 : Z)
  (tg0 : list string) (c0 : option string) (d cd : string)
  (itags : list string) (ip : Z) (ms : list message) (pr : option string)
  (tg : option (list string)) (w : world) :
  parse_tags_and_priority d = ((Some cd, itags, ip), ms) ->
  exists changes o,
    update_desc (mkTask d0 b0 (Some p0) (Some tg0) c0) d pr tg w
    = (Ok (Some (mkTask cd b0
                        (Some (if truthy pr then p0 else ip))
                        (Some (match tg with
                               | Some _ => tg0
                               | None => itags
                               end))
                        c0,
                 DescChange d0 cd :: changes)),
       after w o (ticks w)).
Proof.
  intros E. unfold update_desc. rewrite E.
  destruct (parse_some _ _ _ _ _ E) as (_ & _ & Rp & _ & _).
  destruct (PRIORITY_NAMES_total ip Rp) as (name & En).
  rewrite bind_run, print_all_run.
  change (mkWorld (file w) (saves w) (out w ++ ms) (ticks w))
    with (after w ms (ticks w)).
  unfold bind, getitemZ, ret, get_priority, get_tags, set_desc,
    set_priority, set_tags, old_priority_name.
  cbn -[strings_eqb lookupZ PRIORITY_NAMES Z.eqb].
  destruct (truthy pr); destruct (Z.eqb_spec ip p0) as [Ep|Ep];
    try subst p0;
    cbn -[strings_eqb lookupZ PRIORITY_NAMES Z.eqb]; rewrite ?En;
    cbn -[strings_eqb lookupZ PRIORITY_NAMES Z.eqb];
    (destruct tg as [l|];
     [|destruct (strings_eqb itags tg0) eqn:Et;
       [apply strings_eqb_eq in Et; subst tg0|]]);
    cbn -[strings_eqb lookupZ PRIORITY_NAMES Z.eqb];
    eexists; eexists; reflexivity.
Qed.
End Updating.

Lemma loaded_task_shape (t0 t : task) :
  filled t0 t ->
  exists d0 b0 p0 tg0 c0, t = mkTask d0 b0 (Some p0) (Some tg0) c0.
Proof.
  intros (_ & _ & Hp & Ht & _). destruct t as [d0 b0 p tg c0].
  simpl in *. subst. eauto 6.
Qed.

Lemma Forall2_nth_left {A B : Type} (R : A -> B -> Prop) l l' :
  Forall2 R l l' ->
  forall j b, nth_error l' j = Some b ->
              exists a, nth_error l j = Some a /\ R a b.
Proof.
  induction 1 as [|x y l l' Hxy H IH]; intros j b Hb.
  - destruct j; discriminate.
  - destruct j; simpl in *; [inversion Hb; subst; eauto|].
    apply IH, Hb.
Qed.

(** X9.  [update_task] with a description that parses, for a task number in
    range: the task gets the cleaned description; its priority becomes the
    level an explicit priority names, stays when the explicit priority
    names none, and without an explicit priority becomes the priority
    parsed from the text, 2 when the text has no token; its tags become the
    explicit tags or else the tags parsed from the text; [done] and
    [created] stay.  The other tasks stay and the file is written once. *)
Theorem update_with_description (clock : nat -> datetime) (w : world)
  (i : Z) (d cd : string) (itags : list string) (ip : Z)
  (ms : list message) (pr : option string) (tg : option (list string)) :
  1 <= i <= count w ->
  d <> EmptyString ->
  parse_tags_and_priority d = ((Some cd, itags, ip), ms) ->
  exists w' loaded t,
    update_task clock i (Some d) pr tg w = (Ok true, w')
    /\ Forall2 filled (stored (file w)) loaded
    /\ nth_error loaded (Z.to_nat (i - 1)) = Some t
    /\ file w'
       = Stored (firstn (Z.to_nat (i - 1)) loaded
                 ++ mkTask cd (done t)
                      (Some (priority_after_update pr ip (get_priority t)))
                      (Some (match tg with
                             | Some l => l
                             | None => itags
                             end))
                      (created t)
                    :: skipn (Z.to_nat i) loaded)
    /\ saves w' = S (saves w).
Proof.
  intros Hi Hd E. unfold update_task.
  destruct (load_tasks_run clock w) as (l & n & El & Hl).
  rewrite bind_run, El.
  pose proof (Forall2_length_eq _ _ _ Hl) as Hlen.
  assert (1 <= i <= Z.of_nat (List.length l)) as Hi'.
  { unfold count in Hi. rewrite Hlen. exact Hi. }
  rewrite (proj2 (in_range_iff i l) Hi'). cbn [negb].
  rewrite bind_run.
  match goal with |- context [getitem l (i - 1) ?w1] =>
    destruct (getitem_run l i w1 Hi') as (t & Et & En) end.
  rewrite Et.
  destruct (Forall2_nth_left _ _ _ Hl _ _ En) as (t0 & _ & Hf).
  destruct (loaded_task_shape _ _ Hf) as (d0 & b0 & p0 & tg0 & c0 & ->).
  assert (truthy (Some d) = true) as ->.
  { destruct d; [congruence | reflexivity]. }
  rewrite bind_run.
  match goal with |- context [update_desc _ d pr tg ?w1] =>
    destruct (update_desc_run d0 b0 p0 tg0 c0 d cd itags ip ms pr tg w1 E)
      as (changes & o & Eu) end.
  rewrite Eu. clear Eu.
  assert (forall k lv, lookup k PRIORITIES = Some lv ->
                       negb (lv =? 0) && negb (lv =? p0) = false -> lv = p0)
    as Hsame.
  { intros k lv Elv Hc. pose proof (PRIORITIES_range _ _ Elv) as R.
    apply andb_false_iff in Hc as [Hc|Hc]; apply negb_false_iff in Hc;
      apply Z.eqb_eq in Hc; lia. }
  unfold priority_after_update, truthy, get_priority, get_tags,
    set_priority, set_tags, old_priority_name.
  destruct pr as [p|];
    [destruct (is_empty p) eqn:Tp;
     [|destruct (lookup (lower p) PRIORITIES) as [lv|] eqn:Elv;
       [destruct (negb (lv =? 0) && negb (lv =? p0)) eqn:Ec;
        [|pose proof (Hsame _ lv Elv Ec); subst lv]|]]|];
    cbn -[strings_eqb lookup PRIORITIES Z.eqb update_at];
    rewrite ?Tp, ?Elv, ?Ec;
    cbn -[strings_eqb lookup PRIORITIES Z.eqb update_at];
    (destruct tg as [x|];
     [destruct (strings_eqb x _) eqn:Ex;
      [apply strings_eqb_eq in Ex; subst x|]|]);
    cbn -[strings_eqb lookup PRIORITIES Z.eqb update_at];
    unfold bind, save_tasks, print, ret;
    rewrite print_all_run;
    (eexists; exists l; eexists;
     split; [reflexivity|]; split; [exact Hl|]; split; [exact En|];
     split; [|reflexivity]);
    cbn [file done created];
    rewrite (update_at_split _ _ _ _ En);
    replace (S (Z.to_nat (i - 1))) with (Z.to_nat i) by lia;
    reflexivity.
Qed.

Lemma update_with_description_witness :
  1 <= 1 <= count (fresh (Stored [task_B]))
  /\ "Write report #office" <> EmptyString
  /\ parse_tags_and_priority "Write report #office"
     = ((Some "Write report", ["office"], 2), [])
  /\ exists w' loaded t,
       update_task noon 1 (Some "Write report #office") None None
                   (fresh (Stored [task_B])) = (Ok true, w')
       /\ Forall2 filled (stored (file (fresh (Stored [task_B])))) loaded
       /\ nth_error loaded (Z.to_nat (1 - 1)) = Some t
       /\ file w'
          = Stored (firstn (Z.to_nat (1 - 1)) loaded
                    ++ mkTask "Write report" (done t)
                         (Some (priority_after_update None 2
                                                      (get_priority t)))
                         (Some ["office"]) (created t)
                       :: skipn (Z.to_nat 1) loaded)
       /\ saves w' = S (saves (fresh (Stored [task_B]))).
Proof.
  split; [vm_compute; split; discriminate|].
  split; [discriminate|]. split; [reflexivity|].
  apply (update_with_description noon (fresh (Stored [task_B])) 1
           "Write report #office" "Write report" ["office"] 2 [] None None).
  - vm_compute. split; discriminate.
  - discriminate.
  - reflexivity.
Defined.

Lemma updated_same (i : Z) (np : option Z) (nt : option (list string))
  (st l : list task) (tl : task) :
  1 <= i ->
  Forall2 filled st l ->
  nth_error l (Z.to_nat (i - 1)) = Some tl ->
  (forall p, np = Some p -> p = get_priority tl) ->
  (forall x, nt = Some x -> x = get_tags tl) ->
  updated i np nt st st.
Proof.
  intros Hi Hl En Hp Ht. split; [reflexivity|].
  intros j t t' E E'. assert (t' = t) as -> by congruence.
  split; [reflexivity|]. split; [reflexivity|]. split; [auto|].
  destruct (Z.eqb_spec (Z.of_nat j) (i - 1)) as [Ej|Ej];
    [|split; reflexivity].
  assert (j = Z.to_nat (i - 1)) as -> by lia.
  pose proof (Forall2_nth _ _ _ Hl _ _ _ E En) as Hf.
  destruct (filled_same _ _ Hf) as (_ & Hfp & Hft & _).
  split.
  - destruct np as [p|]; [|reflexivity]. rewrite (Hp p eq_refl). congruence.
  - destruct nt as [x|]; [|reflexivity]. rewrite (Ht x eq_refl). congruence.
Qed.

Lemma updated_written (i : Z) (np : option Z) (nt : option (list string))
  (st l : list task) (tl t3 : task) :
  1 <= i ->
  Forall2 filled st l ->
  nth_error l (Z.to_nat (i - 1)) = Some tl ->
  desc t3 = desc tl -> done t3 = done tl -> created t3 = created tl ->
  get_priority t3 = match np with Some p => p | None => get_priority tl end ->
  get_tags t3 = match nt with Some x => x | None => get_tags tl end ->
  updated i np nt st (update_at (Z.to_nat (i - 1)) (fun _ => t3) l).
Proof.
  intros Hi Hl En Hd Hb Hc Hp Ht.
  split; [rewrite length_update_at; apply (Forall2_length_eq _ _ _ Hl)|].
  intros j t t' E E'. rewrite nth_error_update_at in E'.
  rewrite (index_eqb i j) in E' by lia.
  destruct (nth_error l j) as [tj|] eqn:Ej;
    [|destruct (Z.of_nat j =? i - 1); discriminate].
  pose proof (filled_same _ _ (Forall2_nth _ _ _ Hl _ _ _ E Ej))
    as (Sd & Sp & St & Sc & Sb).
  destruct (Z.eqb_spec (Z.of_nat j) (i - 1)) as [Hj|Hj]; simpl in E';
    inversion E'; subst t'.
  - assert (j = Z.to_nat (i - 1)) as -> by lia.
    assert (tj = tl) as -> by congruence.
    rewrite Hd, Hb, Hp, Ht, Hc, Sp, St.
    split; [exact Sd|]. split; [exact Sb|]. split; [exact Sc|].
    split; reflexivity.
  - split; [exact Sd|]. split; [exact Sb|]. split; [exact Sc|].
    split; assumption.
Qed.

(** X10.  [update_task] without a description (or with the empty string),
    for a task number in range: the priority of the task becomes the level
    the explicit priority names, if it names one, and its tags become the
    explicit tags, if given, an empty list included; nothing else changes
    in any task.  The file is written once if something changed and not at
    all otherwise. *)
Theorem update_without_description (clock : nat -> datetime) (w : world)
  (i : Z) (d pr : option string) (tg : option (list string)) :
  1 <= i <= count w ->
  truthy d = false ->
  exists w' l',
    update_task clock i d pr tg w = (Ok true, w')
    /\ file w' = Stored l'
    /\ updated i (named_level pr) tg (stored (file w)) l'
    /\ ((file w' = file w /\ saves w' = saves w)
        \/ saves w' = S (saves w)).
Proof.
  intros Hi Hd. unfold update_task.
  destruct (load_tasks_run clock w) as (l & n & El & Hl).
  rewrite bind_run, El.
  pose proof (Forall2_length_eq _ _ _ Hl) as Hlen.
  assert (1 <= i <= Z.of_nat (List.length l)) as Hi'.
  { unfold count in Hi. rewrite Hlen. exact Hi. }
  rewrite (proj2 (in_range_iff i l) Hi'). cbn [negb].
  rewrite bind_run.
  match goal with |- context [getitem l (i - 1) ?w1] =>
    destruct (getitem_run l i w1 Hi') as (t & Et & En) end.
  rewrite Et.
  destruct (Forall2_nth_left _ _ _ Hl _ _ En) as (t0 & _ & Hf).
  destruct (loaded_task_shape _ _ Hf) as (d0 & b0 & p0 & tg0 & c0 & ->).
  assert ((match d with
           | Some d1 =>
               if truthy d then update_desc
                                  (mkTask d0 b0 (Some p0) (Some tg0) c0)
                                  d1 pr tg
               else ret (Some (mkTask d0 b0 (Some p0) (Some tg0) c0, []))
           | None => ret (Some (mkTask d0 b0 (Some p0) (Some tg0) c0, []))
           end)
          = ret (Some (mkTask d0 b0 (Some p0) (Some tg0) c0, []))) as ->.
  { destruct d; [rewrite Hd|]; reflexivity. }
  rewrite bind_run. unfold ret at 1.
  assert (forall k lv, lookup k PRIORITIES = Some lv ->
                       negb (lv =? 0) && negb (lv =? p0) = false -> lv = p0)
    as Hsame.
  { intros k lv Elv Hc. pose proof (PRIORITIES_range _ _ Elv) as R.
    apply andb_false_iff in Hc as [Hc|Hc]; apply negb_false_iff in Hc;
      apply Z.eqb_eq in Hc; lia. }
  assert (file w = Stored (stored (file w))) as Hfile.
  { apply stored_file. lia. }
  unfold named_level, truthy, get_priority, get_tags,
    set_priority, set_tags, old_priority_name.
  destruct pr as [p|];
    [destruct (is_empty p) eqn:Tp;
     [destruct p; [|discriminate Tp]
     |destruct (lookup (lower p) PRIORITIES) as [lv|] eqn:Elv;
       [destruct (negb (lv =? 0) && negb (lv =? p0)) eqn:Ec;
        [|pose proof (Hsame _ lv Elv Ec); subst lv]|]]|];
    cbn -[strings_eqb lookup PRIORITIES Z.eqb update_at];
    rewrite ?Elv, ?Ec;
    cbn -[strings_eqb lookup PRIORITIES Z.eqb update_at];
    (destruct tg as [x|];
     [destruct (strings_eqb x _) eqn:Ex;
      [apply strings_eqb_eq in Ex; subst x|]|]);
    cbn -[strings_eqb lookup PRIORITIES Z.eqb update_at];
    unfold bind, save_tasks, print, ret;
    rewrite ?print_all_run;
    (eexists; eexists; split; [reflexivity|]);
    cbn [file saves];
    first
      [ (split; [exact Hfile|]); split;
        [ eapply updated_same; try eassumption; try lia;
          intros ? Hq; inversion Hq; reflexivity
        | left; split; reflexivity ]
      | (split; [reflexivity|]); split;
        [ eapply updated_written; try eassumption; try lia; reflexivity
        | right; reflexivity ] ].
Qed.

Lemma update_without_description_witness :
  1 <= 1 <= count (fresh (Stored [task_A]))
  /\ truthy None = false
  /\ exists w' l',
       update_task noon 1 None (Some "high") (Some [])
                   (fresh (Stored [task_A])) = (Ok true, w')
       /\ file w' = Stored l'
       /\ updated 1 (named_level (Some "high")) (Some [])
                  (stored (file (fresh (Stored [task_A])))) l'
       /\ ((file w' = file (fresh (Stored [task_A]))
            /\ saves w' = saves (fresh (Stored [task_A])))
           \/ saves w' = S (saves (fresh (Stored [task_A])))).
Proof.
  split; [vm_compute; split; discriminate|]. split; [reflexivity|].
  apply (update_without_description noon (fresh (Stored [task_A])) 1 None
           (Some "high") (Some [])).
  - vm_compute. split; discriminate.
  - reflexivity.
Defined.

(** * Marking twice *)

Section MarkingAgain.
Variable clock : nat -> datetime.

(** When the stored task is in the state wanted already, nothing is
    written. *)
Lemma mark_done_settled (w : world) (i : Z) (t0 : task) :
  1 <= i <= count w ->
  nth_error (stored (file w)) (Z.to_nat (i - 1)) = Some t0 ->
  done t0 = true ->
  exists n,
    mark_done clock i w = (Ok true, after w [AlreadyCompleted i] n).
Proof.
  intros Hi E0 Hd. unfold mark_done.
  destruct (load_tasks_run clock w) as (l & n & El & Hl).
  rewrite bind_run, El.
  pose proof (Forall2_length_eq _ _ _ Hl) as Hlen.
  assert (1 <= i <= Z.of_nat (List.length l)) as Hi'.
  { unfold count in Hi. rewrite Hlen. exact Hi. }
  rewrite (proj2 (in_range_iff i l) Hi'). cbn [negb]. rewrite bind_run.
  match goal with |- context [getitem l (i - 1) ?w1] =>
    destruct (getitem_run l i w1 Hi') as (t & Et & En) end.
  rewrite Et.
  destruct (Forall2_nth _ _ _ Hl _ _ _ E0 En) as (_ & Hb & _).
  rewrite Hb, Hd.
  assert (read_error (file w) = []) as ->.
  { revert Hi. unfold count. destruct (file w); simpl; intros;
      try reflexivity; lia. }
  rewrite app_nil_r. exists n. reflexivity.
Qed.

Lemma mark_undone_settled (w : world) (i : Z) (t0 : task) :
  1 <= i <= count w ->
  nth_error (stored (file w)) (Z.to_nat (i - 1)) = Some t0 ->
  done t0 = false ->
  exists n,
    mark_undone clock i w = (Ok true, after w [AlreadyPending i] n).
Proof.
  intros Hi E0 Hd. unfold mark_undone.
  destruct (load_tasks_run clock w) as (l & n & El & Hl).
  rewrite bind_run, El.
  pose proof (Forall2_length_eq _ _ _ Hl) as Hlen.
  assert (1 <= i <= Z.of_nat (List.length l)) as Hi'.
  { unfold count in Hi. rewrite Hlen. exact Hi. }
  rewrite (proj2 (in_range_iff i l) Hi'). cbn [negb]. rewrite bind_run.
  match goal with |- context [getitem l (i - 1) ?w1] =>
    destruct (getitem_run l i w1 Hi') as (t & Et & En) end.
  rewrite Et.
  destruct (Forall2_nth _ _ _ Hl _ _ _ E0 En) as (_ & Hb & _).
  rewrite Hb, Hd.
  assert (read_error (file w) = []) as ->.
  { revert Hi. unfold count. destruct (file w); simpl; intros;
      try reflexivity; lia. }
  rewrite app_nil_r. exists n. reflexivity.
Qed.

Lemma marked_value (i : Z) (b : bool) (l l' : list task) :
  1 <= i <= Z.of_nat (List.length l) ->
  marked i b l l' ->
  exists t', nth_error l' (Z.to_nat (i - 1)) = Some t' /\ done t' = b.
Proof.
  intros Hi [Hlen H].
  destruct (nth_error l (Z.to_nat (i - 1))) as [t|] eqn:E;
    [|apply nth_error_None in E; lia].
  destruct (nth_error l' (Z.to_nat (i - 1))) as [t'|] eqn:E';
    [|apply nth_error_None in E'; lia].
  exists t'. split; [reflexivity|].
  destruct (H _ _ _ E E') as (_ & _ & _ & _ & Hb).
  replace (Z.of_nat (Z.to_nat (i - 1)) =? i - 1) with true in Hb;
    [exact Hb|].
  symmetry. apply Z.eqb_eq. lia.
Qed.
End MarkingAgain.

(** * Commands that return *)

Section Totals.
Variable I : world -> Prop.
Hypothesis I_stable : stable I.

Lemma total_ret {A : Type} (a : A) (Q : A -> Prop) :
  Q a -> total I (ret a) Q.
Proof. intros H w Hw. exists a, w. repeat split; assumption. Qed.

Lemma total_bind {A B : Type} (m : M A) (k : A -> M B)
  (Q : A -> Prop) (R : B -> Prop) :
  total I m Q -> (forall a, Q a -> total I (k a) R) ->
  total I (bind m k) R.
Proof.
  intros Hm Hk w Hw. destruct (Hm w Hw) as (a & w1 & E1 & I1 & Q1).
  destruct (Hk a Q1 w1 I1) as (b & w2 & E2 & I2 & R2).
  exists b, w2. rewrite bind_run, E1. repeat split; assumption.
Qed.

Lemma total_weaken {A : Type} (m : M A) (Q R : A -> Prop) :
  (forall a, Q a -> R a) -> total I m Q -> total I m R.
Proof.
  intros HQR Hm w Hw. destruct (Hm w Hw) as (a & w1 & E1 & I1 & Q1).
  exists a, w1. repeat split; auto.
Qed.

Lemma total_print (m : message) : total I (print m) any.
Proof.
  intros w Hw. eexists. eexists. split; [reflexivity|].
  split; [apply I_stable, Hw | exact Logic.I].
Qed.

Lemma total_print_all (ms : list message) : total I (print_all ms) any.
Proof.
  intros w Hw. eexists. eexists. split; [apply print_all_run|].
  split; [apply I_stable, Hw | exact Logic.I].
Qed.

Lemma total_now (clock : nat -> datetime) : total I (now clock) any.
Proof.
  intros w Hw. eexists. eexists. split; [reflexivity|].
  split; [apply I_stable, Hw | exact Logic.I].
Qed.

Lemma total_getitem {A : Type} (l : list A) (i : Z) :
  1 <= i <= Z.of_nat (List.length l) -> total I (getitem l (i - 1)) any.
Proof.
  intros Hi w Hw. destruct (getitem_run l i w Hi) as (a & E & _).
  exists a, w. repeat split; assumption.
Qed.

Lemma total_priority_name (p : Z) :
  1 <= p <= 4 -> total I (getitemZ p PRIORITY_NAMES) any.
Proof.
  intros Hp. unfold getitemZ.
  destruct (PRIORITY_NAMES_total p Hp) as (name & ->).
  apply total_ret. exact Logic.I.
Qed.

Lemma total_priority_icon (p : Z) :
  1 <= p <= 4 -> total I (getitemZ p PRIORITY_ICONS) any.
Proof.
  intros Hp. unfold getitemZ.
  assert (p = 1 \/ p = 2 \/ p = 3 \/ p = 4) as [-> | [-> | [-> | ->]]] by lia;
    apply total_ret; exact Logic.I.
Qed.

Lemma total_load (clock : nat -> datetime) : total I (load_tasks clock) any.
Proof.
  intros w Hw. destruct (load_tasks_run clock w) as (l & n & E & _).
  eexists. eexists. split; [exact E|].
  split; [apply I_stable, Hw | exact Logic.I].
Qed.
End Totals.

Ltac total_step :=
  match goal with
  | |- total _ (ret _) _ => apply total_ret; try exact Logic.I
  | |- total _ (print _) _ => apply total_print; assumption
  | |- total _ (print_all _) _ => apply total_print_all; assumption
  | |- total _ (now _) _ => apply total_now; assumption
  | |- total _ (bind _ _) _ => eapply total_bind; [|intros]
  | |- total _ (if ?b then _ else _) _ => destruct b eqn:?
  end.

Section Writing.
Variable clock : nat -> datetime.

Lemma anything_stable : stable anything.
Proof. intros w o n H. exact H. Qed.

Let S0 := anything_stable.

Lemma total_save (l : list task) : total anything (save_tasks l) any.
Proof. intros w _. eexists. eexists. repeat split. Qed.

Lemma in_range_update (i : Z) (f : task -> task) (l : list task) :
  in_range i l = true ->
  1 <= i <= Z.of_nat (List.length (update_at (Z.to_nat (i - 1)) f l)).
Proof. intros H. rewrite length_update_at. apply in_range_iff, H. Qed.

Lemma add_task_returns d pr tg : total anything (add_task clock d pr tg) any.
Proof.
  unfold add_task.
  destruct (parse_tags_and_priority d) as [[[parsed itags] ip] ms] eqn:E.
  eapply total_bind; [apply total_print_all, S0 | intros _ _].
  destruct parsed as [cd|]; [|total_step].
  destruct (parse_some _ _ _ _ _ E) as (_ & _ & Hp & _ & _).
  eapply total_bind; [apply total_load, S0 | intros tasks _].
  eapply total_bind; [apply total_now, S0 | intros t _].
  eapply total_bind; [apply total_save | intros _ _].
  eapply total_bind; [|intros; repeat total_step].
  apply total_priority_name.
  destruct pr as [x|]; [|exact Hp].
  destruct (truthy (Some x)); [|exact Hp].
  destruct (lookup (lower x) PRIORITIES) as [lv|] eqn:El;
    [exact (PRIORITIES_range _ _ El) | exact Hp].
Qed.

Lemma mark_done_returns i : total anything (mark_done clock i) any.
Proof.
  unfold mark_done.
  eapply total_bind; [apply total_load, S0 | intros tasks _].
  destruct (in_range i tasks) eqn:Hr; cbn [negb]; [|repeat total_step].
  eapply total_bind; [apply total_getitem, in_range_iff, Hr | intros t _].
  destruct (done t); [repeat total_step|].
  eapply total_bind; [apply total_save | intros _ _].
  eapply total_bind; [apply total_getitem, in_range_update, Hr|].
  intros. repeat total_step.
Qed.

Lemma mark_undone_returns i : total anything (mark_undone clock i) any.
Proof.
  unfold mark_undone.
  eapply total_bind; [apply total_load, S0 | intros tasks _].
  destruct (in_range i tasks) eqn:Hr; cbn [negb]; [|repeat total_step].
  eapply total_bind; [apply total_getitem, in_range_iff, Hr | intros t _].
  destruct (negb (done t)); [repeat total_step|].
  eapply total_bind; [apply total_save | intros _ _].
  eapply total_bind; [apply total_getitem, in_range_update, Hr|].
  intros. repeat total_step.
Qed.

Lemma delete_task_returns i : total anything (delete_task clock i) any.
Proof.
  unfold delete_task.
  eapply total_bind; [apply total_load, S0 | intros tasks _].
  destruct (in_range i tasks) eqn:Hr; cbn [negb]; [|repeat total_step].
  eapply total_bind; [apply total_getitem, in_range_iff, Hr | intros t _].
  eapply total_bind; [apply total_save | intros _ _].
  repeat total_step.
Qed.

Lemma clear_done_returns : total anything (clear_done clock) any.
Proof.
  unfold clear_done.
  eapply total_bind; [apply total_load, S0 | intros tasks _].
  destruct (negb _); [total_step|].
  eapply total_bind; [apply total_save | intros _ _].
  repeat total_step.
Qed.

Lemma update_desc_returns t d pr tg :
  total anything (update_desc t d pr tg) any.
Proof.
  unfold update_desc.
  destruct (parse_tags_and_priority d) as [[[parsed itags] ip] ms] eqn:E.
  eapply total_bind; [apply total_print_all, S0 | intros _ _].
  destruct parsed as [cd|]; [|total_step].
  destruct (parse_some _ _ _ _ _ E) as (_ & _ & Hp & _ & _).
  eapply total_bind with (Q := any).
  - destruct (_ && _); [|total_step].
    eapply total_bind; [apply total_priority_name, Hp|].
    intros. total_step.
  - intros [t' changes] _. destruct tg; [total_step|].
    destruct (negb _); total_step.
Qed.

Lemma update_task_returns i d pr tg :
  total anything (update_task clock i d pr tg) any.
Proof.
  unfold update_task.
  eapply total_bind; [apply total_load, S0 | intros tasks _].
  destruct (in_range i tasks) eqn:Hr; cbn [negb]; [|repeat total_step].
  eapply total_bind; [apply total_getitem, in_range_iff, Hr | intros t _].
  eapply total_bind with (Q := any).
  - destruct d as [d|]; [|total_step].
    destruct (truthy (Some d)); [apply update_desc_returns | total_step].
  - intros [[t1 c1]|] _; [|total_step].
    match goal with
    | |- total _ (let '(_, _) := ?x in _) _ => destruct x as [t2 c2]
    end.
    match goal with
    | |- total _ (let '(_, _) := ?x in _) _ => destruct x as [t3 c3]
    end.
    destruct (negb _); [repeat total_step|].
    eapply total_bind; [apply total_save | intros _ _].
    repeat total_step.
Qed.
End Writing.

Section Reading.
Variable clock : nat -> datetime.

Lemma priorities_known_stable : stable priorities_known.
Proof. intros w o n H. exact H. Qed.

Let P0 := priorities_known_stable.

Lemma load_known :
  total priorities_known (load_tasks clock) (Forall priority_known).
Proof.
  intros w Hw. destruct (load_tasks_run clock w) as (l & n & E & Hl).
  eexists. eexists. split; [exact E|].
  split; [exact Hw | exact (filled_priority_known _ _ Hl Hw)].
Qed.

Lemma count_priorities_returns (tasks : list task) :
  Forall priority_known tasks ->
  forall counts,
    total priorities_known (count_priorities tasks counts) any.
Proof.
  induction 1 as [|t tasks Ht Hts IH]; intros counts; simpl.
  - total_step.
  - destruct (negb (done t)); [|apply IH].
    eapply total_bind; [apply total_priority_name, Ht | intros; apply IH].
Qed.

Lemma print_priority_counts_returns (names : list string)
  (counts : list (string * nat)) :
  Forall (fun name => exists lv, lookup name PRIORITIES = Some lv) names ->
  total priorities_known (print_priority_counts names counts) any.
Proof.
  induction 1 as [|name names (lv & El) Hn IH]; simpl; [total_step|].
  destruct (lookup name counts); [|exact IH].
  unfold getitemS. rewrite El.
  eapply total_bind with (Q := fun x => x = lv);
    [apply total_ret; reflexivity | intros x ->].
  eapply total_bind;
    [apply total_priority_icon, (PRIORITIES_range _ _ El) | intros i _].
  eapply total_bind; [apply total_print, P0 | intros _ _]. exact IH.
Qed.

Lemma show_stats_returns : total priorities_known (show_stats clock) any.
Proof.
  unfold show_stats.
  eapply total_bind; [apply load_known | intros tasks Htasks].
  destruct (negb (nonempty tasks)); [repeat total_step|].
  do 6 (eapply total_bind with (Q := any); [total_step | intros _ _]).
  destruct (_ && _); [total_step|].
  eapply total_bind with (Q := any).
  - destruct (0 <? _)%nat; [|total_step].
    eapply total_bind;
      [apply count_priorities_returns, Htasks | intros counts _].
    destruct (nonempty counts); [|total_step].
    eapply total_bind with (Q := any); [total_step | intros _ _].
    apply print_priority_counts_returns.
    repeat constructor; eexists; reflexivity.
  - intros _ _.
    eapply total_bind with (Q := any); [|intros; total_step].
    destruct (nonempty _); repeat total_step.
Qed.

Lemma list_tasks_returns ft fp sort_by sd sc :
  total priorities_known (list_tasks clock ft fp sort_by sd sc) any.
Proof.
  intros w Hw.
  pose proof (list_tasks_lines clock ft fp sort_by sd sc w) as L.
  cbv zeta in L. destruct L as (loaded & Hl & _ & K & _).
  destruct (K (filled_priority_known _ _ Hl Hw)) as [E _].
  assert (untouched (file w) (saves w) w) as U by (split; reflexivity).
  destruct (proj1 (list_tasks_untouched clock (file w) (saves w) ft fp
                     sort_by sd sc w U)) as [F _].
  destruct (list_tasks clock ft fp sort_by sd sc w) as [r w'].
  simpl in *. subst r. exists tt, w'. split; [reflexivity|].
  split; [|exact Logic.I]. unfold priorities_known. rewrite F. exact Hw.
Qed.

Lemma show_welcome_returns :
  total priorities_known (show_welcome_interface clock) any.
Proof.
  unfold show_welcome_interface.
  eapply total_bind; [apply total_print, P0 | intros _ _].
  eapply total_bind; [apply load_known | intros tasks _].
  eapply total_bind with (Q := any); [|intros; total_step].
  destruct (nonempty tasks); [|total_step].
  eapply total_bind; [apply total_print, P0 | intros _ _].
  eapply total_bind; [apply list_tasks_returns | intros _ _].
  total_step.
Qed.

Lemma total_to_known {A : Type} (m : M A) :
  total anything m any -> forall w, exists a w', m w = (Ok a, w').
Proof.
  intros H w. destruct (H w Logic.I) as (a & w' & E & _). eauto.
Qed.
End Reading.

(** X13.  On a file whose tasks are objects that have [desc] and [done],
    which is what record [task] stands for, and whose stored priorities
    are all among 1..4, every command runs to its end: [main] returns exit
    status 0 for each of them, listing, statistics and the welcome screen
    included. *)
Theorem main_exits_zero (clock : nat -> datetime) (w : world)
  (cmd : command) :
  priorities_known w -> fst (main clock cmd w) = 0.
Proof.
  intros Hw.
  assert (forall (A : Type) (m : M A),
             total anything m any ->
             fst (let (r, w') := bind m (fun _ => ret tt) w in
                  match r with
                  | Ok _ => (0, w')
                  | Raise e =>
                      (1, mkWorld (file w') (saves w')
                                  (out w' ++ [UnexpectedError e]) (ticks w'))
                  end) = 0) as Hwr.
  { intros A m Hm. destruct (total_to_known m Hm w) as (a & w' & E).
    rewrite bind_run, E. reflexivity. }
  assert (forall (m : M unit),
             total priorities_known m any ->
             fst (let (r, w') := m w in
                  match r with
                  | Ok _ => (0, w')
                  | Raise e =>
                      (1, mkWorld (file w') (saves w')
                                  (out w' ++ [UnexpectedError e]) (ticks w'))
                  end) = 0) as Hrd.
  { intros m Hm. destruct (Hm w Hw) as (a & w' & E & _).
    rewrite E. reflexivity. }
  destruct cmd; unfold main, dispatch.
  - destruct (show_welcome_returns clock w Hw) as (a & w' & E & _).
    rewrite E. reflexivity.
  - reflexivity.
  - reflexivity.
  - apply Hrd, list_tasks_returns.
  - apply Hwr, add_task_returns.
  - apply Hwr, update_task_returns.
  - apply Hwr, mark_done_returns.
  - apply Hwr, mark_undone_returns.
  - apply Hwr, delete_task_returns.
  - destruct (total_to_known _ (clear_done_returns clock) w)
      as (a & w' & E).
    rewrite E. reflexivity.
  - apply Hrd, show_stats_returns.
Qed.

Lemma main_exits_zero_witness :
  priorities_known (fresh (Stored [task_A; task_B]))
  /\ fst (main noon Stats (fresh (Stored [task_A; task_B]))) = 0.
Proof.
  assert (priorities_known (fresh (Stored [task_A; task_B]))) as H.
  { repeat constructor; vm_compute; discriminate. }
  split; [exact H|].
  exact (main_exits_zero noon (fresh (Stored [task_A; task_B])) Stats H).
Defined.

(** * What is written is complete *)

Lemma complete_set_desc d t : complete t -> complete (set_desc d t).
Proof. intros H. exact H. Qed.

Lemma complete_set_done b t : complete t -> complete (set_done b t).
Proof. intros H. exact H. Qed.

Lemma complete_set_priority p t : complete t -> complete (set_priority p t).
Proof. intros (_ & H2 & H3). repeat split; try assumption. discriminate. Qed.

Lemma complete_set_tags l t : complete t -> complete (set_tags l t).
Proof. intros (H1 & _ & H3). repeat split; try assumption. discriminate. Qed.

Lemma filled_complete (l l' : list task) :
  Forall2 filled l l' -> Forall complete l'.
Proof.
  induction 1 as [|t t' l l' (_ & _ & Hp & Ht & (c & Hc) & _) _ IH];
    constructor; [|exact IH].
  unfold complete. rewrite Hp, Ht, Hc. repeat split; discriminate.
Qed.

Section Complete.
Variable clock : nat -> datetime.
Variable n0 : nat.

Lemma written_complete_stable : stable (written_complete n0).
Proof. intros w o n H. exact H. Qed.

Let W0 := written_complete_stable.

Lemma load_tasks_complete :
  triple (written_complete n0) (load_tasks clock) (Forall complete).
Proof.
  intros w Hw. destruct (load_tasks_run clock w) as (l & n & E & Hl).
  rewrite E. split; [exact Hw|].
  intros a Ea. inversion Ea; subst. exact (filled_complete _ _ Hl).
Qed.

Lemma save_tasks_complete (l : list task) :
  Forall complete l -> triple (written_complete n0) (save_tasks l) any.
Proof. intros H w _. split; [right; exact H | intros; exact Logic.I]. Qed.

Lemma add_task_complete d p tg :
  triple (written_complete n0) (add_task clock d p tg) any.
Proof.
  unfold add_task.
  destruct (parse_tags_and_priority d) as [[[parsed itags] ip] ms].
  eapply triple_bind; [apply triple_print_all, W0 | intros _ _].
  destruct parsed as [cd|]; [|triple_step].
  eapply triple_bind; [apply load_tasks_complete | intros tasks Htasks].
  eapply triple_bind; [apply triple_now, W0 | intros t _].
  eapply triple_bind.
  - apply save_tasks_complete, Forall_app. split; [exact Htasks|].
    constructor; [|constructor]. repeat split; discriminate.
  - intros _ _. repeat triple_step.
Qed.

Lemma mark_done_complete i :
  triple (written_complete n0) (mark_done clock i) any.
Proof.
  unfold mark_done.
  eapply triple_bind; [apply load_tasks_complete | intros tasks Htasks].
  destruct (negb _); [repeat triple_step|].
  eapply triple_bind with (Q := any);
    [eapply triple_any, triple_getitem, Htasks | intros t _].
  destruct (done t); [repeat triple_step|].
  eapply triple_bind.
  - apply save_tasks_complete, Forall_update_at; [exact Htasks|].
    intros a Ha. apply complete_set_done, Ha.
  - intros _ _. eapply triple_bind with (Q := any);
      [eapply triple_any, triple_getitem with (P := any), Forall_forall;
       intros; exact Logic.I |].
    intros. repeat triple_step.
Qed.

Lemma mark_undone_complete i :
  triple (written_complete n0) (mark_undone clock i) any.
Proof.
  unfold mark_undone.
  eapply triple_bind; [apply load_tasks_complete | intros tasks Htasks].
  destruct (negb (in_range _ _)); [repeat triple_step|].
  eapply triple_bind with (Q := any);
    [eapply triple_any, triple_getitem, Htasks | intros t _].
  destruct (negb (done t)); [repeat triple_step|].
  eapply triple_bind.
  - apply save_tasks_complete, Forall_update_at; [exact Htasks|].
    intros a Ha. apply complete_set_done, Ha.
  - intros _ _. eapply triple_bind with (Q := any);
      [eapply triple_any, triple_getitem with (P := any), Forall_forall;
       intros; exact Logic.I |].
    intros. repeat triple_step.
Qed.

Lemma delete_task_complete i :
  triple (written_complete n0) (delete_task clock i) any.
Proof.
  unfold delete_task.
  eapply triple_bind; [apply load_tasks_complete | intros tasks Htasks].
  destruct (negb _); [repeat triple_step|].
  eapply triple_bind with (Q := any);
    [eapply triple_any, triple_getitem, Htasks | intros t _].
  eapply triple_bind;
    [apply save_tasks_complete, Forall_remove_at, Htasks|].
  intros. repeat triple_step.
Qed.

Lemma clear_done_complete :
  triple (written_complete n0) (clear_done clock) any.
Proof.
  unfold clear_done.
  eapply triple_bind; [apply load_tasks_complete | intros tasks Htasks].
  destruct (negb _); [repeat triple_step|].
  eapply triple_bind;
    [apply save_tasks_complete, Forall_filter_keep, Htasks|].
  intros. repeat triple_step.
Qed.

Lemma update_desc_complete t d p tg :
  complete t ->
  triple (written_complete n0) (update_desc t d p tg) changed_complete.
Proof.
  intros Ht. unfold update_desc.
  destruct (parse_tags_and_priority d) as [[[parsed itags] ip] ms].
  eapply triple_bind; [apply triple_print_all, W0 | intros _ _].
  destruct parsed as [cd|]; [|apply triple_ret; exact Logic.I].
  pose proof (complete_set_desc cd t Ht) as H1.
  eapply triple_bind with (Q := fun tc => complete (fst tc)).
  - destruct (_ && _); [|apply triple_ret; exact H1].
    eapply triple_bind; [apply triple_getitemZ | intros n _].
    apply triple_ret. simpl. apply complete_set_priority, H1.
  - intros [t' changes] H2. simpl in H2.
    destruct tg; [apply triple_ret; exact H2|].
    destruct (negb _); apply triple_ret; simpl;
      [apply complete_set_tags, H2 | exact H2].
Qed.

Lemma update_task_complete i d p tg :
  triple (written_complete n0) (update_task clock i d p tg) any.
Proof.
  unfold update_task.
  eapply triple_bind; [apply load_tasks_complete | intros tasks Htasks].
  destruct (negb _); [repeat triple_step|].
  eapply triple_bind; [apply triple_getitem, Htasks | intros t Ht].
  eapply triple_bind with (Q := changed_complete).
  - destruct d as [d|]; [|apply triple_ret; exact Ht].
    destruct (truthy (Some d));
      [apply update_desc_complete, Ht | apply triple_ret; exact Ht].
  - intros [[t1 c1]|] H1; [simpl in H1 | triple_step].
    set (r2 := match p with Some _ => _ | None => _ end).
    assert (complete (fst r2)) as H2.
    { unfold r2. destruct p as [x|]; [|exact H1].
      destruct (truthy (Some x)); [|exact H1].
      destruct (lookup (lower x) PRIORITIES) as [lv|]; [|exact H1].
      destruct (_ && _); [|exact H1].
      simpl. apply complete_set_priority, H1. }
    destruct r2 as [t2 c2]. simpl in H2.
    set (r3 := match tg with Some _ => _ | None => _ end).
    assert (complete (fst r3)) as H3.
    { unfold r3. destruct tg as [l|]; [|exact H2].
      destruct (negb _); [|exact H2].
      simpl. apply complete_set_tags, H2. }
    destruct r3 as [t3 c3]. simpl in H3.
    destruct (negb _); [repeat triple_step|].
    eapply triple_bind.
    + apply save_tasks_complete, Forall_update_at; [exact Htasks|].
      intros; exact H3.
    + intros. repeat triple_step.
Qed.
End Complete.

(** X14.  Whenever one of the commands that change the list writes the
    file, every task in the file has the keys [priority], [tags] and
    [created]: what [load_tasks] filled in is written with the next save,
    and nothing writes a task without one of the three. *)
Theorem written_files_complete (clock : nat -> datetime) (w : world)
  (i : Z) (text : string) (d pr : option string)
  (tg : option (list string)) :
  let written (r : world) :=
    saves r <> saves w -> Forall complete (stored (file r)) in
  written (snd (add_task clock text pr tg w))
  /\ written (snd (update_task clock i d pr tg w))
  /\ written (snd (mark_done clock i w))
  /\ written (snd (mark_undone clock i w))
  /\ written (snd (delete_task clock i w))
  /\ written (snd (clear_done clock w)).
Proof.
  assert (forall (A : Type) (m : M A),
             triple (written_complete (saves w)) m any ->
             saves (snd (m w)) <> saves w ->
             Forall complete (stored (file (snd (m w))))) as H.
  { intros A m Hm Hs.
    destruct (proj1 (Hm w (or_introl eq_refl))) as [E|E];
      [congruence | exact E]. }
  cbv zeta.
  split; [apply H, add_task_complete|].
  split; [apply H, update_task_complete|].
  split; [apply H, mark_done_complete|].
  split; [apply H, mark_undone_complete|].
  split; [apply H, delete_task_complete|].
  apply H, clear_done_complete.
Qed.

Lemma written_files_complete_witness :
  Forall complete
         (stored (file (snd (add_task noon "Fix #api" None None
                                      (fresh (Stored [task_D])))))).
Proof.
  apply (written_files_complete noon (fresh (Stored [task_D])) 1 "Fix #api"
           None None None).
  vm_compute. discriminate.
Defined.

(** * More on the parser *)

Lemma starts_word_take (r : string) :
  starts_word r = true -> take_while is_word r <> EmptyString.
Proof.
  destruct r as [|a r]; simpl; [discriminate|].
  intros ->. discriminate.
Qed.

Lemma findall_from_nonempty (c : ascii) (s : string) : forall skip,
  Forall (fun w => w <> EmptyString) (findall_from c skip s).
Proof.
  induction s as [|a s IH]; intros skip; simpl; [constructor|].
  destruct skip as [|k]; [|apply IH].
  destruct (at_match c a s) eqn:E; [|apply IH].
  apply andb_true_iff in E as [_ E].
  constructor; [apply starts_word_take, E | apply IH].
Qed.

(** X15.  Every tag the parser returns is a non-empty run of word
    characters: it holds no white space, no [#] and no [@]. *)
Theorem parsed_tags_are_words (d : string) :
  Forall (fun tag => tag <> EmptyString /\ all_chars is_word tag = true)
         (inline_tags (parse_tags_and_priority d)).
Proof.
  destruct (parse_cases d) as (p & warning & d2 & _ & E). rewrite E.
  destruct (is_empty _); unfold inline_tags; simpl; [constructor|].
  apply Forall_forall. intros tag H. split.
  - pose proof (findall_from_nonempty hash d O) as F.
    rewrite Forall_forall in F. apply F, H.
  - pose proof (findall_from_words hash d O) as F.
    rewrite Forall_forall in F. apply F, H.
Qed.

(** X16.  A description the parser returns is in normal form: stripping it
    or collapsing its white space again changes nothing, and it is not
    blank. *)
Theorem cleaned_is_normalised (d cd : string) :
  cleaned (parse_tags_and_priority d) = Some cd ->
  strip cd = cd /\ join " " (split cd) = cd /\ blank cd = false.
Proof.
  destruct (parse_tags_and_priority d) as [[[c tg] p] ms] eqn:E.
  unfold cleaned. simpl. intros ->.
  destruct (parse_some _ _ _ _ _ E) as (Hb & _ & _ & _ & ws & Hw & ->).
  split; [apply strip_join, Hw|]. split; [|exact Hb].
  rewrite (split_join ws Hw). reflexivity.
Qed.

Lemma cleaned_is_normalised_witness :
  cleaned (parse_tags_and_priority "  Fix   the bug  @urgent #backend ")
  = Some "Fix the bug"
  /\ strip "Fix the bug" = "Fix the bug"
  /\ join " " (split "Fix the bug") = "Fix the bug"
  /\ blank "Fix the bug" = false.
Proof.
  split; [reflexivity|].
  apply (cleaned_is_normalised "  Fix   the bug  @urgent #backend "
           "Fix the bug").
  reflexivity.
Defined.

Lemma split_aux_lstrip (s : string) : split (lstrip s) = split s.
Proof.
  unfold lstrip, split. induction s as [|a s IH]; [reflexivity|].
  simpl. destruct (is_space a) eqn:E.
  - rewrite IH. destruct (split_aux s) as [w ws]. reflexivity.
  - simpl. rewrite E. reflexivity.
Qed.

Lemma split_aux_rstrip (s : string) : split_aux (rstrip s) = split_aux s.
Proof.
  induction s as [|a s IH]; [reflexivity|].
  cbn [rstrip]. destruct (rstrip s) as [|b r'] eqn:Er.
  - cbn [split_aux] in *. rewrite <- IH.
    destruct (is_space a) eqn:E; simpl; rewrite ?E; reflexivity.
  - cbn [split_aux] in *. rewrite <- IH. reflexivity.
Qed.

Lemma split_strip (s : string) : split (strip s) = split s.
Proof.
  unfold strip. rewrite <- (split_aux_lstrip s). unfold split.
  rewrite split_aux_rstrip. reflexivity.
Qed.

Lemma split_aux_blank (s : string) :
  blank s = true <-> split_aux s = (EmptyString, []).
Proof.
  unfold blank. induction s as [|a s IH]; simpl; [tauto|].
  destruct (split_aux s) as [w ws].
  destruct (is_space a); simpl.
  - rewrite IH. split.
    + intros E. inversion E. reflexivity.
    + intros E. inversion E as [E'].
      destruct w; simpl in E'; [subst; reflexivity | discriminate].
  - split; discriminate.
Qed.

Lemma is_empty_clean (s : string) :
  is_empty (join " " (split s)) = blank s.
Proof.
  destruct (blank s) eqn:E.
  - apply split_aux_blank in E. unfold split. rewrite E. reflexivity.
  - destruct (is_empty (join " " (split s))) eqn:Ej; [|reflexivity].
    apply is_empty_true, (join_empty _ (split_words s)) in Ej.
    assert (blank s = true) as Hb; [|congruence].
    apply split_aux_blank. unfold split in Ej.
    pose proof (split_aux_ok s) as [Hw _].
    destruct (split_aux s) as [w ws]. simpl in *.
    destruct w; simpl in Ej; [subst; reflexivity | discriminate].
Qed.

Lemma starts_word_rstrip (s : string) :
  starts_word (rstrip s) = true -> starts_word s = true.
Proof.
  destruct (rstrip s) as [|b r] eqn:E; [discriminate|].
  destruct (rstrip_head _ _ _ E) as (s' & ->). tauto.
Qed.

Lemma no_token_rstrip (c : ascii) (s : string) :
  has_token c s = false -> has_token c (rstrip s) = false.
Proof.
  induction s as [|a s IH]; [tauto|].
  cbn [has_token]. intros H. apply orb_false_iff in H as [H1 H2].
  specialize (IH H2). cbn [rstrip].
  assert (at_match c a (rstrip s) = false) as H3.
  { unfold at_match in *. destruct (Ascii.eqb a c); [|reflexivity].
    simpl in *. destruct (starts_word (rstrip s)) eqn:E; [|reflexivity].
    apply starts_word_rstrip in E. congruence. }
  destruct (rstrip s) as [|b r] eqn:Er.
  - destruct (is_space a); [reflexivity|].
    cbn [has_token]. unfold at_match. simpl.
    rewrite andb_false_r. reflexivity.
  - change (has_token c (String a (String b r)))
      with (at_match c a (String b r) || has_token c (String b r))%bool.
    rewrite H3, IH. reflexivity.
Qed.

Lemma no_token_lstrip (c : ascii) (s : string) :
  has_token c s = false -> has_token c (lstrip s) = false.
Proof.
  unfold lstrip. induction s as [|a s IH]; simpl; [tauto|]. intros H.
  destruct (is_space a); [|exact H].
  apply orb_false_iff in H as [_ H]. auto.
Qed.

(** X17.  A text without tokens, that is with no [#] and no [@] that a
    word character follows, only has its white space normalised: if it is
    blank the parser fails and prints the error with the text; otherwise it
    returns the words of the text joined by single spaces, no tags,
    priority 2, and prints nothing. *)
Theorem plain_text_parse (d : string) :
  has_token hash d = false ->
  has_token at_sign d = false ->
  parse_tags_and_priority d
  = if blank d
    then ((None, [], 2), [EmptyDescription d])
    else ((Some (join " " (split d)), [], 2), []).
Proof.
  intros Hh Ha. unfold parse_tags_and_priority.
  rewrite (no_token_findall _ _ Hh), (no_token_sub _ _ Hh).
  assert (has_token at_sign (strip d) = false) as Hs
    by (apply no_token_rstrip, no_token_lstrip, Ha).
  rewrite (no_token_search _ _ Hs), split_strip, is_empty_clean.
  reflexivity.
Qed.

Lemma plain_text_parse_witness :
  has_token hash "  call   Bob # 5 " = false
  /\ has_token at_sign "  call   Bob # 5 " = false
  /\ parse_tags_and_priority "  call   Bob # 5 "
     = if blank "  call   Bob # 5 "
       then ((None, [], 2), [EmptyDescription "  call   Bob # 5 "])
       else ((Some (join " " (split "  call   Bob # 5 ")), [], 2), []).
Proof.
  split; [reflexivity|]. split; [reflexivity|].
  apply (plain_text_parse "  call   Bob # 5 "); reflexivity.
Defined.

(** * The statistics *)

Lemma tag_lines_app (o1 o2 : list message) :
  tag_lines (o1 ++ o2) = tag_lines o1 ++ tag_lines o2.
Proof.
  induction o1 as [|m o1 IH]; [reflexivity|].
  destruct m; simpl; rewrite IH; reflexivity.
Qed.

Lemma tag_lines_map (l : list (string * nat)) :
  tag_lines (map (fun tc => TagCount (fst tc) (snd tc)) l) = l.
Proof.
  induction l as [|[k n] l IH]; simpl; [|rewrite IH]; reflexivity.
Qed.

Lemma tag_lines_In (tag : string) (n : nat) (o : list message) :
  In (TagCount tag n) o <-> In (tag, n) (tag_lines o).
Proof.
  induction o as [|m o IH]; simpl; [tauto|].
  destruct m; simpl; rewrite <- IH;
    try (split; [intros [H|H]; [discriminate | exact H] | tauto]).
  split; (intros [H|H]; [left; inversion H; reflexivity | right; exact H]).
Qed.

Lemma tag_lines_read_error (f : file_state) : tag_lines (read_error f) = [].
Proof. destruct f; reflexivity. Qed.

(** ** Counting in a dictionary *)

Lemma lookup_bump_same (k : string) (d : list (string * nat)) :
  lookup k (bump k d) = Some (S (tally d k)).
Proof.
  unfold tally. induction d as [|[k0 n] d IH]; simpl.
  - rewrite String.eqb_refl. reflexivity.
  - destruct (String.eqb k k0) eqn:E; simpl; rewrite E;
      [reflexivity | exact IH].
Qed.

Lemma lookup_bump_other (k k' : string) (d : list (string * nat)) :
  k' <> k -> lookup k' (bump k d) = lookup k' d.
Proof.
  intros Hk. induction d as [|[k0 n] d IH]; simpl.
  - apply String.eqb_neq in Hk. rewrite Hk. reflexivity.
  - destruct (String.eqb k k0) eqn:E; simpl.
    + apply String.eqb_eq in E. subst k0.
      apply String.eqb_neq in Hk. rewrite Hk. reflexivity.
    + rewrite IH. reflexivity.
Qed.

Lemma tally_bump (k k' : string) (d : list (string * nat)) :
  tally (bump k d) k'
  = (tally d k' + if String.eqb k k' then 1 else 0)%nat.
Proof.
  destruct (String.eqb k k') eqn:E.
  - apply String.eqb_eq in E. subst k'. unfold tally at 1.
    rewrite lookup_bump_same. lia.
  - apply String.eqb_neq in E. unfold tally.
    rewrite lookup_bump_other by congruence. lia.
Qed.

Lemma positive_nil : positive [].
Proof. intros k n H. discriminate H. Qed.

Lemma positive_bump (k : string) (d : list (string * nat)) :
  positive d -> positive (bump k d).
Proof.
  intros H k' n. destruct (string_dec k' k) as [->|Hk].
  - rewrite lookup_bump_same. intros E. inversion E. lia.
  - rewrite lookup_bump_other by exact Hk. apply H.
Qed.

Lemma bump_keys (k k' : string) (d : list (string * nat)) :
  In k' (map fst (bump k d)) -> k' = k \/ In k' (map fst d).
Proof.
  induction d as [|[k0 n] d IH]; simpl.
  - intros [H|[]]. left. congruence.
  - destruct (String.eqb k k0); simpl; [tauto|].
    intros [H|H]; [tauto|]. destruct (IH H); tauto.
Qed.

Lemma NoDup_bump (k : string) (d : list (string * nat)) :
  NoDup (map fst d) -> NoDup (map fst (bump k d)).
Proof.
  induction d as [|[k0 n] d IH]; simpl; intros H.
  - constructor; [intros [] | constructor].
  - destruct (String.eqb k k0) eqn:E; simpl; [exact H|].
    inversion H; subst. constructor; [|apply IH; assumption].
    intros Hin. apply bump_keys in Hin as [->|Hin]; [|contradiction].
    rewrite String.eqb_refl in E. discriminate.
Qed.

Lemma In_lookup (k : string) (n : nat) (d : list (string * nat)) :
  NoDup (map fst d) -> In (k, n) d -> lookup k d = Some n.
Proof.
  induction d as [|[k0 n0] d IH]; simpl; intros Hd H; [contradiction|].
  destruct H as [H|H].
  - inversion H; subst. rewrite String.eqb_refl. reflexivity.
  - inversion Hd; subst.
    destruct (String.eqb k k0) eqn:E; [|apply IH; assumption].
    apply String.eqb_eq in E. subst k0.
    exfalso. apply H2. apply (in_map fst) in H. exact H.
Qed.

Section Counting.
Variable I : list (string * nat) -> Prop.
Hypothesis I_bump : forall k d, I d -> I (bump k d).

Lemma fold_bump_inv (l : list string) : forall d,
  I d -> I (fold_left (fun d tag => bump tag d) l d).
Proof. induction l as [|k l IH]; simpl; auto. Qed.

Lemma count_tags_inv (tasks : list task) : forall d,
  I d -> I (count_tags tasks d).
Proof.
  induction tasks as [|t tasks IH]; simpl; [auto|]. intros d H.
  destruct (negb (done t)); apply IH; [apply fold_bump_inv|]; exact H.
Qed.
End Counting.

Lemma tally_fold_bump (k : string) (l : list string) : forall d,
  tally (fold_left (fun d tag => bump tag d) l d) k
  = (tally d k + count_occ string_dec l k)%nat.
Proof.
  induction l as [|a l IH]; intros d; simpl; [lia|].
  rewrite IH, tally_bump.
  destruct (string_dec a k) as [->|Hk].
  - rewrite String.eqb_refl. lia.
  - apply String.eqb_neq in Hk. rewrite Hk. lia.
Qed.

Lemma tally_count_tags (k : string) (tasks : list task) : forall d,
  tally (count_tags tasks d) k = (tally d k + tag_total k tasks)%nat.
Proof.
  unfold tag_total.
  induction tasks as [|t tasks IH]; intros d; simpl; [lia|].
  unfold pending at 1. destruct (negb (done t)); simpl; rewrite IH; [|lia].
  rewrite tally_fold_bump, count_occ_app. lia.
Qed.

Lemma count_tags_filled (l l' : list task) :
  Forall2 filled l l' -> forall d, count_tags l' d = count_tags l d.
Proof.
  induction 1 as [|t t' l l' (_ & Hd & _ & Ht & _) _ IH]; intros d;
    [reflexivity|].
  simpl. unfold get_tags at 1. rewrite Hd, Ht, !IH. reflexivity.
Qed.

Lemma level_total_filled (name : string) (l l' : list task) :
  Forall2 filled l l' -> level_total name l' = level_total name l.
Proof.
  unfold level_total.
  induction 1 as [|t t' l l' (_ & Hd & Hp & _) _ IH]; [reflexivity|].
  assert (pending t' && named name t' = pending t && named name t) as E.
  { unfold pending, named, get_priority. rewrite Hd, Hp. reflexivity. }
  cbn [filter]. rewrite E.
  destruct (pending t && named name t); cbn [List.length]; rewrite IH;
    reflexivity.
Qed.

Lemma filter_done_filled (l l' : list task) :
  Forall2 filled l l' ->
  List.length (filter (fun t => done t) l')
  = List.length (filter (fun t => done t) l).
Proof.
  induction 1 as [|t t' l l' (_ & Hd & _) _ IH]; [reflexivity|].
  simpl. rewrite Hd. destruct (done t); simpl; rewrite IH; reflexivity.
Qed.

(** ** Sorting by a key *)

Section SortedBy.
Context {A : Type}.
Variable R : A -> A -> Prop.
Variable lt : A -> A -> bool.
Hypothesis lt_true : forall a b, lt a b = true -> R a b.
Hypothesis lt_false : forall a b, lt a b = false -> R b a.

Lemma insert_sorted_Sorted (a : A) (l : list A) :
  Sorted R l -> Sorted R (insert_sorted lt a l).
Proof.
  induction l as [|b l IH]; simpl; intros H.
  - repeat constructor.
  - destruct (lt a b) eqn:E.
    + constructor; [exact H|]. constructor. apply lt_true, E.
    + inversion H as [|? ? Hs Hh]; subst.
      constructor; [apply IH, Hs|].
      destruct l as [|c l]; simpl.
      * constructor. apply lt_false, E.
      * destruct (lt a c); constructor;
          [apply lt_false, E | inversion Hh; assumption].
Qed.

Lemma sort_Sorted (l : list A) : Sorted R (sort lt l).
Proof.
  unfold sort.
  assert (forall acc, Sorted R acc ->
            Sorted R (fold_left (fun acc a => insert_sorted lt a acc) l acc))
    as H.
  { induction l as [|a l IH]; simpl; intros acc Hacc; [exact Hacc|].
    apply IH, insert_sorted_Sorted, Hacc. }
  apply H. constructor.
Qed.
End SortedBy.

Lemma sort_by_count (d : list (string * nat)) :
  Sorted by_count (sort count_key_lt d).
Proof.
  apply sort_Sorted; unfold count_key_lt, by_count; intros a b H.
  - apply Nat.ltb_lt in H. lia.
  - apply Nat.ltb_ge in H. exact H.
Qed.

Lemma In_firstn {A : Type} (n : nat) (l : list A) (a : A) :
  In a (firstn n l) -> In a l.
Proof.
  intros H. rewrite <- (firstn_skipn n l). apply in_or_app. left. exact H.
Qed.

Lemma NoDup_firstn {A : Type} (n : nat) (l : list A) :
  NoDup l -> NoDup (firstn n l).
Proof.
  intros H. rewrite <- (firstn_skipn n l) in H.
  apply NoDup_app_remove_r in H. exact H.
Qed.

(** ** The run of [show_stats] *)

Lemma count_priorities_run (tasks : list task) : forall d w,
  exists r,
    count_priorities tasks d w = (r, w)
    /\ (Exists unknown_pending tasks -> r = Raise KeyError)
    /\ forall counts, r = Ok counts ->
         (positive d -> positive counts)
         /\ forall name,
              tally counts name = (tally d name + level_total name tasks)%nat.
Proof.
  unfold level_total, unknown_pending.
  induction tasks as [|t tasks IH]; intros d w; cbn [count_priorities].
  - exists (Ok d). split; [reflexivity|].
    split; [intros H; inversion H|]. intros counts E.
    inversion E; subst. split; [tauto|]. intros name. simpl. lia.
  - cbn [filter]. unfold pending at 1.
    destruct (done t) eqn:Ed; cbn [negb andb].
    { destruct (IH d w) as (r & E & Hx & H). exists r.
      split; [exact E|]. split; [|exact H].
      intros Hu. apply Hx. inversion Hu as [? ? [Hd _]|]; subst;
        [congruence | assumption]. }
    rewrite bind_run. unfold getitemZ, named at 1.
    destruct (lookupZ (get_priority t) PRIORITY_NAMES) as [s|] eqn:En.
    + unfold ret at 1.
      destruct (IH (bump s d) w) as (r & E & Hx & H). exists r.
      split; [exact E|]. split.
      { intros Hu. apply Hx. inversion Hu as [? ? [_ Hn]|]; subst;
          [congruence | assumption]. }
      intros counts Er.
      destruct (H counts Er) as [Hp Ht]. split.
      * intros Hd. apply Hp, positive_bump, Hd.
      * intros name. rewrite Ht, tally_bump.
        destruct (String.eqb s name); simpl; lia.
    + exists (Raise KeyError). split; [reflexivity|].
      split; [reflexivity | discriminate].
Qed.

Lemma print_priority_counts_run (counts : list (string * nat))
  (names : list string) :
  Forall (fun name => exists lv i, lookup name PRIORITIES = Some lv
                                   /\ lookupZ lv PRIORITY_ICONS = Some i)
         names ->
  forall w,
  exists o,
    print_priority_counts names counts w = (Ok tt, after w o (ticks w))
    /\ tag_lines o = []
    /\ Forall (priority_line_ok (fun name n => lookup name counts = Some n))
              o.
Proof.
  induction 1 as [|name names (lv & i & El & Ei) _ IH]; intros w;
    cbn [print_priority_counts].
  - exists []. rewrite after_nil. repeat split. constructor.
  - destruct (lookup name counts) as [n|] eqn:En; [|apply IH].
    rewrite bind_run. unfold getitemS. rewrite El. unfold ret at 1.
    rewrite bind_run. unfold getitemZ. rewrite Ei. unfold ret at 1.
    rewrite bind_run, print_run.
    destruct (IH (after w [PriorityCount i name n] (ticks w)))
      as (o & E & Ht & Hp).
    rewrite E. cbn [ticks after]. 
    exists (PriorityCount i name n :: o).
    split; [unfold after; simpl; rewrite <- app_assoc; reflexivity|].
    split; [exact Ht|].
    constructor; [|exact Hp]. simpl. split; [exact En|].
    exists lv. split; assumption.
Qed.

Lemma tag_part_run (P : string -> nat -> Prop) (d : list (string * nat))
  (w : world) :
  exists o,
    (if nonempty d
     then
       print CategoriesHeader ;;
       print_all (map (fun tc => TagCount (fst tc) (snd tc))
                      (firstn 5 (sort count_key_lt d)))
     else ret tt) w
    = (Ok tt, after w o (ticks w))
    /\ tag_lines o = firstn 5 (sort count_key_lt d)
    /\ Forall (priority_line_ok P) o.
Proof.
  destruct (nonempty d) eqn:E.
  - rewrite bind_run, print_run, print_all_run.
    exists (CategoriesHeader
            :: map (fun tc => TagCount (fst tc) (snd tc))
                   (firstn 5 (sort count_key_lt d))).
    split; [unfold after; simpl; rewrite <- app_assoc; reflexivity|].
    split; [simpl; apply tag_lines_map|].
    constructor; [exact Logic.I|].
    apply Forall_forall. intros m Hm.
    apply in_map_iff in Hm as (tc & <- & _). exact Logic.I.
  - apply nonempty_false in E. subst d. exists [].
    rewrite after_nil. repeat split. constructor.
Qed.

Lemma priority_part_run (tasks : list task) (pending_count : nat)
  (w : world) :
  exists r o,
    (if (0 <? pending_count)%nat
     then
       priority_counts <- count_priorities tasks [] ;;
       if nonempty priority_counts
       then
         print AttentionHeader ;;
         print_priority_counts ["urgent"; "high"; "normal"; "low"]
                               priority_counts
       else ret tt
     else ret tt) w
    = (r, after w o (ticks w))
    /\ tag_lines o = []
    /\ Forall (priority_line_ok
                 (fun name n => n = level_total name tasks /\ (1 <= n)%nat))
              o
    /\ ((0 < pending_count)%nat -> Exists unknown_pending tasks ->
        r = Raise KeyError /\ o = []).
Proof.
  destruct (0 <? pending_count)%nat eqn:Epos.
  - rewrite bind_run.
    destruct (count_priorities_run tasks [] w) as (r & E & Hx & H).
    rewrite E.
    destruct r as [counts|e].
    + destruct (H counts eq_refl) as [Hp Ht].
      specialize (Hp positive_nil).
      destruct (nonempty counts).
      * rewrite bind_run, print_run.
        destruct (print_priority_counts_run counts
                    ["urgent"; "high"; "normal"; "low"]
                    ltac:(repeat constructor; eexists; eexists;
                          split; reflexivity)
                    (after w [AttentionHeader] (ticks w)))
          as (o & Eo & Hl & Hc).
        rewrite Eo. cbn [ticks after].
        exists (Ok tt), (AttentionHeader :: o).
        split; [unfold after; simpl; rewrite <- app_assoc; reflexivity|].
        split; [exact Hl|].
        split; [|intros _ Hu; discriminate (Hx Hu)].
        constructor; [exact Logic.I|].
        eapply Forall_impl; [|exact Hc].
        intros [] Hm; try exact Logic.I. simpl in *.
        destruct Hm as (Hn & Hlv). split; [|exact Hlv].
        split; [|apply (Hp _ _ Hn)].
        specialize (Ht priority_name). unfold tally in Ht.
        rewrite Hn in Ht. simpl in Ht. exact Ht.
      * exists (Ok tt), []. rewrite after_nil.
        split; [reflexivity|]. split; [reflexivity|].
        split; [constructor|]. intros _ Hu. discriminate (Hx Hu).
    + exists (Raise e), []. rewrite after_nil.
      split; [reflexivity|]. split; [reflexivity|].
      split; [constructor|]. intros _ Hu. pose proof (Hx Hu) as He.
      inversion He. split; reflexivity.
  - exists (Ok tt), []. rewrite after_nil.
    split; [reflexivity|]. split; [reflexivity|].
    split; [constructor|]. intros Hp. apply Nat.ltb_ge in Epos. lia.
Qed.

Lemma count_tags_all_done (l : list task) : forall d,
  List.length (filter (fun t => done t) l) = List.length l ->
  count_tags l d = d.
Proof.
  induction l as [|t l IH]; intros d; simpl; [reflexivity|].
  destruct (done t); simpl; intros H.
  - apply IH. lia.
  - pose proof (filter_length_le (fun t => done t) l). lia.
Qed.

Lemma Exists_pending_length (l : list task) :
  Exists unknown_pending l ->
  (List.length (filter (fun t => done t) l) < List.length l)%nat.
Proof.
  induction 1 as [t l [Hd _]|t l _ IH]; simpl.
  - rewrite Hd. pose proof (filter_length_le (fun t => done t) l). lia.
  - destruct (done t); simpl; [lia|].
    pose proof (filter_length_le (fun t => done t) l). lia.
Qed.

Lemma ticks_after (w : world) (o : list message) (n : nat) :
  ticks (after w o n) = n.
Proof. reflexivity. Qed.

Section Statistics.
Variable clock : nat -> datetime.

(** What [show_stats] prints: the tag lines are the first five tags by
    count, or none; every priority line shows the count of its level; and
    the head of the output. *)
Lemma show_stats_run (w : world) :
  exists loaded r o n,
    Forall2 filled (stored (file w)) loaded
    /\ show_stats clock w = (r, after w (read_error (file w) ++ o) n)
    /\ (tag_lines o = []
        \/ tag_lines o
           = firstn 5 (sort count_key_lt (count_tags loaded [])))
    /\ (r = Ok tt ->
        tag_lines o = firstn 5 (sort count_key_lt (count_tags loaded [])))
    /\ Forall (priority_line_ok
                 (fun name n => n = level_total name loaded /\ (1 <= n)%nat))
              o
    /\ (loaded = [] -> r = Ok tt /\ o = [NoTasksToAnalyze; StartHint])
    /\ (loaded <> [] ->
        let total := List.length loaded in
        let finished := List.length (filter (fun t => done t) loaded) in
        exists rest,
          o = dashboard_head finished total ++ rest
          /\ (total = finished -> r = Ok tt /\ rest = [AllCompleted])
          /\ (Exists unknown_pending loaded ->
              r = Raise KeyError /\ rest = [])).
Proof.
  destruct (load_tasks_run clock w) as (loaded & n & E & Hf).
  exists loaded. unfold show_stats. rewrite bind_run, E.
  change (mkWorld (file w) (saves w) (out w ++ read_error (file w)) n)
    with (after w (read_error (file w)) n).
  clear E. destruct (nonempty loaded) eqn:En; cbn [negb].
  - assert (loaded <> []) as Hl by (intros ->; discriminate En).
    cbv zeta.
    set (total := List.length loaded).
    set (finished := List.length (filter (fun t => done t) loaded)).
    rewrite bind_run, print_run, bind_run, print_run, bind_run, print_run,
      bind_run, print_run, bind_run, print_run, bind_run, print_run.
    rewrite !ticks_after, !after_after.
    change (read_error (file w) ++ [DashboardTitle] ++ [Rule]
            ++ [TotalTasks total] ++ [CompletedCount finished total]
            ++ [PendingCount (total - finished)] ++ [Banner finished total])
      with (read_error (file w) ++ dashboard_head finished total).
    assert (0 < total)%nat as Hpos.
    { unfold total. destruct loaded; [discriminate En | simpl; lia]. }
    assert (finished <= total)%nat as Hle by apply filter_length_le.
    destruct ((total - finished =? 0)%nat && (0 <? total)%nat) eqn:Ec.
    + rewrite print_run, after_after, ticks_after.
      exists (Ok tt), (dashboard_head finished total ++ [AllCompleted]), n.
      split; [exact Hf|].
      split; [rewrite <- app_assoc; reflexivity|].
      split; [left; reflexivity|].
      split.
      { intros _. rewrite count_tags_all_done; [reflexivity|].
        apply andb_true_iff in Ec as [Ec _]. apply Nat.eqb_eq in Ec.
        fold finished total. lia. }
      split; [repeat constructor|].
      split; [intros H; contradiction|].
      intros _. exists [AllCompleted].
      split; [reflexivity|]. split; [tauto|].
      intros Hu. exfalso.
      apply andb_true_iff in Ec as [Ec _]. apply Nat.eqb_eq in Ec.
      apply (Exists_pending_length loaded) in Hu.
      fold finished total in Hu. lia.
    + assert (total <> finished) as Hne.
      { apply andb_false_iff in Ec as [Ec|Ec].
        - apply Nat.eqb_neq in Ec. lia.
        - apply Nat.ltb_ge in Ec. lia. }
      rewrite bind_run.
      destruct (priority_part_run loaded (total - finished)
                  (after w (read_error (file w)
                            ++ dashboard_head finished total) n))
        as (r & o1 & E1 & Ht1 & Hp1 & Hx1).
      assert (0 < total - finished)%nat as Hgt by lia.
      specialize (Hx1 Hgt).
      rewrite E1, ticks_after, after_after.
      destruct r as [[]|e].
      * rewrite bind_run.
        destruct (tag_part_run
                    (fun name n => n = level_total name loaded /\ (1 <= n)%nat)
                    (count_tags loaded [])
                    (after w ((read_error (file w)
                               ++ dashboard_head finished total) ++ o1) n))
          as (o2 & E2 & Ht2 & Hp2).
        rewrite E2, ticks_after, print_run, !after_after, ticks_after.
        exists (Ok tt), (dashboard_head finished total ++ o1 ++ o2 ++ [Rule]),
          n.
        split; [exact Hf|].
        split; [rewrite <- !app_assoc; reflexivity|].
        assert (tag_lines (dashboard_head finished total
                           ++ o1 ++ o2 ++ [Rule])
                = firstn 5 (sort count_key_lt (count_tags loaded [])))
          as Ht.
        { rewrite !tag_lines_app, Ht1, Ht2. simpl. apply app_nil_r. }
        split; [right; exact Ht|].
        split; [intros _; exact Ht|].
        split.
        { apply Forall_app. split; [repeat constructor|].
          apply Forall_app. split; [exact Hp1|].
          apply Forall_app. split; [exact Hp2 | repeat constructor]. }
        split; [intros H; contradiction|].
        intros _. exists (o1 ++ o2 ++ [Rule]). split; [reflexivity|].
        split; [intros H; contradiction|].
        intros Hu. destruct (Hx1 Hu) as [Hr _]. discriminate Hr.
      * exists (Raise e), (dashboard_head finished total ++ o1), n.
        split; [exact Hf|].
        split; [rewrite <- !app_assoc; reflexivity|].
        split; [left; rewrite tag_lines_app, Ht1; reflexivity|].
        split; [discriminate|].
        split.
        { apply Forall_app. split; [repeat constructor | exact Hp1]. }
        split; [intros H; contradiction|].
        intros _. exists o1. split; [reflexivity|].
        split; [intros H; contradiction|].
        intros Hu. destruct (Hx1 Hu) as [Hr ->]. rewrite Hr.
        split; reflexivity.
  - apply nonempty_false in En. subst loaded.
    rewrite bind_run, !print_run, ticks_after, after_after, ticks_after.
    exists (Ok tt), [NoTasksToAnalyze; StartHint], n.
    split; [exact Hf|]. split; [rewrite after_after; reflexivity|].
    split; [left; reflexivity|].
    split; [reflexivity|].
    split; [repeat constructor|].
    split; [tauto|]. intros H. contradiction H. reflexivity.
Qed.

Lemma show_stats_printed (w : world) (r : result unit) (o : list message)
  (n : nat) :
  show_stats clock w = (r, after w o n) ->
  printed_by (show_stats clock) w = o.
Proof.
  intros E. unfold printed_by. rewrite E. simpl. apply skipn_length_app.
Qed.
End Statistics.

Lemma tag_counts_facts (l : list task) :
  NoDup (map fst (count_tags l []))
  /\ positive (count_tags l [])
  /\ forall tag, tally (count_tags l []) tag = tag_total tag l.
Proof.
  split; [|split].
  - apply (count_tags_inv (fun d => NoDup (map fst d))).
    + intros k d. apply NoDup_bump.
    + constructor.
  - apply (count_tags_inv positive).
    + intros k d. apply positive_bump.
    + apply positive_nil.
  - intros tag. rewrite tally_count_tags. reflexivity.
Qed.

Lemma tag_total_filled (tag : string) (l l' : list task) :
  Forall2 filled l l' -> tag_total tag l' = tag_total tag l.
Proof.
  intros H.
  destruct (tag_counts_facts l) as (_ & _ & <-).
  destruct (tag_counts_facts l') as (_ & _ & <-).
  rewrite (count_tags_filled l l' H). reflexivity.
Qed.

(** X18.  The statistics list at most five tags, no tag twice, in
    descending order of their counts. *)
Theorem stats_top_tags (clock : nat -> datetime) (w : world) :
  let shown := tag_lines (printed_by (show_stats clock) w) in
  (List.length shown <= 5)%nat
  /\ NoDup (map fst shown)
  /\ Sorted by_count shown.
Proof.
  destruct (show_stats_run clock w)
    as (loaded & r & o & n & _ & E & [Ht|Ht] & _).
  all: cbv zeta; rewrite (show_stats_printed clock w r _ n E).
  all: rewrite tag_lines_app, tag_lines_read_error, app_nil_l, Ht.
  - split; [simpl; lia|]. split; constructor.
  - split; [apply firstn_le_length|]. split.
    + rewrite <- firstn_map. apply NoDup_firstn.
      apply (Permutation_NoDup
               (Permutation_map fst (sort_perm count_key_lt _))).
      apply tag_counts_facts.
    + apply (Sorted_prefix _ _
               (skipn 5 (sort count_key_lt (count_tags loaded [])))).
      rewrite firstn_skipn. apply sort_by_count.
Qed.

(** X19.  The count the statistics show beside a tag is the number of
    times the tag occurs among the tags of the pending tasks of the file,
    and it is at least one. *)
Theorem stats_tag_counts (clock : nat -> datetime) (w : world)
  (tag : string) (n : nat) :
  In (TagCount tag n) (printed_by (show_stats clock) w) ->
  n = tag_total tag (stored (file w)) /\ (1 <= n)%nat.
Proof.
  destruct (show_stats_run clock w)
    as (loaded & r & o & k & Hf & E & Ht & _).
  rewrite (show_stats_printed clock w r _ k E), tag_lines_In, tag_lines_app,
    tag_lines_read_error, app_nil_l.
  destruct Ht as [-> | ->]; [intros []|]. intros H.
  apply In_firstn, sort_In in H.
  destruct (tag_counts_facts loaded) as (Hn & Hp & Hc).
  apply (In_lookup _ _ _ Hn) in H.
  split; [|apply (Hp _ _ H)].
  rewrite <- (tag_total_filled tag _ _ Hf), <- Hc. unfold tally.
  rewrite H. reflexivity.
Qed.

Lemma stats_tag_counts_witness :
  In (TagCount "api" 2)
     (printed_by (show_stats noon) (fresh (Stored [task_C; task_D; task_E])))
  /\ 2%nat = tag_total "api" (stored (file (fresh (Stored [task_C; task_D;
                                                           task_E]))))
  /\ (1 <= 2)%nat.
Proof.
  assert (In (TagCount "api" 2)
             (printed_by (show_stats noon)
                         (fresh (Stored [task_C; task_D; task_E])))) as H.
  { vm_compute. do 10 right. left. reflexivity. }
  split; [exact H|].
  exact (stats_tag_counts noon (fresh (Stored [task_C; task_D; task_E]))
           "api" 2 H).
Defined.

(** X20.  A priority line of the statistics carries the icon of the level
    of its name, and its count is the number of pending tasks of the file
    at that level, which is at least one. *)
Theorem stats_priority_counts (clock : nat -> datetime) (w : world)
  (i : icon) (name : string) (n : nat) :
  In (PriorityCount i name n) (printed_by (show_stats clock) w) ->
  n = level_total name (stored (file w))
  /\ (1 <= n)%nat
  /\ exists lv, lookup name PRIORITIES = Some lv
                /\ lookupZ lv PRIORITY_ICONS = Some i.
Proof.
  destruct (show_stats_run clock w)
    as (loaded & r & o & k & Hf & E & _ & _ & Hp & _).
  rewrite (show_stats_printed clock w r _ k E). intros H.
  apply in_app_or in H as [H|H].
  { destruct (file w); simpl in H; try contradiction.
    destruct H as [H|[]]. discriminate H. }
  rewrite Forall_forall in Hp. specialize (Hp _ H). simpl in Hp.
  destruct Hp as ((-> & Hn) & Hlv).
  rewrite (level_total_filled name _ _ Hf).
  split; [reflexivity|]. split; [|exact Hlv].
  rewrite <- (level_total_filled name _ _ Hf). exact Hn.
Qed.

Lemma stats_priority_counts_witness :
  In (PriorityCount Blue "normal" 1)
     (printed_by (show_stats noon) (fresh (Stored [task_C; task_D; task_E])))
  /\ 1%nat = level_total "normal"
               (stored (file (fresh (Stored [task_C; task_D; task_E]))))
  /\ (1 <= 1)%nat
  /\ exists lv, lookup "normal" PRIORITIES = Some lv
                /\ lookupZ lv PRIORITY_ICONS = Some Blue.
Proof.
  assert (In (PriorityCount Blue "normal" 1)
             (printed_by (show_stats noon)
                         (fresh (Stored [task_C; task_D; task_E])))) as H.
  { vm_compute. do 8 right. left. reflexivity. }
  split; [exact H|].
  exact (stats_priority_counts noon
           (fresh (Stored [task_C; task_D; task_E])) Blue "normal" 1 H).
Defined.

Lemma filter_pending_done (l : list task) :
  filter pending l = [] ->
  List.length l = List.length (filter (fun t => done t) l).
Proof.
  induction l as [|t l IH]; simpl; [reflexivity|].
  unfold pending at 1. destruct (done t); simpl; [|discriminate].
  intros H. rewrite (IH H). reflexivity.
Qed.

(** X21.  For a file that holds tasks the statistics open with the
    dashboard head: the number of tasks, the number of completed ones and
    their difference as the number of pending ones.  When no task is
    pending the only line after the head is the one that says all are
    completed: there is no closing rule, and no exception whatever the
    priorities stored. *)
Theorem stats_headline (clock : nat -> datetime) (w : world) :
  stored (file w) <> [] ->
  exists rest,
    printed_by (show_stats clock) w
    = dashboard_head
        (List.length (filter (fun t => done t) (stored (file w))))
        (List.length (stored (file w)))
      ++ rest
    /\ (filter pending (stored (file w)) = [] ->
        fst (show_stats clock w) = Ok tt /\ rest = [AllCompleted]).
Proof.
  intros Hs.
  destruct (show_stats_run clock w)
    as (loaded & r & o & k & Hf & E & _ & _ & _ & _ & H).
  rewrite (show_stats_printed clock w r _ k E), E.
  assert (read_error (file w) = []) as ->.
  { destruct (file w); [contradiction Hs; reflexivity .. | reflexivity]. }
  destruct H as (rest & -> & Hr & _).
  { intros ->. inversion Hf as [Hn|]. apply Hs. symmetry. exact Hn. }
  rewrite (filter_done_filled _ _ Hf), (Forall2_length_eq _ _ _ Hf).
  exists rest. split; [reflexivity|].
  intros Hp. apply Hr.
  rewrite (filter_done_filled _ _ Hf), (Forall2_length_eq _ _ _ Hf).
  apply filter_pending_done, Hp.
Qed.

Lemma stats_headline_witness :
  stored (file (fresh (Stored [task_E]))) <> []
  /\ exists rest,
       printed_by (show_stats noon) (fresh (Stored [task_E]))
       = dashboard_head
           (List.length (filter (fun t => done t)
                                (stored (file (fresh (Stored [task_E]))))))
           (List.length (stored (file (fresh (Stored [task_E])))))
         ++ rest
       /\ (filter pending (stored (file (fresh (Stored [task_E])))) = [] ->
           fst (show_stats noon (fresh (Stored [task_E]))) = Ok tt
           /\ rest = [AllCompleted]).
Proof.
  assert (stored (file (fresh (Stored [task_E]))) <> []) as H
    by discriminate.
  split; [exact H|].
  exact (stats_headline noon (fresh (Stored [task_E])) H).
Defined.

(** X22.  Without tasks, that is with no file, an unreadable file or an
    empty list, the statistics print the two lines that say so, after the
    read error if the file is unreadable, and return. *)
Theorem stats_of_nothing (clock : nat -> datetime) (w : world) :
  stored (file w) = [] ->
  fst (show_stats clock w) = Ok tt
  /\ printed_by (show_stats clock) w
     = read_error (file w) ++ [NoTasksToAnalyze; StartHint].
Proof.
  intros Hs.
  destruct (show_stats_run clock w)
    as (loaded & r & o & k & Hf & E & _ & _ & _ & H & _).
  rewrite (show_stats_printed clock w r _ k E), E.
  rewrite Hs in Hf. inversion Hf; subst.
  destruct (H eq_refl) as [-> ->]. split; reflexivity.
Qed.

Lemma stats_of_nothing_witness :
  stored (file (fresh Unreadable)) = []
  /\ fst (show_stats noon (fresh Unreadable)) = Ok tt
  /\ printed_by (show_stats noon) (fresh Unreadable)
     = read_error (file (fresh Unreadable))
       ++ [NoTasksToAnalyze; StartHint].
Proof.
  split; [reflexivity|].
  exact (stats_of_nothing noon (fresh Unreadable) eq_refl).
Defined.

Lemma lookup_In {V : Type} (k : string) (v : V) (d : list (string * V)) :
  lookup k d = Some v -> In (k, v) d.
Proof.
  induction d as [|[k0 v0] d IH]; simpl; [discriminate|].
  destruct (String.eqb k k0) eqn:E; [|right; apply IH; assumption].
  apply String.eqb_eq in E. subst k0. intros H. inversion H. left.
  reflexivity.
Qed.

Lemma In_keys_lookup {V : Type} (k : string) (d : list (string * V)) :
  In k (map fst d) -> exists v, lookup k d = Some v.
Proof.
  induction d as [|[k0 v0] d IH]; simpl; [intros []|].
  destruct (String.eqb k k0) eqn:E; [eauto|].
  intros [H|H]; [|apply IH, H].
  subst k0. rewrite String.eqb_refl in E. discriminate E.
Qed.

(** X23.  When every stored priority is one of the four and the pending
    tasks carry at most five different tags, the statistics list each of
    these tags with its count. *)
Theorem stats_lists_every_tag (clock : nat -> datetime) (w : world)
  (tag : string) :
  priorities_known w ->
  (List.length
     (nodup string_dec
            (flat_map get_tags (filter pending (stored (file w))))) <= 5)%nat ->
  In tag (flat_map get_tags (filter pending (stored (file w)))) ->
  In (TagCount tag (tag_total tag (stored (file w))))
     (printed_by (show_stats clock) w).
Proof.
  intros Hk Hfew Htag.
  destruct (show_stats_run clock w)
    as (loaded & r & o & k & Hf & E & _ & Hok & _).
  destruct (show_stats_returns clock w Hk) as ([] & w' & E' & _).
  rewrite E in E'. inversion E'; subst r. specialize (Hok eq_refl).
  rewrite (show_stats_printed clock w _ _ k E), tag_lines_In, tag_lines_app,
    tag_lines_read_error, app_nil_l, Hok.
  destruct (tag_counts_facts loaded) as (Hn & Hp & Hc).
  assert (forall t, tally (count_tags loaded []) t
                    = tag_total t (stored (file w))) as Hc'.
  { intros t. rewrite Hc. apply tag_total_filled, Hf. }
  rewrite firstn_all2.
  - apply sort_In, lookup_In.
    specialize (Hc' tag). unfold tally in Hc'.
    destruct (lookup tag (count_tags loaded [])) as [n|]; [congruence|].
    apply (count_occ_In string_dec) in Htag. unfold tag_total in Hc'. lia.
  - rewrite <- (Permutation_length (sort_perm count_key_lt _)).
    rewrite <- (length_map fst).
    etransitivity; [|exact Hfew].
    apply NoDup_incl_length; [exact Hn|].
    intros t Ht. apply nodup_In, (count_occ_In string_dec).
    apply In_keys_lookup in Ht as (n & Ht).
    pose proof (Hp _ _ Ht) as Hpos.
    specialize (Hc' t). unfold tally in Hc'. rewrite Ht in Hc'.
    unfold tag_total in Hc'. lia.
Qed.

Lemma stats_lists_every_tag_witness :
  priorities_known (fresh (Stored [task_C; task_D; task_E]))
  /\ In (TagCount "bug"
           (tag_total "bug"
              (stored (file (fresh (Stored [task_C; task_D; task_E]))))))
        (printed_by (show_stats noon)
                    (fresh (Stored [task_C; task_D; task_E]))).
Proof.
  assert (priorities_known (fresh (Stored [task_C; task_D; task_E]))) as H.
  { repeat constructor; vm_compute; discriminate. }
  split; [exact H|].
  apply (stats_lists_every_tag noon
           (fresh (Stored [task_C; task_D; task_E])) "bug" H).
  - vm_compute. lia.
  - vm_compute. right. left. reflexivity.
Defined.

(** * Loading twice *)

Section Reloading.
Variable clock : nat -> datetime.

Lemma migrate_all_objects (ms : list (list (string * Json.value))) :
  forall k,
  exists ms' k',
    Json.migrate_all clock (map Json.Obj ms) k
    = (Json.Return (map Json.Obj ms'), k')
    /\ Forall2 (object_filled clock) ms ms'.
Proof.
  induction ms as [|m ms IH]; intros k.
  - exists [], k. split; [reflexivity | constructor].
  - destruct (migrate_object clock m k)
      as (m' & k1 & E & Hp & Ht & Hc & Ho).
    destruct (IH k1) as (ms' & k2 & E' & H').
    exists (m' :: ms'), k2. cbn [map Json.migrate_all].
    rewrite E, E'. split; [reflexivity|].
    constructor; [|exact H'].
    split; [exact Hp|]. split; [exact Ht|]. split; [|exact Ho].
    exists k. exact Hc.
Qed.

Lemma migrate_migrated (m : list (string * Json.value)) (k : nat) :
  migrated m -> Json.migrate clock (Json.Obj m) k = (Json.Return (Json.Obj m), k).
Proof.
  intros (Hp & Ht & Hc).
  unfold Json.migrate, Json.fill, Json.contains.
  rewrite !has_member_lookup.
  destruct (lookup "priority" m); [|contradiction].
  rewrite has_member_lookup.
  destruct (lookup "tags" m); [|contradiction].
  rewrite has_member_lookup.
  destruct (lookup "created" m); [reflexivity | contradiction].
Qed.

Lemma migrate_all_migrated (ms : list (list (string * Json.value))) :
  Forall migrated ms ->
  forall k, Json.migrate_all clock (map Json.Obj ms) k
            = (Json.Return (map Json.Obj ms), k).
Proof.
  induction 1 as [|m ms Hm _ IH]; intros k; [reflexivity|].
  cbn [map Json.migrate_all]. rewrite (migrate_migrated m k Hm), IH.
  reflexivity.
Qed.

Lemma object_filled_migrated (m m' : list (string * Json.value)) :
  object_filled clock m m' -> migrated m'.
Proof.
  intros (Hp & Ht & (tick & Hc) & _). unfold migrated.
  rewrite Hp, Ht, Hc. repeat split; discriminate.
Qed.

Lemma migrate_complete (t : task) (w : world) :
  complete t -> migrate clock t w = (Ok t, w).
Proof.
  intros (Hp & Ht & Hc). unfold migrate.
  destruct (priority t); [|contradiction].
  destruct (tags t); [|contradiction].
  destruct (created t); [reflexivity | contradiction].
Qed.

Lemma for_each_migrate_complete (l : list task) :
  Forall complete l ->
  forall w, for_each (migrate clock) l w = (Ok l, w).
Proof.
  induction 1 as [|t l Ht _ IH]; intros w; [reflexivity|].
  cbn [for_each]. rewrite bind_run, (migrate_complete t w Ht), bind_run, IH.
  reflexivity.
Qed.
End Reloading.

(** X24.  A file that is a JSON array of objects always loads: whatever
    the objects hold, [load_tasks] returns the array of the objects with
    the keys [priority], [tags] and [created] filled in where they were
    missing, with 2, the empty list and the time of the clock, and prints
    nothing.  Keys that are there keep their values, also values of the
    wrong type, and the other keys, among them [desc] and [done], are
    neither checked nor changed. *)
Theorem load_fills_objects (clock : nat -> datetime)
  (ms : list (list (string * Json.value))) (k : nat) :
  exists ms' k',
    Json.load_tasks clock (Json.Parsed (Json.Arr (map Json.Obj ms))) k
    = (Json.Return (Json.Arr (map Json.Obj ms')), [], k')
    /\ Forall2 (object_filled clock) ms ms'.
Proof.
  destruct (migrate_all_objects clock ms k) as (ms' & k' & E & H).
  exists ms', k'. split; [|exact H].
  unfold Json.load_tasks, Json.load_body. cbn [Json.json_load Json.iterate].
  rewrite E. reflexivity.
Qed.

(** X25.  Loading is idempotent on arrays of objects: the value a load
    returns, stored and loaded again, comes back as it is, with nothing
    printed and the clock not read. *)
Theorem load_twice (clock : nat -> datetime)
  (ms : list (list (string * Json.value))) (k : nat) :
  exists v k',
    Json.load_tasks clock (Json.Parsed (Json.Arr (map Json.Obj ms))) k
    = (Json.Return v, [], k')
    /\ forall k2,
         Json.load_tasks clock (Json.Parsed v) k2 = (Json.Return v, [], k2).
Proof.
  destruct (migrate_all_objects clock ms k) as (ms' & k' & E & H).
  exists (Json.Arr (map Json.Obj ms')), k'. split.
  - unfold Json.load_tasks, Json.load_body.
    cbn [Json.json_load Json.iterate]. rewrite E. reflexivity.
  - intros k2. unfold Json.load_tasks, Json.load_body.
    cbn [Json.json_load Json.iterate].
    rewrite migrate_all_migrated; [reflexivity|].
    clear E. induction H as [|m m' ms0 ms0' Hm _ IH]; constructor;
      [apply (object_filled_migrated clock m), Hm | exact IH].
Qed.

(** X26.  A stored list whose tasks have the keys [priority], [tags] and
    [created] loads as it is:
    [load_tasks] returns exactly the stored list, prints nothing and does
    not read the clock. *)
Theorem complete_file_loads_unchanged (clock : nat -> datetime) (w : world)
  (l : list task) :
  file w = Stored l ->
  Forall complete l ->
  load_tasks clock w = (Ok l, w).
Proof.
  intros E H. unfold load_tasks. rewrite E.
  apply for_each_migrate_complete, H.
Qed.

Lemma complete_file_loads_unchanged_witness :
  file (fresh (Stored [task_A; task_B])) = Stored [task_A; task_B]
  /\ Forall complete [task_A; task_B]
  /\ load_tasks noon (fresh (Stored [task_A; task_B]))
     = (Ok [task_A; task_B], fresh (Stored [task_A; task_B])).
Proof.
  assert (Forall complete [task_A; task_B]) as H.
  { repeat constructor; simpl; discriminate. }
  split; [reflexivity|]. split; [exact H|].
  exact (complete_file_loads_unchanged noon (fresh (Stored [task_A; task_B]))
           [task_A; task_B] eq_refl H).
Defined.

Lemma Exists_unknown_filled (l l' : list task) :
  Forall2 filled l l' ->
  Exists unknown_pending l -> Exists unknown_pending l'.
Proof.
  induction 1 as [|t t' l l' (_ & Hd & Hp & _) _ IH]; intros H;
    inversion H as [? ? [H1 H2]|]; subst.
  - left. unfold unknown_pending, get_priority. rewrite Hd, Hp.
    split; assumption.
  - right. apply IH. assumption.
Qed.

(** X27.  A pending task whose stored priority is none of 1..4 makes the
    statistics fail: after the head of the dashboard the look-up of the
    name of the priority raises [KeyError], [main] prints the unexpected
    error and returns exit status 1, and the file is not written. *)
Theorem stats_unknown_priority_fails (clock : nat -> datetime) (w : world) :
  Exists unknown_pending (stored (file w)) ->
  exists n,
    main clock Stats w
    = (1, after w
            (dashboard_head
               (List.length (filter (fun t => done t) (stored (file w))))
               (List.length (stored (file w)))
             ++ [UnexpectedError KeyError])
            n).
Proof.
  intros Hu.
  destruct (show_stats_run clock w)
    as (loaded & r & o & k & Hf & E & _ & _ & _ & _ & H).
  pose proof (Exists_unknown_filled _ _ Hf Hu) as Hu'.
  assert (read_error (file w) = []) as Hr.
  { destruct (file w); simpl in Hu; try (inversion Hu; fail). reflexivity. }
  destruct H as (rest & -> & _ & Hx).
  { intros ->. inversion Hu'. }
  destruct (Hx Hu') as [-> ->].
  rewrite (filter_done_filled _ _ Hf), (Forall2_length_eq _ _ _ Hf) in E.
  exists k. unfold main, dispatch. rewrite E, Hr.
  unfold after. simpl. rewrite ?app_nil_r, <- ?app_assoc. reflexivity.
Qed.

Lemma stats_unknown_priority_fails_witness :
  Exists unknown_pending (stored (file (fresh (Stored [task_E; task_F]))))
  /\ exists n,
       main noon Stats (fresh (Stored [task_E; task_F]))
       = (1, after (fresh (Stored [task_E; task_F]))
               (dashboard_head
                  (List.length
                     (filter (fun t => done t)
                             (stored (file (fresh (Stored [task_E;
                                                           task_F]))))))
                  (List.length
                     (stored (file (fresh (Stored [task_E; task_F])))))
                ++ [UnexpectedError KeyError])
               n).
Proof.
  assert (Exists unknown_pending
                 (stored (file (fresh (Stored [task_E; task_F]))))) as H.
  { right. left. split; reflexivity. }
  split; [exact H|].
  exact (stats_unknown_priority_fails noon
           (fresh (Stored [task_E; task_F])) H).
Defined.

(** * Commands on tasks with missing keys *)

Module LooseFacts.
Import Loose.
#[local] Open Scope loose_scope.

Lemma loose_bind_run {A B : Type} (m : M A) (k : A -> M B) (w : world) :
  bind m k w
  = match m w with
    | (Ok a, w') => k a w'
    | (Raise e, w') => (Raise e, w')
    end.
Proof. reflexivity. Qed.

Lemma loose_print_run (m : message) (w : world) :
  print m w = (Ok tt, after w [m] (ticks w)).
Proof. reflexivity. Qed.

Lemma loose_after_after (w : world) (o o' : list message) (n n' : nat) :
  after (after w o n) o' n' = after w (o ++ o') n'.
Proof. unfold after. simpl. rewrite app_assoc. reflexivity. Qed.

Lemma loose_after_nil (w : world) : after w [] (ticks w) = w.
Proof. unfold after. rewrite app_nil_r. destruct w; reflexivity. Qed.

Lemma loose_filled_done (e e' : entry) : filled e e' -> done e' = done e.
Proof. intros (_ & H & _). exact H. Qed.

Lemma loose_filled_desc (e e' : entry) : filled e e' -> desc e' = desc e.
Proof. intros (H & _). exact H. Qed.

Section Runs.
Variable clock : nat -> datetime.

Lemma loose_migrate_run (e : entry) (w : world) :
  exists e' n,
    migrate clock e w = (Ok e', after w [] n) /\ filled e e'.
Proof.
  destruct e as [d b [p|] [tg|] [c|]].
  all: eexists.
  all: match goal with
       | c : string |- _ => exists (ticks w); rewrite loose_after_nil
       | _ => exists (S (ticks w)); unfold after; rewrite app_nil_r
       end.
  all: split; [reflexivity|].
  all: unfold filled, get_tags; simpl; repeat split; eauto.
  all: intros; discriminate.
Qed.

Lemma loose_for_each_migrate_run (l : list entry) : forall w,
  exists l' n,
    for_each (migrate clock) l w = (Ok l', after w [] n)
    /\ Forall2 filled l l'.
Proof.
  induction l as [|e l IH]; intros w.
  - exists [], (ticks w). rewrite loose_after_nil. split; [reflexivity|].
    constructor.
  - destruct (loose_migrate_run e w) as (e' & n1 & E1 & H1).
    destruct (IH (after w [] n1)) as (l' & n2 & E2 & H2).
    exists (e' :: l'), n2. cbn [for_each].
    rewrite loose_bind_run, E1, loose_bind_run, E2, loose_after_after.
    split; [reflexivity|]. constructor; assumption.
Qed.

Lemma loose_load_tasks_run (w : world) :
  exists l n,
    load_tasks clock w = (Ok l, after w (read_error (file w)) n)
    /\ Forall2 filled (stored (file w)) l.
Proof.
  unfold load_tasks. destruct (file w) as [| |l0] eqn:E; simpl.
  - exists [], (ticks w). rewrite loose_after_nil. split; [reflexivity|].
    constructor.
  - exists [], (ticks w). split; [reflexivity | constructor].
  - apply loose_for_each_migrate_run.
Qed.

(** Loading a file that has a task at place [j]. *)
Lemma loose_load_tasks_at (w : world) (j : nat) (e : entry) :
  nth_error (stored (file w)) j = Some e ->
  exists l n e',
    load_tasks clock w = (Ok l, after w [] n)
    /\ Forall2 filled (stored (file w)) l
    /\ nth_error l j = Some e'
    /\ filled e e'.
Proof.
  intros H. destruct (loose_load_tasks_run w) as (l & n & E & F).
  assert (read_error (file w) = []) as R.
  { destruct (file w); try reflexivity; destruct j; discriminate H. }
  rewrite R in E.
  assert (exists e', nth_error l j = Some e') as (e' & He').
  { destruct (nth_error l j) eqn:N; [eauto|].
    apply nth_error_None in N.
    rewrite (Forall2_length_eq _ _ _ F) in N.
    apply nth_error_None in N. congruence. }
  exists l, n, e'. split; [exact E|]. split; [exact F|].
  split; [exact He'|].
  apply (Forall2_nth _ _ _ F j e e' H He').
Qed.

Lemma loose_getitem_run {A : Type} (l : list A) (i : Z) (a : A) (w : world) :
  1 <= i -> nth_error l (Z.to_nat (i - 1)) = Some a ->
  getitem l (i - 1) w = (Ok a, w).
Proof.
  intros Hi H. unfold getitem, position.
  assert (Z.to_nat (i - 1) < List.length l)%nat as Hl.
  { apply nth_error_Some. congruence. }
  destruct (0 <=? i - 1) eqn:E1; [|apply Z.leb_gt in E1; lia].
  destruct (i - 1 <? Z.of_nat (List.length l)) eqn:E2;
    [|apply Z.ltb_ge in E2; lia].
  simpl. rewrite H. reflexivity.
Qed.

Lemma loose_in_range_at (l : list entry) (i : Z) (e : entry) :
  1 <= i -> nth_error l (Z.to_nat (i - 1)) = Some e ->
  in_range i l = true.
Proof.
  intros Hi H. unfold in_range.
  assert (Z.to_nat (i - 1) < List.length l)%nat as Hl.
  { apply nth_error_Some. congruence. }
  apply andb_true_iff. split; [apply Z.leb_le | apply Z.leb_le]; lia.
Qed.

(** What [mark_done] does with the task at a number in range, by the keys
    the task has. *)
Lemma loose_mark_done_run (w : world) (i : Z) (e : entry) :
  1 <= i -> nth_error (stored (file w)) (Z.to_nat (i - 1)) = Some e ->
  exists loaded n,
    Forall2 filled (stored (file w)) loaded
    /\ mark_done clock i w
       = match done e with
         | None => (Raise KeyError, after w [] n)
         | Some true => (Ok true, after w [AlreadyCompleted i] n)
         | Some false =>
             (match desc e with
              | Some _ => Ok true
              | None => Raise KeyError
              end,
              mkWorld (Stored (update_at (Z.to_nat (i - 1)) (set_done true)
                                         loaded))
                      (S (saves w))
                      (out w ++ match desc e with
                                | Some d => [Completed i d]
                                | None => []
                                end)
                      n)
         end.
Proof.
  intros Hi H.
  destruct (loose_load_tasks_at w _ e H) as (l & n & e' & E & F & N & Fe).
  exists l, n. split; [exact F|].
  unfold mark_done. rewrite loose_bind_run, E.
  rewrite (loose_in_range_at l i e' Hi N). cbn [negb].
  rewrite loose_bind_run, (loose_getitem_run l i e' _ Hi N).
  rewrite loose_bind_run. unfold getkey at 1.
  rewrite (loose_filled_done _ _ Fe).
  destruct (done e) as [[|]|]; [| |reflexivity].
  - unfold ret at 1. rewrite loose_bind_run, loose_print_run.
    rewrite loose_after_after. reflexivity.
  - unfold ret at 1. cbv zeta. rewrite loose_bind_run. unfold save_tasks at 1.
    rewrite loose_bind_run.
    rewrite (loose_getitem_run _ i (set_done true e') _ Hi).
    2:{ rewrite nth_error_update_at, Nat.eqb_refl, N. reflexivity. }
    rewrite loose_bind_run. unfold getkey.
    change (desc (set_done true e')) with (desc e').
    rewrite (loose_filled_desc _ _ Fe).
    destruct (desc e) as [d|].
    + unfold ret at 1. rewrite loose_bind_run. unfold print, ret, after.
      simpl. rewrite app_nil_r. reflexivity.
    + unfold raise, after. simpl. rewrite !app_nil_r. reflexivity.
Qed.

Lemma loose_mark_undone_run (w : world) (i : Z) (e : entry) :
  1 <= i -> nth_error (stored (file w)) (Z.to_nat (i - 1)) = Some e ->
  exists loaded n,
    Forall2 filled (stored (file w)) loaded
    /\ mark_undone clock i w
       = match done e with
         | None => (Raise KeyError, after w [] n)
         | Some false => (Ok true, after w [AlreadyPending i] n)
         | Some true =>
             (match desc e with
              | Some _ => Ok true
              | None => Raise KeyError
              end,
              mkWorld (Stored (update_at (Z.to_nat (i - 1)) (set_done false)
                                         loaded))
                      (S (saves w))
                      (out w ++ match desc e with
                                | Some d => [Reopened i d]
                                | None => []
                                end)
                      n)
         end.
Proof.
  intros Hi H.
  destruct (loose_load_tasks_at w _ e H) as (l & n & e' & E & F & N & Fe).
  exists l, n. split; [exact F|].
  unfold mark_undone. rewrite loose_bind_run, E.
  rewrite (loose_in_range_at l i e' Hi N). cbn [negb].
  rewrite loose_bind_run, (loose_getitem_run l i e' _ Hi N).
  rewrite loose_bind_run. unfold getkey at 1.
  rewrite (loose_filled_done _ _ Fe).
  destruct (done e) as [[|]|]; [| |reflexivity].
  - unfold ret at 1. cbn [negb]. cbv zeta. rewrite loose_bind_run.
    unfold save_tasks at 1. rewrite loose_bind_run.
    rewrite (loose_getitem_run _ i (set_done false e') _ Hi).
    2:{ rewrite nth_error_update_at, Nat.eqb_refl, N. reflexivity. }
    rewrite loose_bind_run. unfold getkey.
    change (desc (set_done false e')) with (desc e').
    rewrite (loose_filled_desc _ _ Fe).
    destruct (desc e) as [d|].
    + unfold ret at 1. rewrite loose_bind_run. unfold print, ret, after.
      simpl. rewrite app_nil_r. reflexivity.
    + unfold raise, after. simpl. rewrite !app_nil_r. reflexivity.
  - unfold ret at 1. cbn [negb]. rewrite loose_bind_run, loose_print_run.
    rewrite loose_after_after. reflexivity.
Qed.

(** What [delete_task] does with the task at a number in range: the file
    is written in every case. *)
Lemma loose_delete_task_run (w : world) (i : Z) (e : entry) :
  1 <= i -> nth_error (stored (file w)) (Z.to_nat (i - 1)) = Some e ->
  exists loaded n,
    Forall2 filled (stored (file w)) loaded
    /\ delete_task clock i w
       = (match done e, desc e with
          | Some _, Some _ => Ok true
          | _, _ => Raise KeyError
          end,
          mkWorld (Stored (remove_at (Z.to_nat (i - 1)) loaded))
                  (S (saves w))
                  (out w ++ match done e, desc e with
                            | Some b, Some d => [Removed b d]
                            | _, _ => []
                            end)
                  n).
Proof.
  intros Hi H.
  destruct (loose_load_tasks_at w _ e H) as (l & n & e' & E & F & N & Fe).
  exists l, n. split; [exact F|].
  unfold delete_task. rewrite loose_bind_run, E.
  rewrite (loose_in_range_at l i e' Hi N). cbn [negb].
  rewrite loose_bind_run, (loose_getitem_run l i e' _ Hi N).
  cbv zeta. rewrite loose_bind_run. unfold save_tasks at 1.
  rewrite loose_bind_run. unfold getkey.
  rewrite (loose_filled_done _ _ Fe), (loose_filled_desc _ _ Fe).
  destruct (done e) as [b|].
  - unfold ret at 1. rewrite loose_bind_run.
    destruct (desc e) as [d|].
    + unfold ret at 1. rewrite loose_bind_run. unfold print, ret, after.
      simpl. rewrite app_nil_r. reflexivity.
    + unfold raise, after. simpl. rewrite !app_nil_r. reflexivity.
  - unfold raise, after. simpl. rewrite !app_nil_r. reflexivity.
Qed.

Lemma loose_select_ok (keep : bool -> bool) (l : list entry) (w : world) :
  Forall (fun e => done e <> None) l ->
  select keep l w
  = (Ok (filter (fun e => match done e with
                          | Some b => keep b
                          | None => false
                          end) l), w).
Proof.
  induction 1 as [|e l He _ IH]; [reflexivity|].
  cbn [select filter]. rewrite loose_bind_run. unfold getkey.
  destruct (done e) as [b|]; [|contradiction].
  unfold ret at 1. rewrite loose_bind_run, IH. reflexivity.
Qed.

Lemma loose_select_raises (keep : bool -> bool) (l : list entry) (w : world) :
  Exists (fun e => done e = None) l ->
  select keep l w = (Raise KeyError, w).
Proof.
  induction 1 as [e l He|e l _ IH]; cbn [select]; rewrite loose_bind_run;
    unfold getkey.
  - rewrite He. reflexivity.
  - destruct (done e); [|reflexivity].
    unfold ret at 1. rewrite loose_bind_run, IH. reflexivity.
Qed.

Lemma loose_print_removed_run (l : list entry) : forall w,
  exists r o,
    for_each print_removed l w = (r, after w o (ticks w))
    /\ (Forall (fun e => desc e <> None) l -> exists u, r = Ok u).
Proof.
  induction l as [|e l IH]; intros w.
  - exists (Ok []), []. rewrite loose_after_nil. split; [reflexivity|].
    eauto.
  - cbn [for_each]. rewrite loose_bind_run. unfold print_removed at 1.
    rewrite loose_bind_run. unfold getkey.
    destruct (desc e) as [d|] eqn:Ed.
    + unfold ret at 1. rewrite loose_print_run.
      destruct (IH (after w [RemovedItem d (get_tags e)] (ticks w)))
        as (r & o & E & H).
      rewrite loose_bind_run, E.
      destruct r as [u|x].
      * eexists. eexists. rewrite loose_after_after.
        split; [reflexivity|]. eauto.
      * eexists. eexists. rewrite loose_after_after.
        split; [reflexivity|]. intros F. inversion F; subst.
        destruct (H H3) as (u & Hu). discriminate Hu.
    + exists (Raise KeyError), []. rewrite loose_after_nil.
      split; [reflexivity|]. intros F. inversion F; subst. contradiction.
Qed.

Lemma loose_filled_has_done (l l' : list entry) :
  Forall2 filled l l' ->
  Forall (fun e => done e <> None) l -> Forall (fun e => done e <> None) l'.
Proof.
  induction 1 as [|e e' l l' He _ IH]; intros F; [constructor|].
  inversion F; subst. constructor; [|apply IH; assumption].
  rewrite (loose_filled_done _ _ He). assumption.
Qed.

Lemma loose_filled_has_desc (l l' : list entry) :
  Forall2 filled l l' ->
  Forall (fun e => desc e <> None) l -> Forall (fun e => desc e <> None) l'.
Proof.
  induction 1 as [|e e' l l' He _ IH]; intros F; [constructor|].
  inversion F; subst. constructor; [|apply IH; assumption].
  rewrite (loose_filled_desc _ _ He). assumption.
Qed.

Lemma loose_filled_lacks_done (l l' : list entry) :
  Forall2 filled l l' ->
  Exists (fun e => done e = None) l -> Exists (fun e => done e = None) l'.
Proof.
  induction 1 as [|e e' l l' He _ IH]; intros F; inversion F; subst.
  - left. rewrite (loose_filled_done _ _ He). assumption.
  - right. apply IH. assumption.
Qed.

Lemma loose_no_completed (l l' : list entry) :
  Forall2 filled l l' ->
  Forall (fun e => done e <> None) l ->
  filter completed l' = [] ->
  Forall (fun e => done e = Some false) l.
Proof.
  induction 1 as [|e e' l l' He _ IH]; intros F N; [constructor|].
  inversion F; subst. cbn [filter] in N. unfold completed at 1 in N.
  rewrite (loose_filled_done _ _ He) in N.
  destruct (done e) as [[|]|] eqn:Ed; try discriminate N; try contradiction.
  constructor; [exact Ed | apply IH; assumption].
Qed.

Lemma loose_filter_pending (l : list entry) :
  Forall (fun e => done e = Some false) (filter pending l).
Proof.
  apply Forall_forall. intros e He. apply filter_In in He as [_ He].
  unfold pending in He. destruct (done e) as [[|]|]; try discriminate.
  reflexivity.
Qed.

(** The run of [clear_done] on a file all of whose tasks have [done]. *)
Lemma loose_clear_done_run (w : world) :
  Forall (fun e => done e <> None) (stored (file w)) ->
  exists loaded r o n,
    Forall2 filled (stored (file w)) loaded
    /\ clear_done clock w
       = (r, mkWorld (if nonempty (filter completed loaded)
                      then Stored (filter pending loaded)
                      else file w)
                     (if nonempty (filter completed loaded)
                      then S (saves w)
                      else saves w)
                     (out w ++ o) n)
    /\ (filter completed loaded = [] -> r = Ok tt)
    /\ (Forall (fun e => desc e <> None) (stored (file w)) -> r = Ok tt).
Proof.
  intros Hd.
  destruct (loose_load_tasks_run w) as (l & n & E & F).
  pose proof (loose_filled_has_done _ _ F Hd) as Hl.
  exists l. unfold clear_done. rewrite loose_bind_run, E.
  rewrite loose_bind_run, (loose_select_ok _ l _ Hl).
  rewrite loose_bind_run, (loose_select_ok _ l _ Hl).
  change (filter (fun e => match done e with
                           | Some b => b
                           | None => false
                           end) l) with (filter completed l).
  change (filter (fun e => match done e with
                           | Some b => negb b
                           | None => false
                           end) l) with (filter pending l).
  destruct (nonempty (filter completed l)) eqn:Ne; cbn [negb].
  - rewrite loose_bind_run. unfold save_tasks at 1.
    rewrite loose_bind_run. unfold print at 1.
    cbn [file saves out ticks after].
    assert (filter completed l <> []) as Hne
      by (intros X; rewrite X in Ne; discriminate Ne).
    destruct (List.length (filter completed l) <=? 5)%nat.
    + rewrite loose_bind_run. unfold print at 1.
      cbn [file saves out ticks]. rewrite loose_bind_run.
      match goal with |- context [for_each print_removed _ ?w1] =>
        destruct (loose_print_removed_run (filter completed l) w1)
          as (r & o & Er & Hr) end.
      rewrite Er. unfold after. cbn [file saves out ticks].
      destruct r as [u|x].
      * exists (Ok tt). eexists. exists n.
        split; [exact F|]. unfold ret.
        split; [rewrite <- !app_assoc; reflexivity|].
        split; [intros X; contradiction | reflexivity].
      * exists (Raise x). eexists. exists n.
        split; [exact F|].
        split; [rewrite <- !app_assoc; reflexivity|].
        split; [intros X; contradiction|]. intros Hs.
        pose proof (loose_filled_has_desc _ _ F Hs) as Hs'.
        destruct Hr as (u & Hu); [|discriminate Hu].
        apply Forall_forall. intros e He. apply filter_In in He as [He _].
        rewrite Forall_forall in Hs'. apply Hs', He.
    + exists (Ok tt). eexists. exists n.
      split; [exact F|]. unfold ret.
      split; [rewrite <- !app_assoc; reflexivity|].
      split; [intros X; contradiction | reflexivity].
  - exists (Ok tt). eexists. exists n.
    split; [exact F|]. unfold print, after. cbn [file saves out ticks].
    split; [rewrite <- !app_assoc; reflexivity|].
    split; reflexivity.
Qed.

Lemma loose_clear_done_raises (w : world) :
  Exists (fun e => done e = None) (stored (file w)) ->
  exists n,
    clear_done clock w = (Raise KeyError, mkWorld (file w) (saves w) (out w) n).
Proof.
  intros Hx.
  destruct (loose_load_tasks_run w) as (l & n & E & F).
  assert (read_error (file w) = []) as R.
  { destruct (file w); try reflexivity; inversion Hx. }
  exists n. unfold clear_done.
  rewrite loose_bind_run, E, loose_bind_run,
    (loose_select_raises _ l _ (loose_filled_lacks_done _ _ F Hx)), R.
  unfold after. rewrite app_nil_r. reflexivity.
Qed.
End Runs.
End LooseFacts.

(** X5.  For a task number in [1..N], [delete_task] writes, once, the
    loaded tasks without the one at that number, the others in their order,
    and only then reads [done] and [desc] of the task removed: if the task
    has both keys the command prints the line about it and returns [True];
    if one is missing it raises [KeyError] with the task already deleted
    from the file and nothing printed. *)
Theorem delete_removes_one (clock : nat -> datetime) (w : Loose.world)
  (i : Z) (e : Loose.entry) :
  1 <= i ->
  nth_error (Loose.stored (Loose.file w)) (Z.to_nat (i - 1)) = Some e ->
  exists loaded n,
    Forall2 Loose.filled (Loose.stored (Loose.file w)) loaded
    /\ Loose.delete_task clock i w
       = (match Loose.done e, Loose.desc e with
          | Some _, Some _ => Ok true
          | _, _ => Raise KeyError
          end,
          Loose.mkWorld
            (Loose.Stored (firstn (Z.to_nat (i - 1)) loaded
                           ++ skipn (Z.to_nat i) loaded))
            (S (Loose.saves w))
            (Loose.out w ++ match Loose.done e, Loose.desc e with
                            | Some b, Some d => [Removed b d]
                            | _, _ => []
                            end)
            n).
Proof.
  intros Hi H.
  destruct (LooseFacts.loose_delete_task_run clock w i e Hi H)
    as (loaded & n & F & E).
  exists loaded, n. split; [exact F|].
  rewrite E, remove_at_split.
  replace (S (Z.to_nat (i - 1))) with (Z.to_nat i) by lia.
  reflexivity.
Qed.

Lemma delete_removes_one_witness :
  exists loaded n,
    Forall2 Loose.filled
            (Loose.stored (Loose.file
               (Loose.fresh (Loose.Stored [Loose.whole; Loose.no_done]))))
            loaded
    /\ Loose.delete_task noon 2
         (Loose.fresh (Loose.Stored [Loose.whole; Loose.no_done]))
       = (match Loose.done Loose.no_done, Loose.desc Loose.no_done with
          | Some _, Some _ => Ok true
          | _, _ => Raise KeyError
          end,
          Loose.mkWorld
            (Loose.Stored (firstn (Z.to_nat (2 - 1)) loaded
                           ++ skipn (Z.to_nat 2) loaded))
            (S (Loose.saves
                  (Loose.fresh (Loose.Stored [Loose.whole; Loose.no_done]))))
            (Loose.out
               (Loose.fresh (Loose.Stored [Loose.whole; Loose.no_done]))
             ++ match Loose.done Loose.no_done, Loose.desc Loose.no_done with
                | Some b, Some d => [Removed b d]
                | _, _ => []
                end)
            n).
Proof.
  apply (delete_removes_one noon
           (Loose.fresh (Loose.Stored [Loose.whole; Loose.no_done])) 2
           Loose.no_done); [lia | reflexivity].
Defined.

(** X6.  On a file all of whose tasks have the key [done], [clear_done]
    leaves no completed task in the file and keeps the pending ones in
    their order: if a loaded task is completed it writes, once, the pending
    loaded tasks; if none is, it writes nothing, the file is what it was
    and it returns.  It returns in every case if the tasks have [desc] as
    well, which is read only after the file is written. *)
Theorem clear_done_keeps_pending (clock : nat -> datetime)
  (w : Loose.world) :
  Forall (fun e => Loose.done e <> None) (Loose.stored (Loose.file w)) ->
  exists loaded,
    Forall2 Loose.filled (Loose.stored (Loose.file w)) loaded
    /\ Forall (fun e => Loose.done e = Some false)
              (Loose.stored (Loose.file (snd (Loose.clear_done clock w))))
    /\ ((filter Loose.completed loaded <> []
         /\ Loose.file (snd (Loose.clear_done clock w))
            = Loose.Stored (filter Loose.pending loaded)
         /\ Loose.saves (snd (Loose.clear_done clock w))
            = S (Loose.saves w))
        \/ (filter Loose.completed loaded = []
            /\ Loose.file (snd (Loose.clear_done clock w)) = Loose.file w
            /\ Loose.saves (snd (Loose.clear_done clock w)) = Loose.saves w
            /\ fst (Loose.clear_done clock w) = Ok tt))
    /\ (Forall (fun e => Loose.desc e <> None)
               (Loose.stored (Loose.file w)) ->
        fst (Loose.clear_done clock w) = Ok tt).
Proof.
  intros Hd.
  destruct (LooseFacts.loose_clear_done_run clock w Hd)
    as (loaded & r & o & n & F & E & Hn & Hs).
  exists loaded. rewrite E. cbn [fst snd Loose.file Loose.saves].
  split; [exact F|].
  destruct (nonempty (filter Loose.completed loaded)) eqn:Ne.
  - split; [apply LooseFacts.loose_filter_pending|].
    split; [|exact Hs].
    left. split; [|split; reflexivity].
    intros X. rewrite X in Ne. discriminate Ne.
  - apply nonempty_false in Ne.
    split; [apply (LooseFacts.loose_no_completed _ _ F Hd Ne)|].
    split; [|exact Hs].
    right. split; [exact Ne|]. split; [reflexivity|].
    split; [reflexivity | apply Hn, Ne].
Qed.

Lemma clear_done_keeps_pending_witness :
  Forall (fun e => Loose.done e <> None)
         (Loose.stored (Loose.file
            (Loose.fresh (Loose.Stored [Loose.whole; Loose.no_desc]))))
  /\ exists loaded,
       Forall2 Loose.filled [Loose.whole; Loose.no_desc] loaded
       /\ fst (Loose.clear_done noon
                 (Loose.fresh (Loose.Stored [Loose.whole; Loose.no_desc])))
          = Ok tt.
Proof.
  assert (Forall (fun e => Loose.done e <> None)
                 (Loose.stored (Loose.file
                    (Loose.fresh (Loose.Stored [Loose.whole;
                                                Loose.no_desc]))))) as H.
  { repeat constructor; discriminate. }
  split; [exact H|].
  destruct (clear_done_keeps_pending noon
              (Loose.fresh (Loose.Stored [Loose.whole; Loose.no_desc])) H)
    as (loaded & F & _ & [(X & _)|(_ & _ & _ & R)] & _).
  - exists loaded. split; [exact F | reflexivity].
  - exists loaded. split; [exact F | exact R].
Defined.

(** X11.  [mark_done] and [mark_undone] are idempotent on a task that has
    the key [done]: for a task number in range, a second call right after
    the first returns [True], prints that the task is in that state already,
    writes nothing and leaves the file as the first call left it, also
    when the first call raised [KeyError] because the task has no [desc],
    which it reads after writing the file. *)
Theorem marking_twice (clock : nat -> datetime) (w : Loose.world) (i : Z)
  (e : Loose.entry) :
  1 <= i ->
  nth_error (Loose.stored (Loose.file w)) (Z.to_nat (i - 1)) = Some e ->
  Loose.done e <> None ->
  (exists n,
     Loose.mark_done clock i (snd (Loose.mark_done clock i w))
     = (Ok true,
        Loose.after (snd (Loose.mark_done clock i w))
                    [AlreadyCompleted i] n))
  /\ (exists n,
        Loose.mark_undone clock i (snd (Loose.mark_undone clock i w))
        = (Ok true,
           Loose.after (snd (Loose.mark_undone clock i w))
                       [AlreadyPending i] n)).
Proof.
  intros Hi H Hd. split.
  - destruct (LooseFacts.loose_mark_done_run clock w i e Hi H)
      as (loaded & n & F & E).
    assert (exists e1,
               nth_error (Loose.stored
                            (Loose.file (snd (Loose.mark_done clock i w))))
                         (Z.to_nat (i - 1)) = Some e1
               /\ Loose.done e1 = Some true) as (e1 & H1 & D1).
    { rewrite E. destruct (Loose.done e) as [[|]|] eqn:Ed;
        [| |contradiction].
      - exists e. split; [exact H | exact Ed].
      - cbn [snd Loose.file Loose.stored].
        assert (exists e', nth_error loaded (Z.to_nat (i - 1)) = Some e')
          as (e' & He').
        { destruct (nth_error loaded (Z.to_nat (i - 1))) eqn:N; [eauto|].
          apply nth_error_None in N.
          rewrite (Forall2_length_eq _ _ _ F) in N.
          apply nth_error_None in N. congruence. }
        exists (Loose.set_done true e').
        rewrite nth_error_update_at, Nat.eqb_refl, He'.
        split; reflexivity. }
    destruct (LooseFacts.loose_mark_done_run clock _ i e1 Hi H1)
      as (loaded1 & n1 & _ & E1).
    rewrite D1 in E1. exists n1. exact E1.
  - destruct (LooseFacts.loose_mark_undone_run clock w i e Hi H)
      as (loaded & n & F & E).
    assert (exists e1,
               nth_error (Loose.stored
                            (Loose.file (snd (Loose.mark_undone clock i w))))
                         (Z.to_nat (i - 1)) = Some e1
               /\ Loose.done e1 = Some false) as (e1 & H1 & D1).
    { rewrite E. destruct (Loose.done e) as [[|]|] eqn:Ed;
        [| |contradiction].
      - cbn [snd Loose.file Loose.stored].
        assert (exists e', nth_error loaded (Z.to_nat (i - 1)) = Some e')
          as (e' & He').
        { destruct (nth_error loaded (Z.to_nat (i - 1))) eqn:N; [eauto|].
          apply nth_error_None in N.
          rewrite (Forall2_length_eq _ _ _ F) in N.
          apply nth_error_None in N. congruence. }
        exists (Loose.set_done false e').
        rewrite nth_error_update_at, Nat.eqb_refl, He'.
        split; reflexivity.
      - exists e. split; [exact H | exact Ed]. }
    destruct (LooseFacts.loose_mark_undone_run clock _ i e1 Hi H1)
      as (loaded1 & n1 & _ & E1).
    rewrite D1 in E1. exists n1. exact E1.
Qed.

Lemma marking_twice_witness :
  (exists n,
     Loose.mark_done noon 1
       (snd (Loose.mark_done noon 1
               (Loose.fresh (Loose.Stored [Loose.no_desc]))))
     = (Ok true,
        Loose.after (snd (Loose.mark_done noon 1
                            (Loose.fresh (Loose.Stored [Loose.no_desc]))))
                    [AlreadyCompleted 1] n))
  /\ (exists n,
        Loose.mark_undone noon 1
          (snd (Loose.mark_undone noon 1
                  (Loose.fresh (Loose.Stored [Loose.no_desc]))))
        = (Ok true,
           Loose.after (snd (Loose.mark_undone noon 1
                               (Loose.fresh (Loose.Stored [Loose.no_desc]))))
                       [AlreadyPending 1] n)).
Proof.
  apply (marking_twice noon (Loose.fresh (Loose.Stored [Loose.no_desc])) 1
           Loose.no_desc); [lia | reflexivity | discriminate].
Defined.

(** X12.  A task without the key [done] makes the commands that read it
    raise [KeyError]: [mark_done] and [mark_undone] at its number, and
    [clear_done] wherever it stands, raise with nothing printed and the
    file not written; [delete_task] at its number raises after it has
    written the file without the task. *)
Theorem missing_done_raises (clock : nat -> datetime) (w : Loose.world)
  (i : Z) (e : Loose.entry) :
  1 <= i ->
  nth_error (Loose.stored (Loose.file w)) (Z.to_nat (i - 1)) = Some e ->
  Loose.done e = None ->
  (exists n,
     Loose.mark_done clock i w
     = (Raise KeyError,
        Loose.mkWorld (Loose.file w) (Loose.saves w) (Loose.out w) n))
  /\ (exists n,
        Loose.mark_undone clock i w
        = (Raise KeyError,
           Loose.mkWorld (Loose.file w) (Loose.saves w) (Loose.out w) n))
  /\ (exists n,
        Loose.clear_done clock w
        = (Raise KeyError,
           Loose.mkWorld (Loose.file w) (Loose.saves w) (Loose.out w) n))
  /\ (exists loaded n,
        Forall2 Loose.filled (Loose.stored (Loose.file w)) loaded
        /\ Loose.delete_task clock i w
           = (Raise KeyError,
              Loose.mkWorld
                (Loose.Stored (firstn (Z.to_nat (i - 1)) loaded
                               ++ skipn (Z.to_nat i) loaded))
                (S (Loose.saves w)) (Loose.out w) n)).
Proof.
  intros Hi H Hd.
  split; [|split; [|split]].
  - destruct (LooseFacts.loose_mark_done_run clock w i e Hi H)
      as (loaded & n & _ & E).
    rewrite Hd in E. exists n. rewrite E. unfold Loose.after.
    rewrite app_nil_r. reflexivity.
  - destruct (LooseFacts.loose_mark_undone_run clock w i e Hi H)
      as (loaded & n & _ & E).
    rewrite Hd in E. exists n. rewrite E. unfold Loose.after.
    rewrite app_nil_r. reflexivity.
  - apply LooseFacts.loose_clear_done_raises.
    apply Exists_exists. exists e. split; [|exact Hd].
    apply (nth_error_In _ _ H).
  - destruct (LooseFacts.loose_delete_task_run clock w i e Hi H)
      as (loaded & n & F & E).
    exists loaded, n. split; [exact F|].
    rewrite E, Hd, remove_at_split, app_nil_r.
    replace (S (Z.to_nat (i - 1))) with (Z.to_nat i) by lia.
    reflexivity.
Qed.

Lemma missing_done_raises_witness :
  exists n,
    Loose.mark_done noon 2
      (Loose.fresh (Loose.Stored [Loose.whole; Loose.no_done]))
    = (Raise KeyError,
       Loose.mkWorld
         (Loose.file (Loose.fresh (Loose.Stored [Loose.whole;
                                                 Loose.no_done])))
         (Loose.saves (Loose.fresh (Loose.Stored [Loose.whole;
                                                  Loose.no_done])))
         (Loose.out (Loose.fresh (Loose.Stored [Loose.whole;
                                                Loose.no_done])))
         n).
Proof.
  apply (missing_done_raises noon
           (Loose.fresh (Loose.Stored [Loose.whole; Loose.no_done])) 2
           Loose.no_done); [lia | reflexivity | reflexivity].
Defined.

(** * The commands on objects that have all keys *)

Lemma agree_ret {A B : Type} (f : A -> B) (a : A) :
  agree f (ret a) (Loose.ret (f a)).
Proof. intros w. reflexivity. Qed.

Lemma agree_bind {A B A' B' : Type} (f : A -> A') (g : B -> B')
  (m : M A) (lm : Loose.M A') (k : A -> M B) (lk : A' -> Loose.M B') :
  agree f m lm ->
  (forall a, agree g (k a) (lk (f a))) ->
  agree g (bind m k) (Loose.bind lm lk).
Proof.
  intros Hm Hk w. unfold Loose.bind, bind. rewrite (Hm w).
  destruct (m w) as [[a|e] w']; simpl; [apply Hk | reflexivity].
Qed.

Lemma agree_print (m : message) :
  agree (fun u : unit => u) (print m) (Loose.print m).
Proof. intros w. reflexivity. Qed.

Lemma loose_print_removed_all (l : list task) : forall lw,
  Loose.for_each Loose.print_removed (map loosen l) lw
  = (Ok (map (fun _ => tt) l),
     Loose.after lw (map (fun t => RemovedItem (desc t) (get_tags t)) l)
                 (Loose.ticks lw)).
Proof.
  induction l as [|t l IH]; intros lw.
  - rewrite LooseFacts.loose_after_nil. reflexivity.
  - cbn [map Loose.for_each]. rewrite LooseFacts.loose_bind_run.
    change (Loose.print_removed (loosen t) lw)
      with (Loose.print (RemovedItem (desc t) (get_tags t)) lw).
    rewrite LooseFacts.loose_print_run, LooseFacts.loose_bind_run, IH.
    rewrite LooseFacts.loose_after_after. reflexivity.
Qed.

Lemma agree_print_removed (l : list task) :
  agree (fun u : unit => u)
        (print_all (map (fun t => RemovedItem (desc t) (get_tags t)) l))
        (Loose.bind (Loose.for_each Loose.print_removed (map loosen l))
                    (fun _ => Loose.ret tt)).
Proof.
  intros w. rewrite print_all_run, LooseFacts.loose_bind_run,
    loose_print_removed_all. reflexivity.
Qed.

Lemma agree_getitem (l : list task) (i : Z) :
  agree loosen (getitem l i) (Loose.getitem (map loosen l) i).
Proof.
  intros w. unfold getitem, Loose.getitem, position.
  rewrite length_map.
  destruct ((0 <=? i) && (i <? Z.of_nat (List.length l)));
    [|destruct ((- Z.of_nat (List.length l) <=? i) && (i <? 0))];
    try reflexivity; rewrite nth_error_map;
    destruct (nth_error l _); reflexivity.
Qed.

Section Agreement.
Variable clock : nat -> datetime.

Lemma agree_migrate (t : task) :
  agree loosen (migrate clock t) (Loose.migrate clock (loosen t)).
Proof.
  intros w. destruct t as [d b [p|] [tg|] [c|]]; reflexivity.
Qed.

Lemma agree_for_each_migrate (l : list task) :
  agree (map loosen) (for_each (migrate clock) l)
        (Loose.for_each (Loose.migrate clock) (map loosen l)).
Proof.
  induction l as [|t l IH]; [intros w; reflexivity|].
  cbn [for_each Loose.for_each map].
  eapply agree_bind; [apply agree_migrate | intros t'].
  eapply agree_bind; [apply IH | intros l'].
  intros w. reflexivity.
Qed.

Lemma agree_load :
  agree (map loosen) (load_tasks clock) (Loose.load_tasks clock).
Proof.
  intros [f s o k]. destruct f as [| |l]; [reflexivity | reflexivity|].
  exact (agree_for_each_migrate l (mkWorld (Stored l) s o k)).
Qed.

Lemma agree_save (l : list task) :
  agree (fun u : unit => u) (save_tasks l)
        (Loose.save_tasks (map loosen l)).
Proof. intros w. reflexivity. Qed.

Lemma in_range_loosen (i : Z) (l : list task) :
  Loose.in_range i (map loosen l) = in_range i l.
Proof. unfold Loose.in_range, in_range. rewrite length_map. reflexivity. Qed.

Lemma update_at_loosen (n : nat) (b : bool) (l : list task) :
  update_at n (Loose.set_done b) (map loosen l)
  = map loosen (update_at n (set_done b) l).
Proof.
  revert n. induction l as [|t l IH]; intros [|n]; simpl; try reflexivity.
  rewrite IH. reflexivity.
Qed.

Lemma remove_at_loosen (n : nat) (l : list task) :
  remove_at n (map loosen l) = map loosen (remove_at n l).
Proof.
  revert n. induction l as [|t l IH]; intros [|n]; simpl; try reflexivity.
  rewrite IH. reflexivity.
Qed.

(** Reading a key that is there. *)
Lemma agree_getkey_done {A B : Type} (f : A -> B) (m : M A) (t : task)
  (k : bool -> Loose.M B) :
  agree f m (k (done t)) ->
  agree f m (Loose.bind (Loose.getkey Loose.done (loosen t)) k).
Proof. intros H w. exact (H w). Qed.

Lemma agree_getkey_desc {A B : Type} (f : A -> B) (m : M A) (t : task)
  (k : string -> Loose.M B) :
  agree f m (k (desc t)) ->
  agree f m (Loose.bind (Loose.getkey Loose.desc (loosen t)) k).
Proof. intros H w. exact (H w). Qed.

Lemma loose_select_loosen (keep : bool -> bool) (l : list task) :
  forall lw,
    Loose.select keep (map loosen l) lw
    = (Ok (map loosen (filter (fun t => keep (done t)) l)), lw).
Proof.
  induction l as [|t l IH]; intros lw; [reflexivity|].
  cbn [map Loose.select filter]. unfold Loose.bind at 1.
  change (Loose.getkey Loose.done (loosen t) lw) with (Ok (done t), lw).
  cbv beta iota. unfold Loose.bind at 1. rewrite IH.
  destruct (keep (done t)); reflexivity.
Qed.

Lemma agree_select {A B : Type} (f : A -> B) (m : M A)
  (keep : bool -> bool) (l : list task)
  (k : list Loose.entry -> Loose.M B) :
  agree f m (k (map loosen (filter (fun t => keep (done t)) l))) ->
  agree f m (Loose.bind (Loose.select keep (map loosen l)) k).
Proof.
  intros H w. rewrite LooseFacts.loose_bind_run, loose_select_loosen.
  exact (H w).
Qed.

Lemma nonempty_map {A B : Type} (f : A -> B) (l : list A) :
  nonempty (map f l) = nonempty l.
Proof. destruct l; reflexivity. Qed.

Ltac agree_step :=
  first
    [ apply agree_getkey_done
    | apply agree_getkey_desc
    | eapply agree_bind; [apply agree_print | intros _]
    | eapply agree_bind; [apply agree_save | intros _]
    | eapply agree_bind; [apply agree_getitem | intros ?]
    | intros ?; reflexivity ].

Lemma agree_mark_done (i : Z) :
  agree (fun b : bool => b) (mark_done clock i) (Loose.mark_done clock i).
Proof.
  unfold mark_done, Loose.mark_done.
  eapply agree_bind; [apply agree_load | intros tasks].
  rewrite in_range_loosen, length_map.
  destruct (negb (in_range i tasks)); [repeat agree_step|].
  eapply agree_bind; [apply agree_getitem | intros t].
  apply agree_getkey_done.
  destruct (done t); [repeat agree_step|].
  cbv zeta. rewrite update_at_loosen. repeat agree_step.
Qed.

Lemma agree_mark_undone (i : Z) :
  agree (fun b : bool => b) (mark_undone clock i)
        (Loose.mark_undone clock i).
Proof.
  unfold mark_undone, Loose.mark_undone.
  eapply agree_bind; [apply agree_load | intros tasks].
  rewrite in_range_loosen, length_map.
  destruct (negb (in_range i tasks)); [repeat agree_step|].
  eapply agree_bind; [apply agree_getitem | intros t].
  apply agree_getkey_done.
  destruct (negb (done t)); [repeat agree_step|].
  cbv zeta. rewrite update_at_loosen. repeat agree_step.
Qed.

Lemma agree_delete_task (i : Z) :
  agree (fun b : bool => b) (delete_task clock i)
        (Loose.delete_task clock i).
Proof.
  unfold delete_task, Loose.delete_task.
  eapply agree_bind; [apply agree_load | intros tasks].
  rewrite in_range_loosen, length_map.
  destruct (negb (in_range i tasks)); [repeat agree_step|].
  eapply agree_bind; [apply agree_getitem | intros t].
  cbv zeta. rewrite remove_at_loosen. repeat agree_step.
Qed.

Lemma agree_clear_done :
  agree (fun u : unit => u) (clear_done clock) (Loose.clear_done clock).
Proof.
  unfold clear_done, Loose.clear_done.
  eapply agree_bind; [apply agree_load | intros tasks].
  apply (agree_select _ _ (fun b => b)).
  apply (agree_select _ _ negb).
  cbv zeta. rewrite nonempty_map, length_map.
  destruct (negb (nonempty (filter (fun t => done t) tasks)));
    [intros w; reflexivity|].
  eapply agree_bind; [apply agree_save | intros _].
  eapply agree_bind; [apply agree_print | intros _].
  destruct (_ <=? 5)%nat; [|intros w; reflexivity].
  eapply agree_bind; [apply agree_print | intros _].
  apply agree_print_removed.
Qed.
End Agreement.

Lemma loosen_onto (l : list Loose.entry) :
  Forall (fun e => Loose.desc e <> None /\ Loose.done e <> None) l ->
  exists l', l = map loosen l'.
Proof.
  induction 1 as [|e l [Hd Hb] _ (l' & ->)]; [exists []; reflexivity|].
  destruct e as [[d|] [b|] p tg c]; try contradiction.
  exists (mkTask d b p tg c :: l'). reflexivity.
Qed.

Lemma loosen_world_onto (lw : Loose.world) :
  Forall (fun e => Loose.desc e <> None /\ Loose.done e <> None)
         (Loose.stored (Loose.file lw)) ->
  exists w, lw = loosen_world w.
Proof.
  destruct lw as [[| |l] s o k]; simpl; intros H.
  - exists (mkWorld NoFile s o k). reflexivity.
  - exists (mkWorld Unreadable s o k). reflexivity.
  - destruct (loosen_onto l H) as (l' & ->).
    exists (mkWorld (Stored l') s o k). reflexivity.
Qed.

(** X28.  On a file in which every task has [desc] and [done], the four
    commands that index these keys never meet a [KeyError]: [mark_done],
    [mark_undone], [delete_task] and [clear_done] return, and they return
    the value, print the lines and leave the file that the commands on
    record [task] do, where the two keys are fields. *)
Theorem whole_tasks_agree (clock : nat -> datetime) (lw : Loose.world)
  (i : Z) :
  Forall (fun e => Loose.desc e <> None /\ Loose.done e <> None)
         (Loose.stored (Loose.file lw)) ->
  exists w,
    lw = loosen_world w
    /\ (exists b w',
          mark_done clock i w = (Ok b, w')
          /\ Loose.mark_done clock i lw = (Ok b, loosen_world w'))
    /\ (exists b w',
          mark_undone clock i w = (Ok b, w')
          /\ Loose.mark_undone clock i lw = (Ok b, loosen_world w'))
    /\ (exists b w',
          delete_task clock i w = (Ok b, w')
          /\ Loose.delete_task clock i lw = (Ok b, loosen_world w'))
    /\ (exists w',
          clear_done clock w = (Ok tt, w')
          /\ Loose.clear_done clock lw = (Ok tt, loosen_world w')).
Proof.
  intros H. destruct (loosen_world_onto lw H) as (w & ->).
  exists w. split; [reflexivity|].
  assert (forall (A : Type) (m : M A) (lm : Loose.M A),
             total anything m any ->
             agree (fun a : A => a) m lm ->
             exists a w',
               m w = (Ok a, w') /\ lm (loosen_world w) = (Ok a, loosen_world w'))
    as T.
  { intros A m lm Hm Ha.
    destruct (total_to_known m Hm w) as (a & w' & E).
    exists a, w'. split; [exact E|]. rewrite (Ha w), E. reflexivity. }
  split; [apply T; [apply mark_done_returns | apply agree_mark_done]|].
  split; [apply T; [apply mark_undone_returns | apply agree_mark_undone]|].
  split; [apply T; [apply delete_task_returns | apply agree_delete_task]|].
  destruct (T unit (clear_done clock) (Loose.clear_done clock)
              (clear_done_returns clock) (agree_clear_done clock))
    as ([] & w' & E1 & E2).
  exists w'. split; assumption.
Qed.

Lemma whole_tasks_agree_witness :
  exists w,
    Loose.fresh (Loose.Stored [Loose.whole]) = loosen_world w
    /\ (exists b w',
          mark_done noon 1 w = (Ok b, w')
          /\ Loose.mark_done noon 1 (Loose.fresh (Loose.Stored [Loose.whole]))
             = (Ok b, loosen_world w')).
Proof.
  destruct (whole_tasks_agree noon (Loose.fresh (Loose.Stored [Loose.whole]))
              1) as (w & E & M & _).
  - repeat constructor; discriminate.
  - exists w. split; [exact E | exact M].
Defined.
